(** * TestBot: the trading engine of [app/algo.py] and the ledger of [app/db.py]

    A shallow embedding of the single-symbol KuCoin spot bot: balance cache,
    one-minute bar aggregation, entry and exit decisions, the order pipeline
    (quantisation, bounded retry, confirmation polling, timeout cancel) and
    the reconciliation of persisted orders.

    Conventions of the embedding.
    - A Python [float] is an exact rational ([Q]); comparisons, [max], [min]
      and [floor] are the exact ones.  [Decimal] arithmetic keeps the context
      precision the module sets ([getcontext().prec = 18], ROUND_HALF_EVEN).
    - Wall-clock readings ([time()], [datetime.utcnow()], pandas timestamps)
      are integers in nanoseconds.
    - The exchange, the clock and the forecasting models are oracles of a
      [world]: the n-th call of an operation gets the n-th answer, and the
      engine state counts the calls made so far.
    - A Python exception is a result [Raise e] that keeps the state reached
      when it was raised; [while True] loops take fuel and [Diverge] without.
    - Debug-level log lines are left out; info, warning and error lines are
      kept in [log].
    - Of [run_algo], the symbol lookup and the websocket subscription are
      not embedded: the symbol's increments and minimum size are fields of
      [config].  Its reconciliation and resumption at start-up are
      [start_up], and one round of its minute timer is [minute_tick]. *)

From Stdlib Require Import ZArith QArith Qround Qabs Lqa Lia.
From Stdlib Require Import Bool List String Ascii.
Import ListNotations.

Local Open Scope Z_scope.
Local Open Scope Q_scope.
Local Open Scope string_scope.

(* ------------------------------------------------------------------ *)
(** ** Numbers *)
(* ------------------------------------------------------------------ *)

Module Num.

Definition Qleb (x y : Q) : bool := Qle_bool x y.
Definition Qltb (x y : Q) : bool := negb (Qle_bool y x).
Definition Qeqb (x y : Q) : bool := Qeq_bool x y.

(** Python's [max(a, b)] and [min(a, b)] keep the first argument on ties. *)
Definition py_max (a b : Q) : Q := if Qltb a b then b else a.
Definition py_min (a b : Q) : Q := if Qltb b a then b else a.

(** [10 ** e] for an integer exponent of either sign. *)
Definition pow10 (e : Z) : Q :=
  if (e <? 0)%Z then 1 # Z.to_pos (10 ^ (- e)) else inject_Z (10 ^ e).

(** Truncation toward zero: [int(x)], and Decimal's ROUND_DOWN. *)
Definition Qtrunc (q : Q) : Z := Z.quot (Qnum q) (Zpos (Qden q)).

(** Round to the nearest integer, ties to the even one. *)
Definition round_half_even (q : Q) : Z :=
  let f := Qfloor q in
  let r := q - inject_Z f in
  if Qltb r (1 # 2) then f
  else if Qltb (1 # 2) r then (f + 1)%Z
  else if Z.even f then f else (f + 1)%Z.

(** Number of decimal digits of a positive integer. *)
Fixpoint ndigits_fuel (fuel : nat) (n : Z) : Z :=
  match fuel with
  | O => 1
  | S f => if (n <? 10)%Z then 1 else (1 + ndigits_fuel f (n / 10))%Z
  end.

Definition ndigits (n : Z) : Z := ndigits_fuel (Z.to_nat (Z.log2 n)) n.

(** The exponent [e] with [10^17 <= a / 10^e < 10^18], for [a > 0]. *)
Definition sig_exponent (a : Q) : Z :=
  let k := (ndigits (Qnum a) - ndigits (Zpos (Qden a)))%Z in
  if Qleb (pow10 18) (a / pow10 (k - 18)) then (k - 17)%Z else (k - 18)%Z.

(** Rounding of an exact result to the Decimal context: 18 significant
    digits, ROUND_HALF_EVEN. *)
Definition round_prec (q : Q) : Q :=
  if Qeqb q 0 then 0
  else
    let a := Qabs q in
    let e := sig_exponent a in
    let c := round_half_even (a / pow10 e) in
    (if Qltb q 0 then - inject_Z c else inject_Z c) * pow10 e.

(** Python's [round(x, n)] and the format [f"{x:.nf}"]: nearest multiple of
    [10^-n], ties to even. *)
Definition py_round (x : Q) (n : Z) : Q :=
  inject_Z (round_half_even (x * pow10 n)) / pow10 n.

(** [int(math.log10(x))] for [x > 0]: the logarithm truncated toward zero. *)
Definition int_log10 (x : Q) : Z :=
  if Qleb 1 x then (ndigits (Qfloor x) - 1)%Z
  else (- (ndigits (Qfloor (/ x)) - 1))%Z.

End Num.

(* ------------------------------------------------------------------ *)
(** ** Strings *)
(* ------------------------------------------------------------------ *)

Module Str.

Definition lower_ascii (c : ascii) : ascii :=
  let n := nat_of_ascii c in
  if andb (65 <=? n)%nat (n <=? 90)%nat then ascii_of_nat (n + 32) else c.

(** [s.lower()] *)
Fixpoint lower (s : string) : string :=
  match s with
  | EmptyString => EmptyString
  | String c t => String (lower_ascii c) (lower t)
  end.

(** [needle in hay] *)
Fixpoint contains (needle hay : string) : bool :=
  if String.prefix needle hay then true
  else match hay with
       | EmptyString => false
       | String _ t => contains needle t
       end.

(** [x or ""] for a value that may be [None] *)
Definition or_empty (x : option string) : string :=
  match x with Some s => s | None => "" end.

(** [a or b] for two values read with [dict.get]: the first truthy one. *)
Definition or_else (a b : option string) : option string :=
  match a with
  | Some s => if String.eqb s "" then b else a
  | None => b
  end.

End Str.

(* ------------------------------------------------------------------ *)
(** ** Data model *)
(* ------------------------------------------------------------------ *)

(** A float that is the decimal [coef * 10^expo]; the exchange's symbol
    metadata gives the increments as such decimals. *)
Record decimal := { coef : Z; expo : Z }.

Definition dval (d : decimal) : Q := inject_Z (coef d) * Num.pow10 (expo d).

(** Strip the trailing zeros of a coefficient. *)
Fixpoint strip_zeros (fuel : nat) (c e : Z) : Z * Z :=
  match fuel with
  | O => (c, e)
  | S f => if andb (negb (c =? 0)%Z) (c mod 10 =? 0)%Z
           then strip_zeros f (c / 10)%Z (e + 1)%Z else (c, e)
  end.

(** [Decimal(str(x))] for the float [x]: [repr] prints the shortest digits,
    in fixed notation with at least one fractional digit when
    [1e-4 <= |x| < 1e16] and in scientific notation otherwise; [Decimal]
    keeps the digits and the exponent as written. *)
Definition Decimal_of_str (x : decimal) : decimal :=
  let '(c, e) := strip_zeros (Z.to_nat (Z.log2 (Z.abs (coef x)))) (coef x) (expo x) in
  if (c =? 0)%Z then {| coef := 0; expo := -1 |}
  else
    let adj := (Num.ndigits (Z.abs c) + e - 1)%Z in
    if andb (-4 <=? adj)%Z (adj <? 16)%Z
    then if (e <? 0)%Z then {| coef := c; expo := e |}
         else {| coef := c * 10 ^ (e + 1); expo := -1 |}
    else {| coef := c; expo := e |}.

(** A dictionary entry that the code reads through [float(...)]. *)
Inductive field := Missing | Bad | Num_ (q : Q).

(** [data] of a feed message. *)
Record payload := {
  p_price : field; p_bestAsk : field; p_time : option Z; p_size : field }.

(** A feed message; [data = None] stands for an absent or empty payload. *)
Record message := { topic : string; data : option payload }.

(** The order dictionary the exchange returns (already out of its envelope). *)
Record order_info := {
  o_orderId : option string; o_id : option string; o_status : option string;
  o_isActive : option bool; o_opType : option string;
  o_dealPrice : field; o_dealSize : field }.

Record account := {
  a_currency : option string; a_type : option string; a_available : field }.

Record ticker := { bestBid : field; bestAsk : field }.

Inductive exn :=
| KucoinAPIException (msg : string)
| RuntimeError (msg : string)
| ValueError | TypeError | KeyError | AttributeError | ZeroDivisionError
| DecimalException
| IntegrityError
| ConnectionError.

Inductive reply (A : Type) := Reply (a : A) | Fails (e : exn).
Arguments Reply {A} a.
Arguments Fails {A} e.

(** A row of the [trades] table. *)
Record Trade := {
  trade_id : Z; order_id : string; status : string; type : string;
  symbol : string; price : Q; quantity : Q; timestamp : Z; pnl : option Q }.

(** The fields of [current_bar] once a bar has started. *)
Record bar := {
  minute : Z; open : Q; high : Q; low : Q; close : Q; volume : Q }.

Record position := {
  in_position : bool; BP : Q; buy_time : option Z; high_water : option Q;
  exit_price : Q; DV_before_trade : Q }.

Record balances := {
  available_quote : Q; available_base : Q;
  _last_balance_fetch : option Z; _balance_cache : list (string * Q) }.

Record stats := {
  wins : Z; losses : Z; total_PnL : Q;
  prediction_high : option Q; prediction_low : option Q }.

(** Requests sent to the exchange, in order. *)
Inductive request :=
| CreateLimitOrder (side : string) (price_ : Q) (size : Q)
| CreateMarketOrder (side : string) (size : Q)
| CancelOrder (oid : option string).

Inductive level := INFO | WARNING | ERROR.

(** Calls made so far to each oracle, and what the engine emitted. *)
Record io := {
  n_clock : nat; n_accounts : nat; n_ticker : nat; n_create : nat;
  n_get_order : nat; n_cancel : nat;
  requests : list request; sleeps : list Q; log : list (level * string) }.

Record state := {
  pos : position; current_bar : option bar; minList : list (Z * bar);
  bal : balances; sts : stats; ledger : list Trade; ext : io;
  stop_requested : bool; models_ready : bool }.

Record world := {
  clock : nat -> Z;
  get_accounts : nat -> reply (list account);
  get_ticker : nat -> reply ticker;
  create_order : nat -> reply order_info;
  get_order : nat -> reply order_info;
  cancel_order : nat -> reply unit;
  minH_model : list Q -> Q;
  minL_model : list Q -> Q }.

Record config := {
  BASE : string; QUOTE : string;
  HL_DIFF_THRESHOLD : Q; PROFIT_TARGET_MULT : Q; STOP_LOSS_MULT : Q;
  TIME_STOP_MINUTES : Z; ORDER_TYPE : string; LIMIT_SLIPPAGE : Q;
  BASE_MIN_SIZE : Q; BASE_INCREMENT : decimal; PRICE_INCREMENT : decimal }.

Definition SYMBOL (cfg : config) : string := BASE cfg ++ "-" ++ QUOTE cfg.

Definition MAX_ORDER_RETRIES : nat := 5.
Definition INITIAL_RETRY_DELAY : Q := 1.
(** 60.0 seconds, in nanoseconds *)
Definition BALANCE_CACHE_TTL : Z := 60000000000.
Definition NS_PER_SECOND : Z := 1000000000.
Definition NS_PER_MINUTE : Z := 60000000000.

(* ------------------------------------------------------------------ *)
(** ** State updates *)
(* ------------------------------------------------------------------ *)

Definition with_pos (f : position -> position) (s : state) : state :=
  {| pos := f (pos s); current_bar := current_bar s; minList := minList s;
     bal := bal s; sts := sts s; ledger := ledger s; ext := ext s;
     stop_requested := stop_requested s; models_ready := models_ready s |}.

Definition with_bar (b : option bar) (s : state) : state :=
  {| pos := pos s; current_bar := b; minList := minList s;
     bal := bal s; sts := sts s; ledger := ledger s; ext := ext s;
     stop_requested := stop_requested s; models_ready := models_ready s |}.

Definition with_minList (l : list (Z * bar)) (s : state) : state :=
  {| pos := pos s; current_bar := current_bar s; minList := l;
     bal := bal s; sts := sts s; ledger := ledger s; ext := ext s;
     stop_requested := stop_requested s; models_ready := models_ready s |}.

Definition with_bal (f : balances -> balances) (s : state) : state :=
  {| pos := pos s; current_bar := current_bar s; minList := minList s;
     bal := f (bal s); sts := sts s; ledger := ledger s; ext := ext s;
     stop_requested := stop_requested s; models_ready := models_ready s |}.

Definition with_sts (f : stats -> stats) (s : state) : state :=
  {| pos := pos s; current_bar := current_bar s; minList := minList s;
     bal := bal s; sts := f (sts s); ledger := ledger s; ext := ext s;
     stop_requested := stop_requested s; models_ready := models_ready s |}.

Definition with_ledger (f : list Trade -> list Trade) (s : state) : state :=
  {| pos := pos s; current_bar := current_bar s; minList := minList s;
     bal := bal s; sts := sts s; ledger := f (ledger s); ext := ext s;
     stop_requested := stop_requested s; models_ready := models_ready s |}.

Definition with_ext (f : io -> io) (s : state) : state :=
  {| pos := pos s; current_bar := current_bar s; minList := minList s;
     bal := bal s; sts := sts s; ledger := ledger s; ext := f (ext s);
     stop_requested := stop_requested s; models_ready := models_ready s |}.

Definition set_in_position (v : bool) (p : position) : position :=
  {| in_position := v; BP := BP p; buy_time := buy_time p;
     high_water := high_water p; exit_price := exit_price p;
     DV_before_trade := DV_before_trade p |}.

Definition set_BP (v : Q) (p : position) : position :=
  {| in_position := in_position p; BP := v; buy_time := buy_time p;
     high_water := high_water p; exit_price := exit_price p;
     DV_before_trade := DV_before_trade p |}.

Definition set_buy_time (v : option Z) (p : position) : position :=
  {| in_position := in_position p; BP := BP p; buy_time := v;
     high_water := high_water p; exit_price := exit_price p;
     DV_before_trade := DV_before_trade p |}.

Definition set_high_water (v : option Q) (p : position) : position :=
  {| in_position := in_position p; BP := BP p; buy_time := buy_time p;
     high_water := v; exit_price := exit_price p;
     DV_before_trade := DV_before_trade p |}.

Definition set_exit_price (v : Q) (p : position) : position :=
  {| in_position := in_position p; BP := BP p; buy_time := buy_time p;
     high_water := high_water p; exit_price := v;
     DV_before_trade := DV_before_trade p |}.

Definition set_DV_before_trade (v : Q) (p : position) : position :=
  {| in_position := in_position p; BP := BP p; buy_time := buy_time p;
     high_water := high_water p; exit_price := exit_price p;
     DV_before_trade := v |}.

Definition bump (which : nat) (x : io) : io :=
  let inc (k n : nat) := if Nat.eqb which k then S n else n in
  {| n_clock := inc 0%nat (n_clock x); n_accounts := inc 1%nat (n_accounts x);
     n_ticker := inc 2%nat (n_ticker x); n_create := inc 3%nat (n_create x);
     n_get_order := inc 4%nat (n_get_order x); n_cancel := inc 5%nat (n_cancel x);
     requests := requests x; sleeps := sleeps x; log := log x |}.

Definition add_request (r : request) (x : io) : io :=
  {| n_clock := n_clock x; n_accounts := n_accounts x; n_ticker := n_ticker x;
     n_create := n_create x; n_get_order := n_get_order x; n_cancel := n_cancel x;
     requests := requests x ++ [r]; sleeps := sleeps x; log := log x |}.

Definition add_sleep (d : Q) (x : io) : io :=
  {| n_clock := n_clock x; n_accounts := n_accounts x; n_ticker := n_ticker x;
     n_create := n_create x; n_get_order := n_get_order x; n_cancel := n_cancel x;
     requests := requests x; sleeps := sleeps x ++ [d]; log := log x |}.

Definition add_log (l : level) (m : string) (x : io) : io :=
  {| n_clock := n_clock x; n_accounts := n_accounts x; n_ticker := n_ticker x;
     n_create := n_create x; n_get_order := n_get_order x; n_cancel := n_cancel x;
     requests := requests x; sleeps := sleeps x; log := log x ++ [(l, m)] |}.

(* ------------------------------------------------------------------ *)
(** ** The monad of engine code *)
(* ------------------------------------------------------------------ *)

Inductive res (A : Type) := Ret (a : A) | Raise (e : exn) | Diverge.
Arguments Ret {A} a.
Arguments Raise {A} e.
Arguments Diverge {A}.

Definition M (A : Type) : Type := state -> res A * state.

Definition ret {A} (a : A) : M A := fun s => (Ret a, s).
Definition raise {A} (e : exn) : M A := fun s => (Raise e, s).
Definition diverge {A} : M A := fun s => (Diverge, s).

Definition bind {A B} (c : M A) (k : A -> M B) : M B :=
  fun s => match c s with
           | (Ret a, s') => k a s'
           | (Raise e, s') => (Raise e, s')
           | (Diverge, s') => (Diverge, s')
           end.

(** [try: c  except Exception as e: h e] *)
Definition try_except {A} (c : M A) (h : exn -> M A) : M A :=
  fun s => match c s with
           | (Raise e, s') => h e s'
           | r => r
           end.

Definition gets {A} (f : state -> A) : M A := fun s => (Ret (f s), s).
Definition modify (f : state -> state) : M unit := fun s => (Ret tt, f s).

Declare Scope monad_scope.
Delimit Scope monad_scope with monad.
Notation "x <- c ;; k" := (bind c (fun x => k))
  (at level 61, c at next level, right associativity) : monad_scope.
Notation "c ;; k" := (bind c (fun _ => k))
  (at level 61, right associativity) : monad_scope.
Local Open Scope monad_scope.

Definition logger (l : level) (m : string) : M unit :=
  modify (with_ext (add_log l m)).

(** [await asyncio.sleep(d)] *)
Definition sleep (d : Q) : M unit := modify (with_ext (add_sleep d)).

(** [float(x)] of a dictionary entry; an absent key takes the default. *)
Definition float_field (f : field) (default : res Q) : res Q :=
  match f with
  | Missing => default
  | Bad => Raise ValueError
  | Num_ q => Ret q
  end.

Definition lift {A} (r : res A) : M A := fun s => (r, s).

(** [a / b] on floats *)
Definition fdiv (a b : Q) : M Q :=
  if Num.Qeqb b 0 then raise ZeroDivisionError else ret (a / b).

(* ------------------------------------------------------------------ *)
(** ** The ledger: [app/db.py] *)
(* ------------------------------------------------------------------ *)

Definition set_status (new_status : string) (t : Trade) : Trade :=
  {| trade_id := trade_id t; order_id := order_id t; status := new_status;
     type := type t; symbol := symbol t; price := price t;
     quantity := quantity t; timestamp := timestamp t; pnl := pnl t |}.

(** The next value of the integer primary key. *)
Definition next_id (l : list Trade) : Z :=
  (1 + fold_right (fun t m => Z.max (trade_id t) m) 0 l)%Z.

(** [db.query(Trade).filter(Trade.order_id == order_id).first()] followed by
    the assignment to [trade.status]: the first matching row is rewritten. *)
Fixpoint update_first (oid new_status : string) (l : list Trade)
  : option (Trade * list Trade) :=
  match l with
  | [] => None
  | t :: r =>
      if String.eqb (order_id t) oid
      then Some (set_status new_status t, set_status new_status t :: r)
      else match update_first oid new_status r with
           | Some (u, r') => Some (u, t :: r')
           | None => None
           end
  end.

(** [create_trade]; [order_id] is a NOT NULL column. *)
Definition create_trade (oid : option string) (st ty sym : string)
    (pr qty : Q) (ts : Z) (pl : option Q) : M Trade :=
  match oid with
  | None => raise IntegrityError
  | Some o =>
      l <- gets ledger ;;
      let t := {| trade_id := next_id l; order_id := o; status := st;
                  type := ty; symbol := sym; price := pr; quantity := qty;
                  timestamp := ts; pnl := pl |} in
      modify (with_ledger (fun l => (l ++ [t])%list)) ;;
      logger INFO "[db] Recorded trade" ;;
      ret t
  end.

(** [update_trade_status] *)
Definition update_trade_status (oid : option string) (new_status : string)
  : M (option Trade) :=
  l <- gets ledger ;;
  match match oid with Some o => update_first o new_status l | None => None end with
  | Some (t, l') =>
      modify (with_ledger (fun _ => l')) ;;
      logger INFO "[db] Updated trade" ;;
      ret (Some t)
  | None =>
      logger WARNING "[db] update_trade_status: no trade found" ;;
      ret None
  end.

(** [filter(not_(Trade.status.in_(["filled", "canceled"])))] *)
Definition is_final (st : string) : bool :=
  orb (String.eqb st "filled") (String.eqb st "canceled").

Definition pending_trades (l : list Trade) : list Trade :=
  filter (fun t => negb (is_final (status t))) l.

(* ------------------------------------------------------------------ *)
(** ** The engine: [app/algo.py] *)
(* ------------------------------------------------------------------ *)

(** Dictionaries keyed by currency. *)
Fixpoint dict_set (k : string) (v : Q) (d : list (string * Q)) : list (string * Q) :=
  match d with
  | [] => [(k, v)]
  | (k', v') :: r => if String.eqb k' k then (k, v) :: r else (k', v') :: dict_set k v r
  end.

Fixpoint dict_get (k : string) (default : Q) (d : list (string * Q)) : Q :=
  match d with
  | [] => default
  | (k', v') :: r => if String.eqb k' k then v' else dict_get k default r
  end.

(** Status vocabulary of the exchange mapped to the three ledger states. *)
Definition map_status (rs : string) : string :=
  if orb (String.eqb rs "done") (String.eqb rs "filled") then "filled"
  else if orb (String.eqb rs "canceled") (String.eqb rs "cancelled") then "canceled"
  else "open".

Definition show_oid (oid : option string) : string :=
  match oid with Some s => s | None => "None" end.

(** Decimal operations under the module's context. *)
Definition Decimal_floordiv (a b : Q) : M Z :=
  if Num.Qeqb b 0 then raise DecimalException
  else let n := Num.Qtrunc (a / b) in
       if (10 ^ 18 <=? Z.abs n)%Z then raise DecimalException else ret n.

Definition Decimal_div (a b : Q) : M Q :=
  if Num.Qeqb b 0 then raise DecimalException else ret (Num.round_prec (a / b)).

(** [v.quantize(q, rounding=ROUND_DOWN)] where [q] has exponent [e]: the
    digits of [v] below [10^e] are dropped. *)
Definition Decimal_quantize_down (v : Q) (e : Z) : M Q :=
  let c := Num.Qtrunc (v / Num.pow10 e) in
  if (10 ^ 18 <=? Z.abs c)%Z then raise DecimalException
  else ret (inject_Z c * Num.pow10 e).

(** One pass of the [while True] loop gives the final result or asks for
    another pass. *)
Inductive pass (A : Type) := Done (a : A) | Again.
Arguments Done {A} a.
Arguments Again {A}.

Section Engine.

Variable cfg : config.
Variable w : world.

(** *** Oracle calls *)

Definition ask {A} (which : nat) (count : io -> nat) (oracle : nat -> reply A) : M A :=
  fun s =>
    let s' := with_ext (bump which) s in
    match oracle (count (ext s)) with
    | Reply a => (Ret a, s')
    | Fails e => (Raise e, s')
    end.

(** [time()] and [datetime.utcnow()] *)
Definition utcnow : M Z :=
  fun s => (Ret (clock w (n_clock (ext s))), with_ext (bump 0) s).

Definition kc_get_accounts : M (list account) := ask 1 n_accounts (get_accounts w).
Definition kc_get_ticker : M ticker := ask 2 n_ticker (get_ticker w).

Definition kc_create_limit_order (side : string) (pr size : Q) : M order_info :=
  modify (with_ext (add_request (CreateLimitOrder side pr size))) ;;
  ask 3 n_create (create_order w).

Definition kc_create_market_order (side : string) (size : Q) : M order_info :=
  modify (with_ext (add_request (CreateMarketOrder side size))) ;;
  ask 3 n_create (create_order w).

Definition kc_get_order (oid : option string) : M order_info :=
  ask 4 n_get_order (get_order w).

Definition kc_cancel_order (oid : option string) : M unit :=
  modify (with_ext (add_request (CancelOrder oid))) ;;
  ask 5 n_cancel (cancel_order w).

(** *** Balance cache *)

Fixpoint build_cache (accts : list account) (new_cache : list (string * Q))
  : M (list (string * Q)) :=
  match accts with
  | [] => ret new_cache
  | acct :: r =>
      match a_currency acct with
      | Some cur =>
          if andb (negb (String.eqb cur "")) (String.eqb (Str.or_empty (a_type acct)) "trade")
          then match a_available acct with
               | Bad => logger WARNING "Could not parse available" ;;
                        build_cache r new_cache
               | Missing => build_cache r (dict_set cur 0 new_cache)
               | Num_ q => build_cache r (dict_set cur q new_cache)
               end
          else build_cache r new_cache
      | None => build_cache r new_cache
      end
  end.

Definition set_cache (c : list (string * Q)) (now : Z) (b : balances) : balances :=
  {| available_quote := available_quote b; available_base := available_base b;
     _last_balance_fetch := Some now; _balance_cache := c |}.

Definition get_available (currency : string) : M Q :=
  now <- utcnow ;;
  last <- gets (fun s => _last_balance_fetch (bal s)) ;;
  (if match last with
      | None => true
      | Some l => (BALANCE_CACHE_TTL <? now - l)%Z
      end
   then try_except
          (raw_accounts <- kc_get_accounts ;;
           new_cache <- build_cache raw_accounts [] ;;
           modify (with_bal (set_cache new_cache now)))
          (fun _ => logger WARNING "Balance fetch failed, using cached")
   else ret tt) ;;
  gets (fun s => dict_get currency 0 (_balance_cache (bal s))).

(** *** Quantisation *)

Definition floor_price_to_tick (p : Q) : M Q :=
  let inc := Decimal_of_str (PRICE_INCREMENT cfg) in
  n <- Decimal_floordiv p (dval inc) ;;
  Decimal_quantize_down (Num.round_prec (inject_Z n * dval inc)) (expo inc).

(** *** Submission with retry *)

Definition submit_order (side : string) (pr : option Q) (size : Q) : M order_info :=
  order <-
    (if String.eqb (Str.lower (ORDER_TYPE cfg)) "limit"
     then match pr with
          | None => raise ValueError
          | Some p =>
              raw_price <-
                try_except
                  (tick <- kc_get_ticker ;;
                   bd <- lift (float_field (bestBid tick) (Raise KeyError)) ;;
                   ba <- lift (float_field (bestAsk tick) (Raise KeyError)) ;;
                   ret (if String.eqb side "buy"
                        then bd * (1 + LIMIT_SLIPPAGE cfg)
                        else ba * (1 - LIMIT_SLIPPAGE cfg)))
                  (fun _ => logger WARNING "failed to fetch ticker for slippage" ;;
                            ret p) ;;
              use_price <- floor_price_to_tick raw_price ;;
              kc_create_limit_order side use_price size
          end
     else kc_create_market_order side size) ;;
  let rs := Str.lower (Str.or_empty (o_status order)) in
  let initial_status := map_status rs in
  let oid := Str.or_else (o_orderId order) (o_id order) in
  now <- utcnow ;;
  create_trade oid initial_status side (SYMBOL cfg)
    (match pr with Some p => p | None => 0 end) size now None ;;
  logger INFO "order placed" ;;
  ret order.

(** The [for attempt in range(1, MAX_ORDER_RETRIES + 1)] loop, entered at
    [attempt] with [remaining] iterations left. *)
Fixpoint place_order_attempts (remaining attempt : nat) (delay : Q)
    (side : string) (pr : option Q) (size : Q) : M (option order_info) :=
  match remaining with
  | O => ret None
  | S r =>
      try_except
        (order <- submit_order side pr size ;; ret (Some order))
        (fun e =>
           logger ERROR "order attempt failed" ;;
           if Nat.eqb attempt MAX_ORDER_RETRIES
           then logger ERROR "permanently failed" ;; raise e
           else sleep delay ;;
                place_order_attempts r (S attempt) (delay * 2) side pr size)
  end.

Definition place_order_with_retry (side : string) (pr : option Q) (size : Q)
  : M (option order_info) :=
  place_order_attempts MAX_ORDER_RETRIES 1 INITIAL_RETRY_DELAY side pr size.

(** *** Confirmation *)

Definition confirm_pass (oid : option string) (start_time : Z) : M (pass order_info) :=
  r <- try_except
         (st <- kc_get_order oid ;; ret (Some st))
         (fun e =>
            match e with
            | KucoinAPIException msg =>
                logger WARNING "error fetching order" ;;
                if Str.contains "does not exist" (Str.lower msg)
                then sleep (1 # 2) ;; ret None
                else raise e
            | _ => raise e
            end) ;;
  match r with
  | None => ret Again
  | Some st =>
      let rs := Str.lower (Str.or_empty (o_status st)) in
      let mapped := map_status rs in
      if negb (match o_isActive st with Some b => b | None => false end)
      then update_trade_status oid mapped ;;
           if String.eqb mapped "filled"
           then logger INFO "Order confirmed filled" ;; ret (Done st)
           else logger WARNING "Order ended" ;;
                raise (RuntimeError ("Order " ++ show_oid oid ++ " " ++ mapped))
      else
        now <- utcnow ;;
        if (60 * NS_PER_SECOND <? now - start_time)%Z
        then logger WARNING "Order timed out after 60s, canceling" ;;
             kc_cancel_order oid ;;
             update_trade_status oid "canceled" ;;
             raise (RuntimeError ("Order " ++ show_oid oid ++ " canceled after timeout"))
        else sleep (1 # 2) ;; ret Again
  end.

Fixpoint confirm_loop (fuel : nat) (oid : option string) (start_time : Z)
  : M order_info :=
  match fuel with
  | O => diverge
  | S f =>
      r <- confirm_pass oid start_time ;;
      match r with
      | Done st => ret st
      | Again => confirm_loop f oid start_time
      end
  end.

Definition place_and_confirm_order (fuel : nat) (side : string)
    (pr : option Q) (size : Q) : M order_info :=
  o <- place_order_with_retry side pr size ;;
  match o with
  | None => raise AttributeError
  | Some order =>
      let oid := Str.or_else (o_orderId order) (o_id order) in
      start_time <- utcnow ;;
      confirm_loop fuel oid start_time
  end.

(** *** The message handler *)

Definition minute_of (ts : Z) : Z := (NS_PER_MINUTE * (ts / NS_PER_MINUTE))%Z.

(** [deque(maxlen=5).append] *)
Definition deque_append (x : Z * bar) (l : list (Z * bar)) : list (Z * bar) :=
  let l' := (l ++ [x])%list in
  if (5 <? List.length l')%nat then tl l' else l'.

(** Step 2 of [handle]: the price and the raw timestamp, by topic. *)
Definition extract_price (tp : string) (d : payload) : res (option (Q * option Z)) :=
  if String.prefix ("/market/match:" ++ SYMBOL cfg) tp
  then match float_field (p_price d) (Ret 0) with
       | Ret price_ => Ret (Some (price_, p_time d))
       | Raise e => Raise e
       | Diverge => Diverge
       end
  else if String.prefix ("/market/ticker:" ++ SYMBOL cfg) tp
  then match float_field (p_bestAsk d) (float_field (p_price d) (Ret 0)) with
       | Ret price_ => Ret (Some (price_, p_time d))
       | Raise e => Raise e
       | Diverge => Diverge
       end
  else Ret None.

(** [filled["dealPrice"]], [filled["dealSize"]] *)
Definition deal_of (filled : order_info) : M (Q * Q) :=
  fp <- lift (float_field (o_dealPrice filled) (Raise KeyError)) ;;
  fs <- lift (float_field (o_dealSize filled) (Raise KeyError)) ;;
  ret (fp, fs).

(** The quantity of an entry: the cached quote balance over the reference
    price, quantised to the exponent of [Decimal(str(BASE_INCREMENT))]. *)
Definition entry_quantity (available price_dec : Q) : M Q :=
  q <- Decimal_div available price_dec ;;
  Decimal_quantize_down q (expo (Decimal_of_str (BASE_INCREMENT cfg))).

(** Lines 419-434: snapshot the balance, submit the BUY and, on a confirmed
    fill, open the position. *)
Definition place_buy (fuel : nat) (avail price_dec qty : Q) (ts : Z) : M unit :=
  modify (with_pos (set_DV_before_trade avail)) ;;
  logger INFO "BUY request" ;;
  r <- try_except
         (filled <- place_and_confirm_order fuel "buy" (Some price_dec)
                      (Num.py_round qty 8) ;;
          ret (Some filled))
         (fun _ => logger WARNING "BUY failed; continuing" ;; ret None) ;;
  match r with
  | None => ret tt
  | Some filled =>
      d <- deal_of filled ;;
      let fp := fst d in
      modify (with_pos (fun p =>
        set_exit_price (fp * PROFIT_TARGET_MULT cfg)
          (set_high_water (Some fp)
             (set_buy_time (Some ts) (set_BP fp (set_in_position true p)))))) ;;
      logger INFO "BUY FILLED"
  end.

(** The BUY block, lines 396-434. *)
Definition buy_branch (fuel : nat) (price_ : Q) (ts : Z) : M unit :=
  avail <- gets (fun s => available_quote (bal s)) ;;
  if Num.Qleb avail (1 # 100000000)
  then logger ERROR "no quote currency to BUY"
  else
    raw_p <- try_except
               (tk <- kc_get_ticker ;;
                bb <- lift (float_field (bestBid tk) (Raise KeyError)) ;;
                ret (bb * (1 + LIMIT_SLIPPAGE cfg)))
               (fun _ => ret price_) ;;
    price_dec <- floor_price_to_tick raw_p ;;
    qty <- entry_quantity avail price_dec ;;
    if Num.Qltb qty (BASE_MIN_SIZE cfg)
    then logger WARNING "qty < baseMin"
    else place_buy fuel avail price_dec qty ts.

(** The quantity of an exit, lines 445-448. *)
Definition exit_quantity (raw_q : Q) : M Q :=
  let inc := if Num.Qeqb (dval (BASE_INCREMENT cfg)) 0
             then 1 # 1000000 else dval (BASE_INCREMENT cfg) in
  if Num.Qltb inc 0 then raise ValueError
  else
    let prec := Z.max 0 (- Num.int_log10 inc) in
    ret (Num.py_round (inject_Z (Qfloor (raw_q / inc)) * inc) prec).

Definition record_sell (pnl_ : Q) (s : stats) : stats :=
  {| wins := (wins s + (if Num.Qleb 0 pnl_ then 1 else 0))%Z;
     losses := (losses s + (if Num.Qltb pnl_ 0 then 1 else 0))%Z;
     total_PnL := total_PnL s + pnl_;
     prediction_high := prediction_high s; prediction_low := prediction_low s |}.

(** Lines 452-480: submit the SELL and, on a confirmed fill, book the
    profit and close the position. *)
Definition place_sell (fuel : nat) (price_ qty : Q) (ts : Z) : M unit :=
  logger INFO "SELL request" ;;
  r <- try_except
         (filled <- place_and_confirm_order fuel "sell" (Some price_)
                      (Num.py_round qty 8) ;;
          ret (Some filled))
         (fun _ => logger WARNING "SELL failed; continuing" ;; ret None) ;;
  match r with
  | None => ret tt
  | Some filled =>
      d <- deal_of filled ;;
      DV_after <- get_available (QUOTE cfg) ;;
      before <- gets (fun s => DV_before_trade (pos s)) ;;
      let pnl_ := DV_after - before in
      modify (with_pos (set_in_position false)) ;;
      modify (with_sts (record_sell pnl_)) ;;
      logger INFO "SELL FILLED" ;;
      create_trade (Some "N/A") "filled" "sell" (SYMBOL cfg)
        (fst d) (snd d) ts (Some pnl_) ;;
      ret tt
  end.

(** Lines 445-480: what an exit trigger starts. *)
Definition exit_block (fuel : nat) (price_ : Q) (ts : Z) : M unit :=
  raw_q <- gets (fun s => available_base (bal s)) ;;
  qty <- exit_quantity raw_q ;;
  if Num.Qleb qty (BASE_MIN_SIZE cfg)
  then logger ERROR "not enough base currency to SELL"
  else place_sell fuel price_ qty ts.

(** The exit test of lines 441-443, on the mark already raised. *)
Definition exit_condition (price_ hw curH : Q) (ts : Z) : M bool :=
  if Num.Qleb price_ (hw * STOP_LOSS_MULT cfg) then ret true
  else if Num.Qltb curH 0 then ret true
  else
    bt <- gets (fun s => buy_time (pos s)) ;;
    match bt with
    | None => raise TypeError
    | Some t => ret (t + TIME_STOP_MINUTES cfg * NS_PER_MINUTE <? ts)%Z
    end.

(** The SELL block, lines 437-480. *)
Definition sell_branch (fuel : nat) (price_ curH : Q) (ts : Z) : M unit :=
  hw0 <- gets (fun s => high_water (pos s)) ;;
  match hw0 with
  | None => raise TypeError
  | Some h =>
      (if Num.Qltb h price_
       then modify (with_pos (set_high_water (Some price_)))
       else ret tt) ;;
      let hw := if Num.Qltb h price_ then price_ else h in
      fire <- exit_condition price_ hw curH ts ;;
      if fire then exit_block fuel price_ ts else ret tt
  end.

Definition set_predictions (h l : Q) (s : stats) : stats :=
  {| wins := wins s; losses := losses s; total_PnL := total_PnL s;
     prediction_high := Some h; prediction_low := Some l |}.

(** Lines 375-389: the forecast on the two latest closed bars, once the
    models are loaded and the window holds two bars. *)
Definition predict : M (option (Q * Q * Q)) :=
  ready <- gets models_ready ;;
  l <- gets minList ;;
  if andb ready (2 <=? List.length l)%nat
  then
    match rev l with
    | (_, b1) :: (_, b2) :: _ =>
        f1 <- fdiv (open b1) (open b2) ;;
        f2 <- fdiv (high b1) (open b1) ;;
        f3 <- fdiv (low b1) (open b1) ;;
        f4 <- fdiv (close b1) (open b1) ;;
        let feat := [f1; f2; f3; f4; volume b1 - volume b2] in
        let curH := minH_model w feat in
        let curL := minL_model w feat in
        modify (with_sts (set_predictions curH curL)) ;;
        hl_diff <- fdiv (high b1) (low b1) ;;
        logger INFO "PRED" ;;
        ret (Some (curH, curL, hl_diff))
    | _ => ret None
    end
  else ret None.

(** Lines 391-480: enter when flat and the signal allows it, otherwise
    manage the open position. *)
Definition decide (fuel : nat) (price_ : Q) (ts : Z) (sg : Q * Q * Q) : M unit :=
  let '(curH, curL, hl_diff) := sg in
  inpos <- gets (fun s => in_position (pos s)) ;;
  stop <- gets stop_requested ;;
  if andb (andb (negb inpos) (negb stop))
          (andb (Num.Qleb (HL_DIFF_THRESHOLD cfg) hl_diff)
                (andb (Num.Qleb 0 curH) (Num.Qltb 0 curL)))
  then buy_branch fuel price_ ts
  else if inpos then sell_branch fuel price_ curH ts
  else ret tt.

(** The evaluation on a closed bar, lines 375-480. *)
Definition evaluate (fuel : nat) (price_ : Q) (ts : Z) : M unit :=
  sg <- predict ;;
  match sg with
  | Some x => decide fuel price_ ts x
  | None => ret tt
  end.

Definition new_bar (m : Z) (price_ size : Q) : bar :=
  {| minute := m; open := price_; high := price_; low := price_;
     close := price_; volume := size |}.

Definition set_hlc (price_ : Q) (b : bar) : bar :=
  {| minute := minute b; open := open b;
     high := Num.py_max (high b) price_; low := Num.py_min (low b) price_;
     close := price_; volume := volume b |}.

Definition add_volume (size : Q) (b : bar) : bar :=
  {| minute := minute b; open := open b; high := high b; low := low b;
     close := close b; volume := volume b + size |}.

(** Step 1 of [handle]: refresh the two balances. *)
Definition update_balances : M unit :=
  aq <- get_available (QUOTE cfg) ;;
  modify (with_bal (fun b =>
    {| available_quote := aq; available_base := available_base b;
       _last_balance_fetch := _last_balance_fetch b;
       _balance_cache := _balance_cache b |})) ;;
  ab <- get_available (BASE cfg) ;;
  modify (with_bal (fun b =>
    {| available_quote := available_quote b; available_base := ab;
       _last_balance_fetch := _last_balance_fetch b;
       _balance_cache := _balance_cache b |})).

(** Step 3 of [handle]: close the bar of an earlier minute and evaluate, or
    fold the tick into the bar in progress. *)
Definition aggregate (fuel : nat) (d : payload) (price_ : Q) (ts : Z) : M unit :=
  let m := minute_of ts in
  cur <- gets current_bar ;;
  match cur with
  | None =>
      size <- lift (float_field (p_size d) (Ret 0)) ;;
      modify (with_bar (Some (new_bar m price_ size)))
  | Some b =>
      if (minute b <? m)%Z
      then
        modify (fun s => with_minList (deque_append (minute b, b) (minList s)) s) ;;
        evaluate fuel price_ ts ;;
        size <- lift (float_field (p_size d) (Ret 0)) ;;
        modify (with_bar (Some (new_bar m price_ size)))
      else
        modify (with_bar (Some (set_hlc price_ b))) ;;
        size <- lift (float_field (p_size d) (Ret 0)) ;;
        modify (with_bar (Some (add_volume size (set_hlc price_ b))))
  end.

Definition handle_body (fuel : nat) (msg : message) : M unit :=
  match data msg with
  | None => ret tt
  | Some d =>
      update_balances ;;
      pt <- lift (extract_price (topic msg) d) ;;
      match pt with
      | None => ret tt
      | Some (price_, ts_ns) =>
          match ts_ns with
          | None => raise TypeError
          | Some ts => aggregate fuel d price_ ts
          end
      end
  end.

(** [handle]: whatever is raised inside is logged and swallowed. *)
Definition handle (fuel : nat) (msg : message) : M unit :=
  try_except (handle_body fuel msg)
    (fun _ => logger ERROR "Exception in handle()").

(** *** Reconciliation *)

Fixpoint fetch_order_attempts (remaining attempt : nat) (max_retries : nat)
    (base_delay : Q) (oid : string) : M (option order_info) :=
  match remaining with
  | O => ret None
  | S r =>
      try_except
        (o <- kc_get_order (Some oid) ;; ret (Some o))
        (fun e =>
           match e with
           | KucoinAPIException _ =>
               logger WARNING "fetch_order attempt failed" ;;
               if Nat.eqb attempt max_retries
               then logger ERROR "Giving up on fetching order" ;; raise e
               else sleep (base_delay * inject_Z (2 ^ (Z.of_nat attempt - 1))) ;;
                    fetch_order_attempts r (S attempt) max_retries base_delay oid
           | _ => raise e
           end)
  end.

Definition fetch_order_with_retry (oid : string) : M (option order_info) :=
  fetch_order_attempts 3 1 3 (1 # 2) oid.

(** The operation type of an inactive order as a ledger status. *)
Definition map_op_type (op_type : string) : string :=
  if String.eqb op_type "deal" then "filled"
  else if String.eqb op_type "cancel" then "canceled"
  else "open".

(** Lines 573-581: a BUY that has just filled restores the position. *)
Definition restore_position (t : Trade) : M unit :=
  modify (with_pos (fun p =>
    set_exit_price (price t * PROFIT_TARGET_MULT cfg)
      (set_high_water (Some (price t))
         (set_buy_time (Some (timestamp t))
            (set_BP (price t) (set_in_position true p)))))) ;;
  dv <- get_available (QUOTE cfg) ;;
  modify (with_pos (set_DV_before_trade dv)) ;;
  logger INFO "Restored in-position".

(** The body of [for t in pending]; the result tells whether the row was
    updated. *)
Definition sync_one (t : Trade) : M bool :=
  r <- try_except
         (data_ <- fetch_order_with_retry (order_id t) ;;
          match data_ with
          | None => raise AttributeError
          | Some d =>
              logger INFO "Order id's response" ;;
              ret (Some (Str.lower (Str.or_empty (o_opType d)),
                         match o_isActive d with Some b => b | None => true end))
          end)
         (fun _ => logger WARNING "Could not fetch order" ;; ret None) ;;
  match r with
  | None => ret false
  | Some (op_type, is_active) =>
      if is_active : bool then ret false
      else
        let real_status := map_op_type op_type in
        if negb (String.eqb real_status (status t))
        then
          logger INFO "update order status" ;;
          update_trade_status (Some (order_id t)) real_status ;;
          (if andb (String.eqb (Str.lower (type t)) "buy")
                   (String.eqb real_status "filled")
           then restore_position t else ret tt) ;;
          ret true
        else ret false
  end.

Fixpoint sync_loop (pending : list Trade) (updated : nat) : M nat :=
  match pending with
  | [] => ret updated
  | t :: rest =>
      u <- sync_one t ;;
      sync_loop rest (if u : bool then S updated else updated)
  end.

Definition sync_open_trades : M unit :=
  pending <- gets (fun s => pending_trades (ledger s)) ;;
  logger INFO "sync_open_trades: found trade(s) to sync" ;;
  sync_loop pending 0 ;;
  logger INFO "sync_open_trades complete".

End Engine.

(** The feed callback is run once per message, in order of arrival. *)
Fixpoint run_handle (cfg : config) (w : world) (fuel : nat)
    (msgs : list message) (s : state) : state :=
  match msgs with
  | [] => s
  | m :: r => run_handle cfg w fuel r (snd (handle cfg w fuel m s))
  end.

(** A message that [handle] reads as a tick of price [p] and size [z] at an
    instant of the minute [m]. *)
Definition tick_in_minute (cfg : config) (m : Z) (msg : message) (p z : Q) : Prop :=
  exists d ts,
    data msg = Some d /\
    extract_price cfg (topic msg) d = Ret (Some (p, Some ts)) /\
    float_field (p_size d) (Ret 0) = Ret z /\
    minute_of ts = m.

(** What two states share when only the balance cache, the oracle counters
    and the log may differ. *)
Definition frame (s s' : state) : Prop :=
  pos s' = pos s /\ current_bar s' = current_bar s /\
  minList s' = minList s /\ sts s' = sts s /\ ledger s' = ledger s /\
  stop_requested s' = stop_requested s /\ models_ready s' = models_ready s /\
  requests (ext s') = requests (ext s) /\ sleeps (ext s') = sleeps (ext s).

(** Bars as a fold of the in-progress update over (price, size) pairs. *)
Definition fold_ticks (obs : list (Q * Q)) (b : bar) : bar :=
  fold_left (fun b o => add_volume (snd o) (set_hlc (fst o) b)) obs b.

(** Numerical equality of two bars. *)
Definition bar_eq (b b' : bar) : Prop :=
  minute b = minute b' /\ open b == open b' /\ high b == high b' /\
  low b == low b' /\ close b == close b' /\ volume b == volume b'.

(** [c] keeps [I], whatever its outcome. *)
Definition inv {A} (I : state -> Prop) (c : M A) : Prop :=
  forall s, I s -> I (snd (c s)).

(** What the evaluation leaves alone before it enters the BUY or the SELL
    block. *)
Definition before_order (s s1 : state) : Prop :=
  pos s1 = pos s /\ bal s1 = bal s /\ ledger s1 = ledger s /\
  stop_requested s1 = stop_requested s /\
  requests (ext s1) = requests (ext s) /\ sleeps (ext s1) = sleeps (ext s).

(** From a state of [P], [c] ends in a state of [Q], whatever its outcome. *)
Definition hoare {A} (P : state -> Prop) (c : M A) (Q : state -> Prop) : Prop :=
  forall s, P s -> Q (snd (c s)).

(** The position is open before each of the cycles that [msgs] start. *)
Fixpoint stays_long (cfg : config) (w : world) (fuel : nat)
    (msgs : list message) (s : state) : Prop :=
  match msgs with
  | [] => True
  | m :: r =>
      in_position (pos s) = true /\
      stays_long cfg w fuel r (snd (handle cfg w fuel m s))
  end.

(** [c] does not look at what the state update [u] changes: running it after
    [u] gives the same outcome and the state that [u] would give after it. *)
Definition commutes {A} (u : state -> state) (c : M A) : Prop :=
  forall s, c (u s) = (fst (c s), u (snd (c s))).

(** The same from the states of [P] only. *)
Definition commutes_from {A} (P : state -> Prop) (u : state -> state) (c : M A) : Prop :=
  forall s, P s -> c (u s) = (fst (c s), u (snd (c s))).

(** Overwriting the stored profit target. *)
Definition retarget (e : Q) : state -> state := with_pos (set_exit_price e).

(** The three exit tests of lines 441-443 on the mark [hw]. *)
Definition exit_tests (cfg : config) (price_ hw curH : Q) (bt ts : Z) : Prop :=
  price_ <= hw * STOP_LOSS_MULT cfg \/ curH < 0 \/
  (bt + TIME_STOP_MINUTES cfg * NS_PER_MINUTE < ts)%Z.

(** The state after the mark has been raised to the price of the cycle. *)
Definition raise_mark (h price_ : Q) (s : state) : state :=
  if Num.Qltb h price_ then with_pos (set_high_water (Some price_)) s else s.

(** The exchange answers the polls of an order, counted from the [n]-th
    call of [get_order], with the order [d], at once or after one or two
    API errors: within the three attempts of [fetch_order_with_retry]. *)
Definition exchange_reports (w : world) (n : nat) (d : order_info) : Prop :=
  exists k, (k < 3)%nat /\
    (forall j, (j < k)%nat ->
       exists msg, get_order w (n + j) = Fails (KucoinAPIException msg)) /\
    get_order w (n + k) = Reply d.

(** States that differ in the oracle counters, the requests, the sleeps and
    the log only. *)
Definition same_engine (s s' : state) : Prop :=
  pos s' = pos s /\ current_bar s' = current_bar s /\
  minList s' = minList s /\ bal s' = bal s /\ sts s' = sts s /\
  ledger s' = ledger s /\ stop_requested s' = stop_requested s /\
  models_ready s' = models_ready s.

(** The log line of a failed submission attempt. *)
Definition failed_attempt (x : level * string) : bool :=
  match fst x with
  | ERROR => String.eqb (snd x) "order attempt failed"
  | _ => false
  end.

(** Failed submission attempts logged so far. *)
Definition failed_attempts (s : state) : nat :=
  List.length (filter failed_attempt (log (ext s))).

(** From a state of [I], [c] ends (it returns or raises) in a state of [I]. *)
Definition ends_in {A} (I : state -> Prop) (c : M A) : Prop :=
  forall s, I s -> fst (c s) <> Diverge /\ I (snd (c s)).

(** What the engine has slept and logged as failed attempts so far. *)
Definition trace_is (sl : list Q) (n : nat) (s : state) : Prop :=
  sleeps (ext s) = sl /\ failed_attempts s = n.

(** The first [k] delays of a backoff that starts at [delay] and doubles. *)
Fixpoint backoff (delay : Q) (k : nat) : list Q :=
  match k with
  | O => []
  | S k' => delay :: backoff (delay * 2) k'
  end.

(** The state in which [place_buy] and [place_sell] call the pipeline. *)
Definition at_buy_call (avail : Q) (s : state) : state :=
  with_ext (add_log INFO "BUY request") (with_pos (set_DV_before_trade avail) s).

Definition at_sell_call (s : state) : state :=
  with_ext (add_log INFO "SELL request") s.

(** The state after [k] passes of the confirmation loop that all ask for
    another pass (the order is not indexed yet, or it is active and the
    time is not up); [None] when one of them ends the loop. *)
Fixpoint after_polls (w : world) (oid : option string) (start_time : Z)
    (k : nat) (s : state) : option state :=
  match k with
  | O => Some s
  | S k' =>
      match confirm_pass w oid start_time s with
      | (Ret Again, s1) => after_polls w oid start_time k' s1
      | _ => None
      end
  end.

(** The failure raised on a confirmation timeout. *)
Definition timeout_error (oid : option string) : exn :=
  RuntimeError ("Order " ++ show_oid oid ++ " canceled after timeout").

(** The operations that write a status into the ledger. *)
Inductive operation :=
| StatusUpdate (oid : option string) (new_status : string)
| ConfirmationPolling (fuel : nat) (oid : option string) (start_time : Z)
| Reconciliation.

Definition perform (cfg : config) (w : world) (op : operation) (s : state) : state :=
  match op with
  | StatusUpdate oid new_status => snd (update_trade_status oid new_status s)
  | ConfirmationPolling fuel oid start_time =>
      snd (confirm_loop w fuel oid start_time s)
  | Reconciliation => snd (sync_open_trades cfg w s)
  end.

(** The order ids whose rows an operation may rewrite. *)
Definition targets (op : operation) (s : state) (oid : string) : Prop :=
  match op with
  | StatusUpdate o _ => o = Some oid
  | ConfirmationPolling _ o _ => o = Some oid
  | Reconciliation => exists p, In p (pending_trades (ledger s)) /\ order_id p = oid
  end.

(** Every row that is final in [s] has the same status in [s']. *)
Definition final_rows_kept (s s' : state) : Prop :=
  forall i t,
    nth_error (ledger s) i = Some t ->
    is_final (status t) = true ->
    exists t', nth_error (ledger s') i = Some t' /\ status t' = status t.

(** In position with the mark at [h]. *)
Definition long_at (h : Q) (s : state) : Prop :=
  in_position (pos s) = true /\ high_water (pos s) = Some h.

(** The mark is still [h], or the price [p] of the cycle has raised it. *)
Definition marked (h p : Q) (s : state) : Prop :=
  high_water (pos s) = Some h \/ (h < p /\ high_water (pos s) = Some p).

(** The position is open. *)
Definition in_pos (s : state) : Prop := in_position (pos s) = true.

(** The row [t] sits at index [i] of the ledger. *)
Definition row_is (i : nat) (t : Trade) (s : state) : Prop :=
  nth_error (ledger s) i = Some t.

(** The price [handle] reads in a message, if it reads one. *)
Definition observed_price (cfg : config) (msg : message) : option Q :=
  match data msg with
  | Some d =>
      match extract_price cfg (topic msg) d with
      | Ret (Some (p, _)) => Some p
      | _ => None
      end
  | None => None
  end.

(* ------------------------------------------------------------------ *)
(** ** Concrete configurations, worlds and states *)
(* ------------------------------------------------------------------ *)

Module Scenario.

(** KCS-USDT with the default strategy parameters of [app/config.py]. *)
Definition kcs_usdt : config :=
  {| BASE := "KCS"; QUOTE := "USDT"; HL_DIFF_THRESHOLD := 2 # 1000;
     PROFIT_TARGET_MULT := 1001 # 1000; STOP_LOSS_MULT := 99 # 100;
     TIME_STOP_MINUTES := 45; ORDER_TYPE := "market"; LIMIT_SLIPPAGE := 2 # 10;
     BASE_MIN_SIZE := 1 # 10; BASE_INCREMENT := {| coef := 1; expo := -4 |};
     PRICE_INCREMENT := {| coef := 1; expo := -3 |} |}.

Definition order (oid : string) (st : option string) (active : option bool)
    (op : option string) : order_info :=
  {| o_orderId := Some oid; o_id := None; o_status := st; o_isActive := active;
     o_opType := op; o_dealPrice := Num_ 10; o_dealSize := Num_ 9 |}.

Definition accounts (quote_ base_ : Q) : list account :=
  [ {| a_currency := Some "USDT"; a_type := Some "trade"; a_available := Num_ quote_ |};
    {| a_currency := Some "KCS"; a_type := Some "trade"; a_available := Num_ base_ |} ].

(** One clock reading per second; every exchange call answers; orders are
    accepted as open and reported filled at the first poll. *)
Definition calm : world :=
  {| clock := fun n => (Z.of_nat n * NS_PER_SECOND)%Z;
     get_accounts := fun _ => Reply (accounts 100 (1 # 10));
     get_ticker := fun _ => Reply {| bestBid := Num_ 10; bestAsk := Num_ (101 # 10) |};
     create_order := fun _ => Reply (order "A1" None None None);
     get_order := fun _ => Reply (order "A1" (Some "done") (Some false) (Some "DEAL"));
     cancel_order := fun _ => Reply tt;
     minH_model := fun _ => 3 # 2;
     minL_model := fun _ => 1 # 2 |}.

Definition flat : position :=
  {| in_position := false; BP := 0; buy_time := None; high_water := None;
     exit_price := 0; DV_before_trade := 0 |}.

Definition quiet : io :=
  {| n_clock := 0; n_accounts := 0; n_ticker := 0; n_create := 0;
     n_get_order := 0; n_cancel := 0; requests := []; sleeps := []; log := [] |}.

(** The module-level initial values of [app/algo.py], models loaded. *)
Definition initial : state :=
  {| pos := flat; current_bar := None; minList := [];
     bal := {| available_quote := 0; available_base := 0;
               _last_balance_fetch := None; _balance_cache := [] |};
     sts := {| wins := 0; losses := 0; total_PnL := 0;
               prediction_high := None; prediction_low := None |};
     ledger := []; ext := quiet; stop_requested := false; models_ready := true |}.

(** A trade match of [sz] units at price [p], stamped [t] nanoseconds. *)
Definition match_tick (p : Q) (t : Z) (sz : Q) : message :=
  {| topic := "/market/match:KCS-USDT";
     data := Some {| p_price := Num_ p; p_bestAsk := Missing;
                     p_time := Some t; p_size := Num_ sz |} |}.

(** A bar in progress in the first minute. *)
Definition bar0 : bar :=
  {| minute := 0; open := 10; high := 11; low := 9; close := 10; volume := 2 |}.

Definition in_bar0 : state := with_bar (Some bar0) initial.

(** In position since minute 0 at 10, two closed bars in the window. *)
Definition long : position :=
  {| in_position := true; BP := 10; buy_time := Some 0%Z; high_water := Some 10;
     exit_price := 10010 # 1000; DV_before_trade := 100 |}.

Definition holding : state :=
  with_minList [((- NS_PER_MINUTE)%Z, bar0); (0%Z, bar0)]
    (with_bar (Some (new_bar NS_PER_MINUTE 10 1))
       (with_pos (fun _ => long) initial)).

(** A BUY recorded as open before a restart, and the state after it. *)
Definition open_buy : Trade :=
  {| trade_id := 1; order_id := "A1"; status := "open"; type := "buy";
     symbol := "KCS-USDT"; price := 10; quantity := 9;
     timestamp := 5 * NS_PER_SECOND; pnl := None |}.

Definition restarted : state := with_ledger (fun _ => [open_buy]) initial.

(** An exchange that accepts orders, keeps reporting them active and
    refuses to cancel them; the clock advances 100 seconds per reading. *)
Definition stuck : world :=
  {| clock := fun n => (Z.of_nat n * 100 * NS_PER_SECOND)%Z;
     get_accounts := fun _ => Reply (accounts 100 (1 # 10));
     get_ticker := fun _ => Reply {| bestBid := Num_ 10; bestAsk := Num_ (101 # 10) |};
     create_order := fun _ => Reply (order "A1" None None None);
     get_order := fun _ => Reply (order "A1" None (Some true) None);
     cancel_order := fun _ => Fails (KucoinAPIException "order cannot be canceled");
     minH_model := fun _ => 3 # 2;
     minL_model := fun _ => 1 # 2 |}.

(** The same exchange when it accepts the cancel request. *)
Definition slow : world :=
  {| clock := clock stuck; get_accounts := get_accounts stuck;
     get_ticker := get_ticker stuck; create_order := create_order stuck;
     get_order := get_order stuck; cancel_order := fun _ => Reply tt;
     minH_model := minH_model stuck; minL_model := minL_model stuck |}.

(** An exchange that refuses every order. *)
Definition refusing : world :=
  {| clock := clock calm; get_accounts := get_accounts calm;
     get_ticker := get_ticker calm;
     create_order := fun _ => Fails (KucoinAPIException "Balance insufficient");
     get_order := get_order calm; cancel_order := cancel_order calm;
     minH_model := minH_model calm; minL_model := minL_model calm |}.

(** The exchange as KuCoin answers: an order dictionary has no "status". *)
Definition terse : world :=
  {| clock := clock calm; get_accounts := get_accounts calm;
     get_ticker := get_ticker calm; create_order := create_order calm;
     get_order := fun _ => Reply (order "A1" None (Some false) (Some "DEAL"));
     cancel_order := cancel_order calm;
     minH_model := minH_model calm; minL_model := minL_model calm |}.

(** The ledger once reconciliation has marked the BUY filled. *)
Definition reconciled : state :=
  with_ledger (fun _ => [set_status "filled" open_buy]) initial.

(** A ledger with a booked SELL and a pending BUY. *)
Definition sold : Trade :=
  {| trade_id := 1; order_id := "N/A"; status := "filled"; type := "sell";
     symbol := "KCS-USDT"; price := 11; quantity := 9;
     timestamp := 2 * NS_PER_SECOND; pnl := Some 9 |}.

Definition mixed : state := with_ledger (fun _ => [sold; open_buy]) initial.

(** A symbol traded in whole units: the exchange gives baseIncrement "1"
    and baseMinSize "1"; the other settings are the defaults. *)
Definition whole_units : config :=
  {| BASE := "KCS"; QUOTE := "USDT"; HL_DIFF_THRESHOLD := 2 # 1000;
     PROFIT_TARGET_MULT := 1001 # 1000; STOP_LOSS_MULT := 99 # 100;
     TIME_STOP_MINUTES := 45; ORDER_TYPE := "market"; LIMIT_SLIPPAGE := 2 # 10;
     BASE_MIN_SIZE := 1; BASE_INCREMENT := {| coef := 1; expo := 0 |};
     PRICE_INCREMENT := {| coef := 1; expo := -3 |} |}.

(** Ticks of three minutes: two bars close, the second with a high/low
    ratio above the threshold. *)
Definition three_minutes : list message :=
  [ match_tick 10 0 1; match_tick (1003 # 100) 1 2;
    match_tick (1001 # 100) NS_PER_MINUTE 1;
    match_tick 10 (2 * NS_PER_MINUTE) 1 ].

End Scenario.

(* ------------------------------------------------------------------ *)
(** ** The readers of the ledger: [app/db.py] *)
(* ------------------------------------------------------------------ *)

(** The table is the list of its rows in the order of insertion, which is
    the order in which a query without ORDER BY reads it. *)

(** [get_trade]: the first row with the primary key [id]. *)
Definition get_trade (id : Z) (rows : list Trade) : option Trade :=
  find (fun t => (trade_id t =? id)%Z) rows.

(** [.offset(skip).limit(limit)] as SQLite reads them: a negative offset is
    no offset, a negative limit is no limit. *)
Definition offset_limit {A} (skip limit : Z) (rows : list A) : list A :=
  let r := skipn (Z.to_nat skip) rows in
  if (limit <? 0)%Z then r else firstn (Z.to_nat limit) r.

Definition list_trades (skip limit : Z) (rows : list Trade) : list Trade :=
  offset_limit skip limit rows.

Definition list_trades_by_symbol (sym : string) (skip limit : Z)
    (rows : list Trade) : list Trade :=
  offset_limit skip limit (filter (fun t => String.eqb (symbol t) sym) rows).

(** The first row of [ORDER BY timestamp DESC]: a row of the greatest
    timestamp.  SQL leaves the order of equal timestamps open; the scan
    keeps the earliest such row. *)
Fixpoint latest (rows : list Trade) (best : option Trade) : option Trade :=
  match rows with
  | [] => best
  | t :: r =>
      latest r (match best with
                | None => Some t
                | Some b => if (timestamp b <? timestamp t)%Z then Some t else Some b
                end)
  end.

Definition get_last_trade_by_symbol (sym : string) (rows : list Trade)
  : option Trade :=
  latest (filter (fun t => String.eqb (symbol t) sym) rows) None.

(** A row without its status: what no operation of the engine rewrites. *)
Definition unstatus (t : Trade) : Trade := set_status "" t.

(* ------------------------------------------------------------------ *)
(** ** The status endpoint: [app/algoapis.py] *)
(* ------------------------------------------------------------------ *)

(** [t.pnl or 0] *)
Definition pnl_or_0 (t : Trade) : Q :=
  match pnl t with Some p => p | None => 0 end.

Definition is_sell (t : Trade) : bool := String.eqb (Str.lower (type t)) "sell".

(** The answer of [GET /algo/status]. *)
Record status_report := {
  r_running : bool; r_trades_taken : nat; r_net_PnL : Q;
  r_wins : nat; r_losses : nat;
  r_prediction_high : option Q; r_prediction_low : option Q }.

Definition algo_status (cfg : config) (running : bool) (s : state) : status_report :=
  let all_trades := list_trades_by_symbol (SYMBOL cfg) 0 10000 (ledger s) in
  let sells := filter is_sell all_trades in
  {| r_running := running;
     r_trades_taken := List.length sells;
     r_net_PnL := fold_left (fun acc t => acc + pnl_or_0 t) sells 0;
     r_wins := List.length (filter (fun t => Num.Qleb 0 (pnl_or_0 t)) sells);
     r_losses := List.length (filter (fun t => Num.Qltb (pnl_or_0 t) 0) sells);
     r_prediction_high := prediction_high (sts s);
     r_prediction_low := prediction_low (sts s) |}.

(** The rows [_save_trades] writes to [live_trades.csv]: price, time and
    profit of every SELL row. *)
Definition _save_trades (cfg : config) (s : state) : list (Q * Z * Q) :=
  map (fun t => (price t, timestamp t, pnl_or_0 t))
      (filter is_sell (list_trades_by_symbol (SYMBOL cfg) 0 10000 (ledger s))).

(* ------------------------------------------------------------------ *)
(** ** Polling endpoint: [app/kc.py] *)
(* ------------------------------------------------------------------ *)

(** What an endpoint answers: a body, or the status code of the
    [HTTPException] it raises. *)
Inductive http (A : Type) := Body (a : A) | HTTPException (code : Z).
Arguments Body {A} a.
Arguments HTTPException {A} code.

(** The two bodies of [POST /kc/order/poll]: ["filled": True], and
    ["filled": False] with the message "timeout". *)
Inductive poll_answer := PollFilled | PollTimeout.

(** The [for i in range(30)] loop with [remaining] iterations left. *)
Fixpoint poll_checks (w : world) (remaining : nat) (oid : string) : M poll_answer :=
  match remaining with
  | O => logger WARNING "Order not filled after timeout" ;; ret PollTimeout
  | S r =>
      info <- kc_get_order w (Some oid) ;;
      if negb (match o_isActive info with Some b => b | None => true end)
      then logger INFO "Order filled after checks" ;; ret PollFilled
      else sleep 1 ;; poll_checks w r oid
  end.

Definition poll_order (w : world) (oid : string) : M (http poll_answer) :=
  logger INFO "POST /kc/order/poll called" ;;
  try_except
    (a <- poll_checks w 30 oid ;; ret (Body a))
    (fun _ => logger ERROR "Error polling order" ;; ret (HTTPException 500)).

(* ------------------------------------------------------------------ *)
(** ** Masking of secrets: [app/main.py] *)
(* ------------------------------------------------------------------ *)

(** ["*" * n] *)
Fixpoint stars (n : nat) : string :=
  match n with
  | O => EmptyString
  | S k => String "*" (stars k)
  end.

(** [mask_value] on a string value. *)
Definition mask_value (value : string) : string :=
  let n := String.length value in
  if (n <=? 6)%nat then stars n
  else substring 0 3 value ++ stars (n - 6) ++ substring (n - 3) 3 value.

(* ------------------------------------------------------------------ *)
(** ** Vocabulary of the further properties *)
(* ------------------------------------------------------------------ *)

(** The polls of an order from the [n]-th call of [get_order] on: the first
    [k] answers report it active (an answer without "isActive" counts as
    active for the polling endpoint). *)
Definition polls_active (w : world) (n k : nat) : Prop :=
  forall j, (j < k)%nat ->
    exists d, get_order w (n + j) = Reply d /\ o_isActive d <> Some false.

(** The state after [k] polls that found the order active, each followed
    by a sleep of one second. *)
Fixpoint after_active_polls (k : nat) (s : state) : state :=
  match k with
  | O => s
  | S k' => after_active_polls k' (with_ext (add_sleep 1) (with_ext (bump 4) s))
  end.

(** The position a confirmed BUY opens: entry price and mark [fp], entry
    time [ts], profit target [e]. *)
Definition open_position (fp : Q) (ts : Z) (e : Q) (p : position) : position :=
  set_exit_price e
    (set_high_water (Some fp)
       (set_buy_time (Some ts) (set_BP fp (set_in_position true p)))).

(** The elementary state updates of the engine, by kind. *)
Inductive kind :=
| Counter (which : nat)
| Logged | Slept
| Sent (r : request)
| Balances
| Appended | StatusSet
| Snapshot | Opened | Marked | Closed
| Stats
| BarOpened | BarFolded | Window.

Inductive touch : kind -> state -> state -> Prop :=
| touch_counter k s : touch (Counter k) s (with_ext (bump k) s)
| touch_log l m s : touch Logged s (with_ext (add_log l m) s)
| touch_sleep d s : touch Slept s (with_ext (add_sleep d) s)
| touch_sent r s : touch (Sent r) s (with_ext (add_request r) s)
| touch_bal f s : touch Balances s (with_bal f s)
| touch_append t s :
    trade_id t = next_id (ledger s) ->
    touch Appended s (with_ledger (fun l => (l ++ [t])%list) s)
| touch_status o st u l' s :
    update_first o st (ledger s) = Some (u, l') ->
    touch StatusSet s (with_ledger (fun _ => l') s)
| touch_snapshot v s : touch Snapshot s (with_pos (set_DV_before_trade v) s)
| touch_open fp ts e s : touch Opened s (with_pos (open_position fp ts e) s)
| touch_mark p s : touch Marked s (with_pos (set_high_water (Some p)) s)
| touch_close s : touch Closed s (with_pos (set_in_position false) s)
| touch_stats f s : touch Stats s (with_sts f s)
| touch_bar_open m p z s :
    match current_bar s with Some b => (minute b < m)%Z | None => True end ->
    touch BarOpened s (with_bar (Some (new_bar m p z)) s)
| touch_bar_price p b s :
    current_bar s = Some b ->
    touch BarFolded s (with_bar (Some (set_hlc p b)) s)
| touch_bar_volume z b s :
    current_bar s = Some b ->
    touch BarFolded s (with_bar (Some (add_volume z b)) s)
| touch_window x s :
    touch Window s (with_minList (deque_append x (minList s)) s).

(** [s'] is reached from [s] by updates of the kinds in [fp]. *)
Inductive moves (fp : kind -> Prop) (s : state) : state -> Prop :=
| moves_refl : moves fp s s
| moves_step k s1 s2 :
    moves fp s s1 -> fp k -> touch k s1 s2 -> moves fp s s2.

(** A request that is an order of the given side, or a cancellation. *)
Definition order_of (side : string) (r : request) : Prop :=
  match r with
  | CreateLimitOrder sd _ _ => sd = side
  | CreateMarketOrder sd _ => sd = side
  | CancelOrder _ => True
  end.

(** Footprints: the kinds of update a part of the engine may make.  The
    counters are 0 for the clock, 1 for the accounts, 2 for the ticker, 3
    for order creation, 4 for order queries and 5 for cancellation. *)
Definition reads_balance (k : kind) : Prop :=
  match k with
  | Counter n => In n [0; 1]%nat
  | Logged | Balances => True
  | _ => False
  end.

Definition pipeline (side : string) (k : kind) : Prop :=
  match k with
  | Counter n => In n [0; 2; 3; 4; 5]%nat
  | Logged | Slept | Appended | StatusSet => True
  | Sent r => order_of side r
  | _ => False
  end.

Definition enters (k : kind) : Prop :=
  match k with
  | Counter n => In n [0; 2; 3; 4; 5]%nat
  | Logged | Slept | Appended | StatusSet | Snapshot | Opened => True
  | Sent r => order_of "buy" r
  | _ => False
  end.

Definition exits (k : kind) : Prop :=
  match k with
  | Counter n => In n [0; 1; 2; 3; 4; 5]%nat
  | Logged | Slept | Appended | StatusSet | Balances
  | Marked | Closed | Stats => True
  | Sent r => order_of "sell" r
  | _ => False
  end.

Definition evaluates (k : kind) : Prop :=
  match k with
  | BarOpened | BarFolded | Window => False
  | Sent r => order_of "buy" r \/ order_of "sell" r
  | _ => True
  end.

Definition handles (k : kind) : Prop :=
  match k with
  | Sent r => order_of "buy" r \/ order_of "sell" r
  | _ => True
  end.

Definition reconciles (k : kind) : Prop :=
  match k with
  | Counter n => In n [0; 1; 4]%nat
  | Logged | Slept | Balances | StatusSet | Snapshot | Opened => True
  | _ => False
  end.

(** Every row of [l] is still in its place in [l'], with at most its status
    changed. *)
Definition rows_kept (l l' : list Trade) : Prop :=
  forall i t, nth_error l i = Some t ->
    exists t', nth_error l' i = Some t' /\ unstatus t' = unstatus t.

(** A bar whose open and close lie between its low and its high. *)
Definition bar_ok (b : bar) : Prop :=
  low b <= open b /\ open b <= high b /\ low b <= close b /\ close b <= high b.

(** The requests sent between two states all satisfy [P]. *)
Definition sent_since (P : request -> Prop) (s s' : state) : Prop :=
  exists added,
    requests (ext s') = (requests (ext s) ++ added)%list /\ Forall P added.

(** [c] returns from every state: it neither raises nor runs forever. *)
Definition returns {A} (c : M A) : Prop :=
  forall s, exists a, fst (c s) = Ret a.

(** [c] ends from every state: it returns or raises. *)
Definition halts {A} (c : M A) : Prop :=
  forall s, fst (c s) <> Diverge.

(** The engine cannot trade: the models are not loaded, or it is flat in
    sell-only mode. *)
Definition idle (s : state) : Prop :=
  models_ready s = false \/
  (stop_requested s = true /\ in_position (pos s) = false).

(** Nothing of the trading state differs between [s] and [s']: position,
    ledger, requests sent and the two flags. *)
Definition untraded (s s' : state) : Prop :=
  pos s' = pos s /\ ledger s' = ledger s /\
  requests (ext s') = requests (ext s) /\
  stop_requested s' = stop_requested s /\ models_ready s' = models_ready s.

(** The initial state once sell-only mode has been requested. *)
Definition case_closing : state :=
  {| pos := Scenario.flat; current_bar := None; minList := [];
     bal := bal Scenario.initial; sts := sts Scenario.initial;
     ledger := []; ext := Scenario.quiet;
     stop_requested := true; models_ready := true |}.

(** The row that a successful submission of [size] units at the reference
    price [pr] records for the order [o], in a ledger that held [l]. *)
Definition recorded (cfg : config) (side : string) (pr : option Q) (size : Q)
    (o : order_info) (l : list Trade) (t : Trade) : Prop :=
  trade_id t = next_id l /\
  Some (order_id t) = Str.or_else (o_orderId o) (o_id o) /\
  status t = map_status (Str.lower (Str.or_empty (o_status o))) /\
  type t = side /\ symbol t = SYMBOL cfg /\
  price t = match pr with Some p => p | None => 0 end /\
  quantity t = size /\ pnl t = None.

(** The exchange does not know an order yet: every query from the [n]-th
    on fails with an API error that says the order does not exist. *)
Definition unindexed (w : world) (n : nat) : Prop :=
  forall j, (n <= j)%nat ->
    exists msg, get_order w j = Fails (KucoinAPIException msg) /\
                Str.contains "does not exist" (Str.lower msg) = true.

(** The first [k] queries of an order from the [n]-th on fail with an API
    error. *)
Definition api_failures (w : world) (n k : nat) : Prop :=
  forall j, (j < k)%nat ->
    exists msg, get_order w (n + j) = Fails (KucoinAPIException msg).

(** An exchange that never indexes the orders it accepts. *)
Definition case_unindexed : world :=
  {| clock := clock Scenario.calm; get_accounts := get_accounts Scenario.calm;
     get_ticker := get_ticker Scenario.calm;
     create_order := create_order Scenario.calm;
     get_order := fun _ => Fails (KucoinAPIException "Order does not exist");
     cancel_order := cancel_order Scenario.calm;
     minH_model := minH_model Scenario.calm;
     minL_model := minL_model Scenario.calm |}.

(** The pauses between the three attempts of [fetch_order_with_retry]:
    [base_delay * 2 ** (attempt - 1)] after the first and the second. *)
Definition fetch_backoff : list Q :=
  map (fun attempt => (1 # 2) * inject_Z (2 ^ (Z.of_nat attempt - 1))) [1; 2]%nat.

(** The amount an entry of the accounts list gives for [currency]: entries of
    another currency or of another account type, and entries whose amount
    does not parse, give none. *)
Definition credited (currency : string) (a : account) : option Q :=
  match a_currency a with
  | Some cur =>
      if andb (String.eqb cur currency)
              (andb (negb (String.eqb cur ""))
                    (String.eqb (Str.or_empty (a_type a)) "trade"))
      then match a_available a with
           | Num_ q => Some q
           | Missing => Some 0
           | Bad => None
           end
      else None
  | None => None
  end.

(** The test of [get_available] on the age of the cache at the instant
    [now]. *)
Definition stale (now : Z) (s : state) : bool :=
  match _last_balance_fetch (bal s) with
  | None => true
  | Some l => (BALANCE_CACHE_TTL <? now - l)%Z
  end.

(** What an accounts list says of [currency]: [q] stands in the last entry
    that counts for it, and nothing when no entry counts. *)
Definition holds_balance (currency : string) (accts : list account) (v : Q) : Prop :=
  ((forall a, In a accts -> credited currency a = None) /\ v = 0) \/
  (exists l1 a l2, accts = (l1 ++ a :: l2)%list /\ credited currency a = Some v /\
                   forall a', In a' l2 -> credited currency a' = None).

(** The value a currency has after the entries of [accts] are written, in
    their order, over a cache where it had [v]. *)
Definition overwritten (currency : string) (accts : list account) (v : Q) : Q :=
  fold_left (fun v a => match credited currency a with Some q => q | None => v end)
    accts v.

(** A bar in progress that opened at price 0 (a tick without price is read
    as price 0) while the models are loaded and the window holds a bar. *)
Definition zero_open (b : bar) (s : state) : Prop :=
  models_ready s = true /\ minList s <> [] /\
  current_bar s = Some b /\ open b == 0.

(** A window with one closed bar and a bar in progress that a tick without
    price opened. *)
Definition case_zero_open : state :=
  with_minList [((- NS_PER_MINUTE)%Z, Scenario.bar0)]
    (with_bar (Some (new_bar 0 0 1)) Scenario.initial).

(** The footprint of the confirmation loop: the clock, order queries and
    cancellations, the log, sleeps and status updates. *)
Definition confirms (k : kind) : Prop :=
  match k with
  | Counter n => In n [0; 4; 5]%nat
  | Logged | Slept | StatusSet => True
  | Sent (CancelOrder _) => True
  | _ => False
  end.

(** The position was open before a cycle and is closed after it: the
    cycle booked a SELL. *)
Definition sold_between (s s' : state) : Prop :=
  in_position (pos s) = true /\ in_position (pos s') = false.

(** In position with 120 of quote currency noted before the trade. *)
Definition case_losing : state :=
  with_pos (set_DV_before_trade 120) Scenario.holding.

(* ------------------------------------------------------------------ *)
(** ** The open-position endpoint: [app/kc.py] *)
(* ------------------------------------------------------------------ *)

(** The answer of [GET /kc/orders/open_position] for the pair of the
    settings: whether the latest row of the pair is a BUY. *)
Definition has_open_position (pair : string) (rows : list Trade) : bool :=
  match get_last_trade_by_symbol pair rows with
  | Some last => String.eqb (Str.lower (type last)) "buy"
  | None => false
  end.

(* ------------------------------------------------------------------ *)
(** ** Start-up and the minute timer: [run_algo] *)
(* ------------------------------------------------------------------ *)

(** Lines 616-626: the position is resumed when the latest row of the
    symbol is a BUY marked filled. *)
Definition resume_last_buy (cfg : config) : M unit :=
  l <- gets ledger ;;
  match get_last_trade_by_symbol (SYMBOL cfg) l with
  | Some last =>
      if andb (String.eqb (Str.lower (type last)) "buy")
              (String.eqb (status last) "filled")
      then
        modify (with_pos (open_position (price last) (timestamp last)
                            (price last * PROFIT_TARGET_MULT cfg))) ;;
        logger INFO "Resumed BUY"
      else ret tt
  | None => ret tt
  end.

(** Lines 609-626: reconciliation, then the resumption. *)
Definition start_up (cfg : config) (w : world) : M unit :=
  logger INFO "Trying to sync-up any open order's in our db" ;;
  sync_open_trades cfg w ;;
  logger INFO "Trying to sync-up any open order's in our db" ;;
  resume_last_buy cfg.

(** A ledger whose BUY was filled and whose SELL was canceled after the
    confirmation timeout. *)
Definition case_unsold : state :=
  with_ledger (fun _ =>
    [ set_status "filled" Scenario.open_buy;
      {| trade_id := 2; order_id := "A2"; status := "canceled"; type := "sell";
         symbol := "KCS-USDT"; price := 11; quantity := 9;
         timestamp := 70 * NS_PER_SECOND; pnl := None |} ])
    Scenario.initial.

(** [now.ceil("min")] *)
Definition ceil_minute (now : Z) : Z :=
  (- (NS_PER_MINUTE * ((- now) / NS_PER_MINUTE)))%Z.

(** The message the minute timer hands to [handle]: the close of the bar
    in progress as price, the instant of the call as time, no size.
    Without a bar in progress the close is [None], and [float(None)] raises
    inside [handle], which swallows it as it swallows every exception; the
    entry is then [Bad]. *)
Definition timer_message (cfg : config) (cur : option bar) (now : Z) : message :=
  {| topic := "/market/ticker:" ++ SYMBOL cfg;
     data := Some {| p_price := match cur with
                                | Some b => Num_ (close b)
                                | None => Bad
                                end;
                     p_bestAsk := Missing; p_time := Some now;
                     p_size := Missing |} |}.

(** One round of [minute_ticker], lines 637-649: sleep until half a second
    past the next minute, reconcile, and hand the timer message to
    [handle]. *)
Definition minute_tick (cfg : config) (w : world) (fuel : nat) : M unit :=
  now <- utcnow w ;;
  sleep (inject_Z (ceil_minute now - now) / inject_Z NS_PER_SECOND + (1 # 2)) ;;
  sync_open_trades cfg w ;;
  cur <- gets current_bar ;;
  t <- utcnow w ;;
  handle cfg w fuel (timer_message cfg cur t).

(** The calm exchange with a clock that advances one minute per reading. *)
Definition case_next_minute : world :=
  {| clock := fun n => (Z.of_nat n * NS_PER_MINUTE)%Z;
     get_accounts := get_accounts Scenario.calm;
     get_ticker := get_ticker Scenario.calm;
     create_order := create_order Scenario.calm;
     get_order := get_order Scenario.calm;
     cancel_order := cancel_order Scenario.calm;
     minH_model := minH_model Scenario.calm;
     minL_model := minL_model Scenario.calm |}.

(* ------------------------------------------------------------------ *)
(** ** The control endpoints: [app/algoapis.py] *)
(* ------------------------------------------------------------------ *)

Definition with_stop (v : bool) (s : state) : state :=
  {| pos := pos s; current_bar := current_bar s; minList := minList s;
     bal := bal s; sts := sts s; ledger := ledger s; ext := ext s;
     stop_requested := v; models_ready := models_ready s |}.

(** The endpoints take [running], whether the task of [run_algo] exists and
    is not done, and give it back beside their answer;
    [asyncio.create_task(run_algo())] makes it true. *)
Definition start_algo (running : bool) : M (http string * bool) :=
  logger INFO "POST /algo/start called" ;;
  ready <- gets models_ready ;;
  if negb ready
  then logger WARNING "Models not ready; cannot start" ;;
       ret (HTTPException 503, running)
  else if running
  then logger WARNING "Algorithm already running" ;;
       ret (HTTPException 400, running)
  else modify (with_stop false) ;;
       logger INFO "Algorithm task started" ;;
       ret (Body "started", true).

Definition stop_algo (running : bool) : M (http string * bool) :=
  logger INFO "POST /algo/stop called" ;;
  if negb running
  then logger WARNING "Stop requested but algorithm not running" ;;
       ret (HTTPException 400, running)
  else modify (with_stop true) ;;
       ret (Body "stopping", running).

Definition close_position (running : bool) : M (http string * bool) :=
  logger INFO "POST /algo/close called" ;;
  modify (with_stop true) ;;
  if negb running
  then
    ready <- gets models_ready ;;
    if negb ready
    then logger WARNING "Models not ready; cannot close position" ;;
         ret (HTTPException 503, running)
    else logger INFO "Algorithm task started in sell-only mode" ;;
         ret (Body "closing", true)
  else ret (Body "closing", running).

(** What reaches the engine while the task runs: a feed message, or a
    request to one of the control endpoints. *)
Inductive event :=
| Feed (msg : message)
| PostStart | PostStop | PostClose.

Definition after_request (c : M (http string * bool)) (running : bool) (s : state)
  : bool * state :=
  match c s with
  | (Ret (_, r), s') => (r, s')
  | (_, s') => (running, s')
  end.

Definition step (cfg : config) (w : world) (fuel : nat) (e : event)
    (running : bool) (s : state) : bool * state :=
  match e with
  | Feed msg => (running, snd (handle cfg w fuel msg s))
  | PostStart => after_request (start_algo running) running s
  | PostStop => after_request (stop_algo running) running s
  | PostClose => after_request (close_position running) running s
  end.

Fixpoint run_events (cfg : config) (w : world) (fuel : nat) (evs : list event)
    (running : bool) (s : state) : bool * state :=
  match evs with
  | [] => (running, s)
  | e :: r =>
      let '(running', s') := step cfg w fuel e running s in
      run_events cfg w fuel r running' s'
  end.

(** In position with sell-only mode requested. *)
Definition case_stopping : state := with_stop true Scenario.holding.

(** The calm exchange with five units of the base currency to sell. *)
Definition case_funded : world :=
  {| clock := clock Scenario.calm;
     get_accounts := fun _ => Reply (Scenario.accounts 100 5);
     get_ticker := get_ticker Scenario.calm;
     create_order := create_order Scenario.calm;
     get_order := get_order Scenario.calm;
     cancel_order := cancel_order Scenario.calm;
     minH_model := minH_model Scenario.calm;
     minL_model := minL_model Scenario.calm |}.

(** What a computation has spent between two states: at most [a] order
    queries, [b] account queries and [c] sleeps. *)
Definition spent (a b c : nat) (s s' : state) : Prop :=
  (n_get_order (ext s') <= n_get_order (ext s) + a)%nat /\
  (n_accounts (ext s') <= n_accounts (ext s) + b)%nat /\
  (List.length (sleeps (ext s')) <= List.length (sleeps (ext s)) + c)%nat.

Definition costs {A} (a b c : nat) (m : M A) : Prop :=
  forall s, spent a b c s (snd (m s)).

(* ================================================================== *)
(** * Properties *)
(* ================================================================== *)

(** ** Comparisons *)

Lemma Qleb_le x y : Num.Qleb x y = true <-> x <= y.
Proof. unfold Num.Qleb. apply Qle_bool_iff. Qed.

Lemma Qltb_lt x y : Num.Qltb x y = true <-> x < y.
Proof.
  unfold Num.Qltb. rewrite negb_true_iff.
  split; intro H.
  - apply Qnot_le_lt. intro L. apply Qle_bool_iff in L. congruence.
  - destruct (Qle_bool y x) eqn:E; auto.
    apply Qle_bool_iff in E. exfalso. apply (Qlt_not_le _ _ H E).
Qed.

Lemma Qltb_ge x y : Num.Qltb x y = false <-> y <= x.
Proof.
  unfold Num.Qltb. rewrite negb_false_iff. apply Qle_bool_iff.
Qed.

Lemma Qleb_gt x y : Num.Qleb x y = false <-> y < x.
Proof.
  rewrite <- Qltb_lt. unfold Num.Qltb, Num.Qleb.
  destruct (Qle_bool x y); simpl; intuition congruence.
Qed.

Lemma py_max_ub a b : a <= Num.py_max a b /\ b <= Num.py_max a b.
Proof.
  unfold Num.py_max. destruct (Num.Qltb a b) eqn:E.
  - apply Qltb_lt in E. split; [apply Qlt_le_weak; exact E | apply Qle_refl].
  - apply Qltb_ge in E. split; [apply Qle_refl | exact E].
Qed.

Lemma py_min_lb a b : Num.py_min a b <= a /\ Num.py_min a b <= b.
Proof.
  unfold Num.py_min. destruct (Num.Qltb b a) eqn:E.
  - apply Qltb_lt in E. split; [apply Qlt_le_weak; exact E | apply Qle_refl].
  - apply Qltb_ge in E. split; [apply Qle_refl | exact E].
Qed.

Lemma py_max_idem a b : Num.py_max (Num.py_max a b) b = Num.py_max a b.
Proof.
  unfold Num.py_max. destruct (Num.Qltb a b) eqn:E.
  - destruct (Num.Qltb b b) eqn:E'; auto.
  - rewrite E. reflexivity.
Qed.

Lemma py_min_idem a b : Num.py_min (Num.py_min a b) b = Num.py_min a b.
Proof.
  unfold Num.py_min. destruct (Num.Qltb b a) eqn:E.
  - destruct (Num.Qltb b b) eqn:E'; auto.
  - rewrite E. reflexivity.
Qed.

(** ** The monad *)

Lemma bind_Ret {A B} (c : M A) (k : A -> M B) s a s' :
  c s = (Ret a, s') -> bind c k s = k a s'.
Proof. unfold bind. intros ->. reflexivity. Qed.

Lemma bind_Raise {A B} (c : M A) (k : A -> M B) s e s' :
  c s = (Raise e, s') -> bind c k s = (Raise e, s').
Proof. unfold bind. intros ->. reflexivity. Qed.

Lemma bind_Diverge {A B} (c : M A) (k : A -> M B) s s' :
  c s = (Diverge, s') -> bind c k s = (Diverge, s').
Proof. unfold bind. intros ->. reflexivity. Qed.

Lemma try_Ret {A} (c : M A) h s a s' :
  c s = (Ret a, s') -> try_except c h s = (Ret a, s').
Proof. unfold try_except. intros ->. reflexivity. Qed.

Lemma try_Raise {A} (c : M A) h s e s' :
  c s = (Raise e, s') -> try_except c h s = h e s'.
Proof. unfold try_except. intros ->. reflexivity. Qed.

Lemma try_Diverge {A} (c : M A) h s s' :
  c s = (Diverge, s') -> try_except c h s = (Diverge, s').
Proof. unfold try_except. intros ->. reflexivity. Qed.

(** ** Frames *)

Lemma frame_refl s : frame s s.
Proof. unfold frame. intuition. Qed.

Lemma frame_trans s1 s2 s3 : frame s1 s2 -> frame s2 s3 -> frame s1 s3.
Proof. unfold frame. intuition congruence. Qed.

Lemma frame_log l m s : frame s (with_ext (add_log l m) s).
Proof. unfold frame. simpl. intuition. Qed.

Lemma frame_bump k s : frame s (with_ext (bump k) s).
Proof. unfold frame. simpl. intuition. Qed.

Lemma frame_bal f s : frame s (with_bal f s).
Proof. unfold frame. simpl. intuition. Qed.

Section BalanceCache.

Variable cfg : config.
Variable w : world.

Lemma build_cache_frame accts : forall c s,
  exists c' s', build_cache accts c s = (Ret c', s') /\ frame s s'.
Proof.
  induction accts as [|a r IH]; intros c s; simpl.
  - exists c, s. split; [reflexivity | apply frame_refl].
  - destruct (a_currency a) as [cur|]; [|apply IH].
    destruct (andb _ _); [|apply IH].
    destruct (a_available a); try apply IH.
    unfold bind, logger, modify.
    destruct (IH c (with_ext (add_log WARNING "Could not parse available") s))
      as (c' & s' & E & F).
    exists c', s'. split; [exact E|].
    eapply frame_trans; [apply frame_log | exact F].
Qed.

(** [get_available] always returns, and touches only the cache, the
    counters and the log. *)
Lemma get_available_frame currency s :
  exists v s', get_available w currency s = (Ret v, s') /\ frame s s'.
Proof.
  unfold get_available, bind, utcnow, gets, try_except, kc_get_accounts, ask, modify, logger, ret.
  set (s1 := with_ext (bump 0) s).
  assert (F1 : frame s s1) by apply frame_bump.
  destruct (match _last_balance_fetch (bal s1) with
            | Some l => _ | None => true end).
  - destruct (get_accounts w (n_accounts (ext s1))) as [accts|e].
    + destruct (build_cache_frame accts [] (with_ext (bump 1) s1)) as (c' & s' & E & F).
      rewrite E. eexists _, _. split; [reflexivity|].
      eapply frame_trans; [exact F1|]. eapply frame_trans; [apply frame_bump|].
      eapply frame_trans; [exact F|]. apply frame_bal.
    + eexists _, _. split; [reflexivity|].
      eapply frame_trans; [exact F1|]. eapply frame_trans; [apply frame_bump|].
      apply frame_log.
  - eexists _, _. split; [reflexivity | exact F1].
Qed.

End BalanceCache.

(** ** The handler up to the aggregation step *)

Section Handler.

Variable cfg : config.
Variable w : world.

Lemma update_balances_frame s :
  exists s', update_balances cfg w s = (Ret tt, s') /\ frame s s'.
Proof.
  unfold update_balances.
  destruct (get_available_frame w (QUOTE cfg) s) as (aq & s1 & E1 & F1).
  rewrite (bind_Ret _ _ _ _ _ E1).
  unfold bind at 1. unfold modify at 1. cbv beta iota.
  match goal with |- exists _, bind _ _ ?s0 = _ /\ _ =>
    destruct (get_available_frame w (BASE cfg) s0) as (ab & s2 & E2 & F2);
    assert (F0 : frame s1 s0) by apply frame_bal
  end.
  rewrite (bind_Ret _ _ _ _ _ E2).
  unfold modify. eexists. split; [reflexivity|].
  eapply frame_trans; [exact F1|]. eapply frame_trans; [exact F0|].
  eapply frame_trans; [exact F2|]. apply frame_bal.
Qed.

(** A message read as a tick reaches the aggregation step in a state that
    differs from the initial one by the balance refresh only. *)
Lemma handle_tick fuel msg d p ts s :
  data msg = Some d ->
  extract_price cfg (topic msg) d = Ret (Some (p, Some ts)) ->
  exists s1, frame s s1 /\
    handle cfg w fuel msg s =
    try_except (aggregate cfg w fuel d p ts)
      (fun _ => logger ERROR "Exception in handle()") s1.
Proof.
  intros Hd Hp.
  destruct (update_balances_frame s) as (s1 & E & F).
  exists s1. split; [exact F|].
  unfold handle, handle_body. rewrite Hd.
  unfold try_except. rewrite (bind_Ret _ _ _ _ _ E).
  unfold bind, lift. rewrite Hp. reflexivity.
Qed.

(** Folding a tick into the bar in progress. *)
Lemma handle_in_minute fuel msg p z b s :
  current_bar s = Some b ->
  tick_in_minute cfg (minute b) msg p z ->
  exists s', handle cfg w fuel msg s = (Ret tt, s') /\
    current_bar s' = Some (add_volume z (set_hlc p b)) /\
    pos s' = pos s /\ minList s' = minList s /\ ledger s' = ledger s /\
    requests (ext s') = requests (ext s).
Proof.
  intros Hb (d & ts & Hd & Hp & Hz & Hm).
  destruct (handle_tick fuel msg d p ts s Hd Hp) as (s1 & F & E).
  rewrite E. destruct F as (F1 & F2 & F3 & F4 & F5 & F6 & F7 & F8 & F9).
  unfold try_except, aggregate, bind, gets.
  rewrite F2, Hb, Hm, Z.ltb_irrefl.
  unfold modify, lift. rewrite Hz.
  eexists. split; [reflexivity|]. simpl. intuition.
Qed.

End Handler.

(* ------------------------------------------------------------------ *)
(** ** Bar aggregation within a minute *)
(* ------------------------------------------------------------------ *)

Lemma fold_ticks_minute obs : forall b, minute (fold_ticks obs b) = minute b.
Proof.
  induction obs as [|o r IH]; intro b; simpl; [reflexivity|].
  unfold fold_ticks in IH. rewrite IH. reflexivity.
Qed.

Lemma fold_ticks_open obs : forall b, open (fold_ticks obs b) = open b.
Proof.
  induction obs as [|o r IH]; intro b; simpl; [reflexivity|].
  unfold fold_ticks in IH. rewrite IH. reflexivity.
Qed.

Lemma fold_ticks_high_mono obs : forall b, high b <= high (fold_ticks obs b).
Proof.
  induction obs as [|o r IH]; intro b; simpl; [apply Qle_refl|].
  eapply Qle_trans; [|apply IH]. simpl. apply py_max_ub.
Qed.

Lemma fold_ticks_low_mono obs : forall b, low (fold_ticks obs b) <= low b.
Proof.
  induction obs as [|o r IH]; intro b; simpl; [apply Qle_refl|].
  eapply Qle_trans; [apply IH|]. simpl. apply py_min_lb.
Qed.

Lemma fold_ticks_bounds obs : forall b,
  Forall (fun o => fst o <= high (fold_ticks obs b) /\
                   low (fold_ticks obs b) <= fst o) obs.
Proof.
  induction obs as [|o r IH]; intro b; simpl; constructor.
  - split.
    + eapply Qle_trans; [|apply fold_ticks_high_mono]. simpl. apply py_max_ub.
    + eapply Qle_trans; [apply fold_ticks_low_mono|]. simpl. apply py_min_lb.
  - apply IH.
Qed.

Lemma last_default {A} (l : list A) (x d d' : A) :
  last (x :: l) d = last (x :: l) d'.
Proof.
  revert x. induction l as [|y l IH]; intro x; [reflexivity|].
  change (last (y :: l) d = last (y :: l) d'). apply IH.
Qed.

Lemma fold_ticks_close obs : forall b,
  close (fold_ticks obs b) = last (map fst obs) (close b).
Proof.
  induction obs as [|o r IH]; intro b; [reflexivity|].
  change (close (fold_ticks r (add_volume (snd o) (set_hlc (fst o) b)))
          = last (fst o :: map fst r) (close b)).
  rewrite IH. simpl close.
  destruct r as [|p r]; [reflexivity|].
  change (last (map fst (p :: r)) (fst o) = last (map fst (p :: r)) (close b)).
  simpl map. apply last_default.
Qed.

Lemma fold_ticks_volume obs : forall b,
  volume (fold_ticks obs b) == volume b + fold_right Qplus 0 (map snd obs).
Proof.
  induction obs as [|o r IH]; intro b; simpl; [ring|].
  unfold fold_ticks in IH. rewrite IH. simpl. ring.
Qed.

(** A run of ticks of the current minute is the fold of the in-progress
    update. *)
Lemma run_handle_in_minute cfg w fuel (obs : list (message * (Q * Q))) :
  forall s b,
    current_bar s = Some b ->
    Forall (fun o => tick_in_minute cfg (minute b) (fst o) (fst (snd o)) (snd (snd o))) obs ->
    current_bar (run_handle cfg w fuel (map fst obs) s)
    = Some (fold_ticks (map snd obs) b).
Proof.
  induction obs as [|o r IH]; intros s b Hb Hall; simpl; [exact Hb|].
  inversion Hall as [|? ? Ho Hr]; subst.
  destruct (handle_in_minute cfg w fuel _ _ _ _ _ Hb Ho) as (s' & E & Hb' & _).
  rewrite E. simpl. apply IH; [exact Hb'|].
  simpl. exact Hr.
Qed.

(** C4. For every sequence of ticks whose timestamps fall in the minute of
    the bar in progress, once [handle] has processed them the bar's high is
    at least every observed price, its low is at most every observed price,
    its close is the last observed price, and its volume is the volume it
    had before plus the sum of the observed sizes. *)
Theorem bar_aggregation_within_minute
    cfg w fuel (obs : list (message * (Q * Q))) s b :
  current_bar s = Some b ->
  Forall (fun o => tick_in_minute cfg (minute b) (fst o) (fst (snd o)) (snd (snd o))) obs ->
  exists b',
    current_bar (run_handle cfg w fuel (map fst obs) s) = Some b' /\
    minute b' = minute b /\
    Forall (fun o => fst (snd o) <= high b' /\ low b' <= fst (snd o)) obs /\
    close b' = last (map (fun o => fst (snd o)) obs) (close b) /\
    volume b' == volume b + fold_right Qplus 0 (map (fun o => snd (snd o)) obs).
Proof.
  intros Hb Hall.
  exists (fold_ticks (map snd obs) b).
  split; [apply run_handle_in_minute; assumption|].
  split; [apply fold_ticks_minute|].
  split.
  - pose proof (fold_ticks_bounds (map snd obs) b) as H.
    rewrite Forall_map in H. exact H.
  - split.
    + rewrite fold_ticks_close, map_map. reflexivity.
    + rewrite fold_ticks_volume, map_map. reflexivity.
Qed.

Lemma bar_aggregation_within_minute_witness :
  let obs := [ (Scenario.match_tick 12 1 3, (12, 3));
               (Scenario.match_tick 8 2 1, (8, 1));
               (Scenario.match_tick (21 # 2) 3 0, (21 # 2, 0)) ] in
  exists b',
    current_bar (run_handle Scenario.kcs_usdt Scenario.calm 1 (map fst obs)
                   Scenario.in_bar0) = Some b' /\
    minute b' = 0%Z /\
    Forall (fun o => fst (snd o) <= high b' /\ low b' <= fst (snd o)) obs /\
    close b' = 21 # 2 /\
    volume b' == 6.
Proof.
  intro obs.
  assert (Hb : current_bar Scenario.in_bar0 = Some Scenario.bar0) by reflexivity.
  assert (Hall : Forall (fun o => tick_in_minute Scenario.kcs_usdt
                           (minute Scenario.bar0) (fst o) (fst (snd o)) (snd (snd o))) obs).
  { repeat (apply Forall_cons; [eexists; eexists; repeat split; reflexivity|]).
    apply Forall_nil. }
  destruct (bar_aggregation_within_minute Scenario.kcs_usdt Scenario.calm 1
              obs Scenario.in_bar0 Scenario.bar0 Hb Hall) as (b' & H1 & H2 & H3 & H4 & H5).
  exists b'. repeat split; assumption.
Defined.

(* ------------------------------------------------------------------ *)
(** ** Duplicate ticks *)
(* ------------------------------------------------------------------ *)

(** C5, as stated, fails: a trade match of size 3 delivered twice within the
    minute of the bar in progress leaves a bar of volume 8, delivered once a
    bar of volume 5. *)
Lemma duplicate_tick_not_idempotent :
  ~ (forall cfg w fuel msg p z b s,
       current_bar s = Some b ->
       tick_in_minute cfg (minute b) msg p z ->
       exists b1 b2,
         current_bar (run_handle cfg w fuel [msg] s) = Some b1 /\
         current_bar (run_handle cfg w fuel [msg; msg] s) = Some b2 /\
         bar_eq b2 b1).
Proof.
  intro H.
  destruct (H Scenario.kcs_usdt Scenario.calm 1%nat (Scenario.match_tick 12 1 3)
              12 3 Scenario.bar0 Scenario.in_bar0)
    as (b1 & b2 & E1 & E2 & Heq).
  - reflexivity.
  - eexists; eexists; repeat split; reflexivity.
  - vm_compute in E1. vm_compute in E2.
    injection E1 as <-. injection E2 as <-.
    destruct Heq as (_ & _ & _ & _ & _ & Hv).
    vm_compute in Hv. discriminate Hv.
Qed.

(** C5, amended. Processing a tick of the current minute twice leaves the
    bar's minute, open, high, low and close as processing it once does; the
    volume grows by the tick's size at each delivery, so the two bars agree
    exactly when that size is zero. *)
Theorem duplicate_tick_only_changes_volume cfg w fuel msg p z b s :
  current_bar s = Some b ->
  tick_in_minute cfg (minute b) msg p z ->
  exists b1 b2,
    current_bar (run_handle cfg w fuel [msg] s) = Some b1 /\
    current_bar (run_handle cfg w fuel [msg; msg] s) = Some b2 /\
    minute b2 = minute b1 /\ open b2 = open b1 /\ high b2 = high b1 /\
    low b2 = low b1 /\ close b2 = close b1 /\
    volume b2 = volume b1 + z /\
    (bar_eq b2 b1 <-> z == 0).
Proof.
  intros Hb Ht.
  pose proof (run_handle_in_minute cfg w fuel [(msg, (p, z))] s b Hb) as R1.
  pose proof (run_handle_in_minute cfg w fuel [(msg, (p, z)); (msg, (p, z))] s b Hb) as R2.
  simpl map in R1, R2.
  exists (fold_ticks [(p, z)] b), (fold_ticks [(p, z); (p, z)] b).
  split; [apply R1; repeat constructor; exact Ht|].
  split; [apply R2; repeat constructor; exact Ht|].
  simpl. rewrite py_max_idem, py_min_idem.
  repeat (split; [reflexivity|]).
  unfold bar_eq; simpl. rewrite py_max_idem, py_min_idem. split.
  - intros (_ & _ & _ & _ & _ & Hv). clear - Hv. lra.
  - intro Hz. repeat split; try reflexivity. clear - Hz. lra.
Qed.

Lemma duplicate_tick_only_changes_volume_witness :
  exists b1 b2,
    current_bar (run_handle Scenario.kcs_usdt Scenario.calm 1
                   [Scenario.match_tick 12 1 3] Scenario.in_bar0) = Some b1 /\
    current_bar (run_handle Scenario.kcs_usdt Scenario.calm 1
                   [Scenario.match_tick 12 1 3; Scenario.match_tick 12 1 3]
                   Scenario.in_bar0) = Some b2 /\
    high b2 = high b1 /\ close b2 = close b1 /\ volume b2 = volume b1 + 3.
Proof.
  assert (Hb : current_bar Scenario.in_bar0 = Some Scenario.bar0) by reflexivity.
  assert (Ht : tick_in_minute Scenario.kcs_usdt (minute Scenario.bar0)
                 (Scenario.match_tick 12 1 3) 12 3).
  { eexists; eexists; repeat split; reflexivity. }
  destruct (duplicate_tick_only_changes_volume Scenario.kcs_usdt Scenario.calm 1
              _ _ _ _ _ Hb Ht)
    as (b1 & b2 & E1 & E2 & _ & _ & Hh & _ & Hc & Hv & _).
  exists b1, b2. repeat split; assumption.
Defined.

(* ------------------------------------------------------------------ *)
(** ** State invariants of engine code *)
(* ------------------------------------------------------------------ *)

Section Invariants.

Variable I : state -> Prop.

Lemma inv_ret {A} (a : A) : inv I (ret a).
Proof. intros s H. exact H. Qed.

Lemma inv_raise {A} e : inv I (@raise A e).
Proof. intros s H. exact H. Qed.

Lemma inv_diverge {A} : inv I (@diverge A).
Proof. intros s H. exact H. Qed.

Lemma inv_lift {A} (r : res A) : inv I (lift r).
Proof. intros s H. exact H. Qed.

Lemma inv_gets {A} (f : state -> A) : inv I (gets f).
Proof. intros s H. exact H. Qed.

Lemma inv_modify f : (forall s, I s -> I (f s)) -> inv I (modify f).
Proof. intros Hf s H. apply Hf, H. Qed.

Lemma inv_bind {A B} (c : M A) (k : A -> M B) :
  inv I c -> (forall a, inv I (k a)) -> inv I (bind c k).
Proof.
  intros Hc Hk s H. unfold bind. specialize (Hc s H).
  destruct (c s) as [[a|e|] s']; simpl in *; auto.
  apply Hk, Hc.
Qed.

Lemma inv_try {A} (c : M A) h :
  inv I c -> (forall e, inv I (h e)) -> inv I (try_except c h).
Proof.
  intros Hc Hh s H. unfold try_except. specialize (Hc s H).
  destruct (c s) as [[a|e|] s']; simpl in *; auto.
  apply Hh, Hc.
Qed.

(** Invariants that speak of the position only. *)
Hypothesis I_pos : forall s s', pos s' = pos s -> I s -> I s'.

Lemma inv_logger l m : inv I (logger l m).
Proof. apply inv_modify. intros s. apply I_pos. reflexivity. Qed.

Lemma inv_sleep d : inv I (sleep d).
Proof. apply inv_modify. intros s. apply I_pos. reflexivity. Qed.

Lemma inv_utcnow w : inv I (utcnow w).
Proof. intros s. apply I_pos. reflexivity. Qed.

Lemma inv_ask {A} k count (oracle : nat -> reply A) : inv I (ask k count oracle).
Proof.
  intros s. unfold ask. destruct (oracle _); apply I_pos; reflexivity.
Qed.

Lemma inv_create_trade oid st ty sym pr qty ts pl :
  inv I (create_trade oid st ty sym pr qty ts pl).
Proof.
  unfold create_trade. destruct oid; [|apply inv_raise].
  apply inv_bind; [apply inv_gets|intro].
  apply inv_bind; [apply inv_modify; intro; apply I_pos; reflexivity|intro].
  apply inv_bind; [apply inv_logger|intro]. apply inv_ret.
Qed.

Lemma inv_update_trade_status oid st : inv I (update_trade_status oid st).
Proof.
  unfold update_trade_status.
  apply inv_bind; [apply inv_gets|intro l].
  destruct (match oid with Some o => update_first o st l | None => None end)
    as [[t l']|].
  - apply inv_bind; [apply inv_modify; intro; apply I_pos; reflexivity|intro].
    apply inv_bind; [apply inv_logger|intro]. apply inv_ret.
  - apply inv_bind; [apply inv_logger|intro]. apply inv_ret.
Qed.

Lemma inv_Decimal_floordiv a b : inv I (Decimal_floordiv a b).
Proof.
  unfold Decimal_floordiv. destruct (Num.Qeqb b 0); [apply inv_raise|].
  cbv zeta. destruct (_ <=? _)%Z; [apply inv_raise | apply inv_ret].
Qed.

Lemma inv_Decimal_div a b : inv I (Decimal_div a b).
Proof.
  unfold Decimal_div. destruct (Num.Qeqb b 0); [apply inv_raise | apply inv_ret].
Qed.

Lemma inv_Decimal_quantize_down v e : inv I (Decimal_quantize_down v e).
Proof.
  unfold Decimal_quantize_down. cbv zeta.
  destruct (_ <=? _)%Z; [apply inv_raise | apply inv_ret].
Qed.

Section Pipeline.

Variable cfg : config.
Variable w : world.

Lemma inv_build_cache accts : forall c, inv I (build_cache accts c).
Proof.
  induction accts as [|a r IH]; intro c; simpl; [apply inv_ret|].
  destruct (a_currency a); [|apply IH].
  destruct (andb _ _); [|apply IH].
  destruct (a_available a); try apply IH.
  apply inv_bind; [apply inv_logger | intro; apply IH].
Qed.

Lemma inv_get_available currency : inv I (get_available w currency).
Proof.
  unfold get_available.
  apply inv_bind; [apply inv_utcnow|intro now].
  apply inv_bind; [apply inv_gets|intro last].
  apply inv_bind; [|intro; apply inv_gets].
  destruct (match last with Some l => _ | None => true end); [|apply inv_ret].
  apply inv_try; [|intro; apply inv_logger].
  apply inv_bind; [apply inv_ask|intro].
  apply inv_bind; [apply inv_build_cache|intro].
  apply inv_modify. intro. apply I_pos. reflexivity.
Qed.

Lemma inv_floor_price_to_tick p : inv I (floor_price_to_tick cfg p).
Proof.
  unfold floor_price_to_tick. cbv zeta.
  apply inv_bind; [apply inv_Decimal_floordiv|intro].
  apply inv_Decimal_quantize_down.
Qed.

Lemma inv_kc_create_limit_order side pr size :
  inv I (kc_create_limit_order w side pr size).
Proof.
  apply inv_bind; [apply inv_modify; intro; apply I_pos; reflexivity|intro].
  apply inv_ask.
Qed.

Lemma inv_kc_create_market_order side size :
  inv I (kc_create_market_order w side size).
Proof.
  apply inv_bind; [apply inv_modify; intro; apply I_pos; reflexivity|intro].
  apply inv_ask.
Qed.

Lemma inv_kc_cancel_order oid : inv I (kc_cancel_order w oid).
Proof.
  apply inv_bind; [apply inv_modify; intro; apply I_pos; reflexivity|intro].
  apply inv_ask.
Qed.

Lemma inv_submit_order side pr size : inv I (submit_order cfg w side pr size).
Proof.
  unfold submit_order.
  apply inv_bind.
  - destruct (String.eqb _ "limit"); [|apply inv_kc_create_market_order].
    destruct pr; [|apply inv_raise].
    apply inv_bind.
    + apply inv_try.
      * apply inv_bind; [apply inv_ask|intro].
        apply inv_bind; [apply inv_lift|intro].
        apply inv_bind; [apply inv_lift|intro]. apply inv_ret.
      * intro. apply inv_bind; [apply inv_logger|intro]. apply inv_ret.
    + intro. apply inv_bind; [apply inv_floor_price_to_tick|intro].
      apply inv_kc_create_limit_order.
  - intro order. cbv zeta.
    apply inv_bind; [apply inv_utcnow|intro].
    apply inv_bind; [apply inv_create_trade|intro].
    apply inv_bind; [apply inv_logger|intro]. apply inv_ret.
Qed.

Lemma inv_place_order_attempts side pr size remaining :
  forall attempt delay,
    inv I (place_order_attempts cfg w remaining attempt delay side pr size).
Proof.
  induction remaining as [|r IH]; intros attempt delay; simpl; [apply inv_ret|].
  apply inv_try.
  - apply inv_bind; [apply inv_submit_order|intro]. apply inv_ret.
  - intro e. apply inv_bind; [apply inv_logger|intro].
    destruct (Nat.eqb attempt MAX_ORDER_RETRIES).
    + apply inv_bind; [apply inv_logger|intro]. apply inv_raise.
    + apply inv_bind; [apply inv_sleep|intro]. apply IH.
Qed.

Lemma inv_confirm_pass oid start_time : inv I (confirm_pass w oid start_time).
Proof.
  unfold confirm_pass.
  apply inv_bind.
  - apply inv_try.
    + apply inv_bind; [apply inv_ask|intro]. apply inv_ret.
    + intros [msg| | | | | | | | |]; try apply inv_raise.
      apply inv_bind; [apply inv_logger|intro].
      destruct (Str.contains _ _); [|apply inv_raise].
      apply inv_bind; [apply inv_sleep|intro]. apply inv_ret.
  - intros [st|]; [|apply inv_ret]. cbv zeta.
    destruct (negb _).
    + apply inv_bind; [apply inv_update_trade_status|intro].
      destruct (String.eqb _ "filled").
      * apply inv_bind; [apply inv_logger|intro]. apply inv_ret.
      * apply inv_bind; [apply inv_logger|intro]. apply inv_raise.
    + apply inv_bind; [apply inv_utcnow|intro now].
      destruct (_ <? _)%Z.
      * apply inv_bind; [apply inv_logger|intro].
        apply inv_bind; [apply inv_kc_cancel_order|intro].
        apply inv_bind; [apply inv_update_trade_status|intro].
        apply inv_raise.
      * apply inv_bind; [apply inv_sleep|intro]. apply inv_ret.
Qed.

Lemma inv_confirm_loop oid start_time fuel :
  inv I (confirm_loop w fuel oid start_time).
Proof.
  induction fuel as [|f IH]; simpl; [apply inv_diverge|].
  apply inv_bind; [apply inv_confirm_pass|intros [st|]];
    [apply inv_ret | apply IH].
Qed.

(** The order pipeline keeps whatever is known of the position. *)
Lemma inv_place_and_confirm_order fuel side pr size :
  inv I (place_and_confirm_order cfg w fuel side pr size).
Proof.
  unfold place_and_confirm_order.
  apply inv_bind; [apply inv_place_order_attempts|intros [order|]];
    [|apply inv_raise].
  cbv zeta. apply inv_bind; [apply inv_utcnow|intro].
  apply inv_confirm_loop.
Qed.

End Pipeline.

End Invariants.

(* ------------------------------------------------------------------ *)
(** ** The exit block and the high-water mark *)
(* ------------------------------------------------------------------ *)

Section ExitInvariants.

Variable I : state -> Prop.
Hypothesis I_pos : forall s s', pos s' = pos s -> I s -> I s'.
Hypothesis I_flat : forall s, I s -> I (with_pos (set_in_position false) s).

Variable cfg : config.
Variable w : world.

Lemma inv_exit_quantity raw_q : inv I (exit_quantity cfg raw_q).
Proof.
  unfold exit_quantity. cbv zeta.
  destruct (Num.Qltb _ 0); [apply inv_raise | apply inv_ret].
Qed.

Lemma inv_exit_condition p hw curH ts : inv I (exit_condition cfg p hw curH ts).
Proof.
  unfold exit_condition.
  destruct (Num.Qleb _ _); [apply inv_ret|].
  destruct (Num.Qltb _ _); [apply inv_ret|].
  apply inv_bind; [apply inv_gets|intros [t|]]; [apply inv_ret | apply inv_raise].
Qed.

Lemma inv_deal_of filled : inv I (deal_of filled).
Proof.
  unfold deal_of.
  apply inv_bind; [apply inv_lift|intro].
  apply inv_bind; [apply inv_lift|intro]. apply inv_ret.
Qed.

Lemma inv_place_sell fuel p qty ts : inv I (place_sell cfg w fuel p qty ts).
Proof.
  unfold place_sell.
  apply inv_bind; [apply inv_logger; exact I_pos|intro].
  apply inv_bind.
  - apply inv_try.
    + apply inv_bind; [apply inv_place_and_confirm_order; exact I_pos|intro].
      apply inv_ret.
    + intro. apply inv_bind; [apply inv_logger; exact I_pos|intro]. apply inv_ret.
  - intros [filled|]; [|apply inv_ret].
    apply inv_bind; [apply inv_deal_of|intro d].
    apply inv_bind; [apply inv_get_available; exact I_pos|intro].
    apply inv_bind; [apply inv_gets|intro]. cbv zeta.
    apply inv_bind; [apply inv_modify; exact I_flat|intro].
    apply inv_bind; [apply inv_modify; intro; apply I_pos; reflexivity|intro].
    apply inv_bind; [apply inv_logger; exact I_pos|intro].
    apply inv_bind; [apply inv_create_trade; exact I_pos|intro].
    apply inv_ret.
Qed.

Lemma inv_exit_block fuel p ts : inv I (exit_block cfg w fuel p ts).
Proof.
  unfold exit_block.
  apply inv_bind; [apply inv_gets|intro raw_q].
  apply inv_bind; [apply inv_exit_quantity|intro qty].
  destruct (Num.Qleb _ _); [apply inv_logger; exact I_pos | apply inv_place_sell].
Qed.

End ExitInvariants.

Section HighWater.

Variable cfg : config.
Variable w : world.

(** The mark after the SELL block is the larger of the mark before and the
    price of the cycle, whatever the block does next. *)
Lemma sell_branch_mark fuel p curH ts s h :
  high_water (pos s) = Some h ->
  high_water (pos (snd (sell_branch cfg w fuel p curH ts s)))
  = Some (if Num.Qltb h p then p else h).
Proof.
  intro H. unfold sell_branch.
  rewrite (bind_Ret _ _ s (Some h) s) by (unfold gets; rewrite H; reflexivity).
  set (hw := if Num.Qltb h p then p else h).
  set (step := if Num.Qltb h p
               then modify (with_pos (set_high_water (Some p))) else ret tt).
  assert (Hs : exists s1, step s = (Ret tt, s1) /\ high_water (pos s1) = Some hw).
  { unfold step, hw. destruct (Num.Qltb h p).
    - eexists. split; reflexivity.
    - exists s. split; [reflexivity | exact H]. }
  destruct Hs as (s1 & E & H1).
  rewrite (bind_Ret _ _ _ _ _ E).
  revert H1. generalize s1.
  change (inv (fun s0 => high_water (pos s0) = Some hw)
            (fire <- exit_condition cfg p hw curH ts ;;
             if fire then exit_block cfg w fuel p ts else ret tt)).
  assert (Ipos : forall s0 s', pos s' = pos s0 ->
                 high_water (pos s0) = Some hw -> high_water (pos s') = Some hw).
  { intros s0 s' E0 H0. rewrite E0. exact H0. }
  apply inv_bind; [apply inv_exit_condition|intros [|]].
  - apply inv_exit_block; [exact Ipos|]. intros s0 H0. exact H0.
  - apply inv_ret.
Qed.

End HighWater.

(* ------------------------------------------------------------------ *)
(** ** The evaluation on a closed bar *)
(* ------------------------------------------------------------------ *)

Section Evaluation.

Variable cfg : config.
Variable w : world.

(** The evaluation does nothing to the position, or it is the SELL block
    run while in position, or the BUY block run while flat with sell-only
    mode off and the three signal tests passed. *)
Lemma evaluate_cases fuel p ts s :
  (exists r s', evaluate cfg w fuel p ts s = (r, s') /\ before_order s s')
  \/ (exists curH s1, before_order s s1 /\ in_position (pos s) = true /\
        evaluate cfg w fuel p ts s = sell_branch cfg w fuel p curH ts s1)
  \/ (exists s1, before_order s s1 /\ in_position (pos s) = false /\
        stop_requested s = false /\
        evaluate cfg w fuel p ts s = buy_branch cfg w fuel p ts s1).
Proof.
  remember (evaluate cfg w fuel p ts s) as E eqn:HE.
  assert (Idle : forall r s', E = (r, s') -> before_order s s' ->
            exists r0 s0, E = (r0, s0) /\ before_order s s0).
  { intros r s' -> H. eauto. }
  unfold evaluate, predict, bind, gets in HE.
  destruct (andb (models_ready s) _).
  2:{ left. eapply Idle; [exact HE|]. unfold before_order. intuition. }
  destruct (rev (minList s)) as [|[m1 b1] [|[m2 b2] l]].
  1,2: left; (eapply Idle; [exact HE|]); unfold before_order; intuition.
  unfold fdiv, ret, raise, logger, modify in HE.
  repeat match type of HE with
  | context [if Num.Qeqb ?a 0 then _ else _] =>
      destruct (Num.Qeqb a 0);
      [left; (eapply Idle; [exact HE|]); unfold before_order; cbn; intuition|]
  end.
  cbv beta iota in HE. unfold decide, bind, gets in HE.
  cbn [pos with_ext with_sts stop_requested] in HE.
  destruct (in_position (pos s)) eqn:Hin; cbn [negb andb] in HE.
  - right. left. eexists _, _. split; [|split; [reflexivity|exact HE]].
    unfold before_order. cbn. intuition.
  - destruct (stop_requested s) eqn:Hstop; cbn [negb andb] in HE.
    + left. eapply Idle; [exact HE|]. unfold before_order. cbn. intuition.
    + destruct (andb _ _).
      * right. right. eexists. split; [|split; [reflexivity|split; [reflexivity|exact HE]]].
        unfold before_order. cbn. intuition.
      * left. eapply Idle; [exact HE|]. unfold before_order. cbn. intuition.
Qed.

End Evaluation.

(* ------------------------------------------------------------------ *)
(** ** High-water mark *)
(* ------------------------------------------------------------------ *)

Section Hoare.

Context {A B : Type}.
Variables P Q : state -> Prop.

Lemma hoare_of_inv (c : M A) :
  inv P c -> (forall s, P s -> Q s) -> hoare P c Q.
Proof. intros Hc HPQ s H. apply HPQ, Hc, H. Qed.

Lemma hoare_bind_pre (c : M A) (k : A -> M B) :
  inv P c -> (forall a, hoare P (k a) Q) -> (forall s, P s -> Q s) ->
  hoare P (bind c k) Q.
Proof.
  intros Hc Hk HPQ s H. unfold bind. specialize (Hc s H).
  destruct (c s) as [[a|e|] s']; simpl in *; auto.
  apply Hk, Hc.
Qed.

Lemma hoare_bind_post (c : M A) (k : A -> M B) :
  hoare P c Q -> (forall a, inv Q (k a)) -> hoare P (bind c k) Q.
Proof.
  intros Hc Hk s H. unfold bind. specialize (Hc s H).
  destruct (c s) as [[a|e|] s']; simpl in *; auto.
  apply Hk, Hc.
Qed.

Lemma hoare_try (c : M A) h :
  hoare P c Q -> (forall e, inv Q (h e)) -> hoare P (try_except c h) Q.
Proof.
  intros Hc Hh s H. unfold try_except. specialize (Hc s H).
  destruct (c s) as [[a|e|] s']; simpl in *; auto.
  apply Hh, Hc.
Qed.

End Hoare.

Section Mark.

Variable cfg : config.
Variable w : world.

Lemma inv_update_balances I :
  (forall s s', pos s' = pos s -> I s -> I s') ->
  inv I (update_balances cfg w).
Proof.
  intro I_pos. unfold update_balances.
  apply inv_bind; [apply inv_get_available; exact I_pos|intro].
  apply inv_bind; [apply inv_modify; intro; apply I_pos; reflexivity|intro].
  apply inv_bind; [apply inv_get_available; exact I_pos|intro].
  apply inv_modify; intro; apply I_pos; reflexivity.
Qed.

Lemma long_at_pos h s s' : pos s' = pos s -> long_at h s -> long_at h s'.
Proof. unfold long_at. intros ->. auto. Qed.

Lemma marked_pos h p s s' : pos s' = pos s -> marked h p s -> marked h p s'.
Proof. unfold marked. intros ->. auto. Qed.

Lemma long_marked h p s : long_at h s -> marked h p s.
Proof. intros [_ H]. left. exact H. Qed.

Lemma evaluate_mark fuel p ts h :
  hoare (long_at h) (evaluate cfg w fuel p ts) (marked h p).
Proof.
  intros s [Hin Hh].
  destruct (evaluate_cases cfg w fuel p ts s)
    as [(r & s' & E & Hs) | [(curH & s1 & Hs & _ & E) | (s1 & _ & Hf & _)]].
  - rewrite E. destruct Hs as (Hp & _). left. simpl. rewrite Hp. exact Hh.
  - rewrite E. destruct Hs as (Hp & _). unfold marked.
    rewrite (sell_branch_mark cfg w fuel p curH ts s1 h) by (rewrite Hp; exact Hh).
    destruct (Num.Qltb h p) eqn:L; [right | left; reflexivity].
    split; [apply Qltb_lt, L | reflexivity].
  - congruence.
Qed.

Lemma aggregate_mark fuel d p ts h :
  hoare (long_at h) (aggregate cfg w fuel d p ts) (marked h p).
Proof.
  unfold aggregate. cbv zeta.
  apply hoare_bind_pre; [apply inv_gets | | apply long_marked].
  intros [b|].
  - destruct (_ <? _)%Z.
    + apply hoare_bind_pre; [| | apply long_marked].
      * apply inv_modify. intro s. apply long_at_pos. reflexivity.
      * intros _. apply hoare_bind_post; [apply evaluate_mark|intros _].
        apply inv_bind; [apply inv_lift|intro].
        apply inv_modify. intro s. apply marked_pos. reflexivity.
    + apply hoare_of_inv; [|apply long_marked].
      apply inv_bind; [apply inv_modify; intro s; apply long_at_pos; reflexivity|intro].
      apply inv_bind; [apply inv_lift|intro].
      apply inv_modify; intro s; apply long_at_pos; reflexivity.
  - apply hoare_of_inv; [|apply long_marked].
    apply inv_bind; [apply inv_lift|intro].
    apply inv_modify; intro s; apply long_at_pos; reflexivity.
Qed.

(** One cycle of [handle] while in position. *)
Lemma handle_mark fuel msg s h :
  in_position (pos s) = true ->
  high_water (pos s) = Some h ->
  exists h',
    high_water (pos (snd (handle cfg w fuel msg s))) = Some h' /\
    h <= h' /\
    (h' = h \/ observed_price cfg msg = Some h').
Proof.
  intros Hin Hh.
  assert (Keep : forall s', pos s' = pos s ->
            exists h', high_water (pos s') = Some h' /\ h <= h' /\
                       (h' = h \/ observed_price cfg msg = Some h')).
  { intros s' E. exists h. rewrite E.
    split; [exact Hh|]. split; [apply Qle_refl | left; reflexivity]. }
  destruct (data msg) as [d|] eqn:Hd.
  2:{ unfold handle, handle_body. rewrite Hd. apply Keep. reflexivity. }
  destruct (update_balances_frame cfg w s) as (s1 & E1 & F).
  assert (P1 : pos s1 = pos s) by apply F.
  destruct (extract_price cfg (topic msg) d) as [[[p [ts|]]|]|e|] eqn:Hp.
  - (* a tick *)
    destruct (handle_tick cfg w fuel msg d p ts s Hd Hp) as (s2 & F2 & E).
    rewrite E.
    assert (H : marked h p (snd (try_except (aggregate cfg w fuel d p ts)
                (fun _ => logger ERROR "Exception in handle()") s2))).
    { apply (hoare_try (long_at h) (marked h p)).
      - apply aggregate_mark.
      - intro. apply inv_logger. intros ? ?. apply marked_pos.
      - destruct F2 as (F2 & _). split; rewrite F2; assumption. }
    unfold observed_price. rewrite Hd, Hp.
    destruct H as [H | [L H]].
    + exists h. split; [exact H|]. split; [apply Qle_refl | left; reflexivity].
    + exists p. split; [exact H|].
      split; [apply Qlt_le_weak, L | right; reflexivity].
  - unfold handle, handle_body. rewrite Hd. unfold try_except.
    rewrite (bind_Ret _ _ _ _ _ E1). unfold bind, lift. rewrite Hp.
    apply Keep. exact P1.
  - unfold handle, handle_body. rewrite Hd. unfold try_except.
    rewrite (bind_Ret _ _ _ _ _ E1). unfold bind, lift. rewrite Hp.
    apply Keep. exact P1.
  - unfold handle, handle_body. rewrite Hd. unfold try_except.
    rewrite (bind_Ret _ _ _ _ _ E1). unfold bind, lift. rewrite Hp.
    apply Keep. exact P1.
  - unfold handle, handle_body. rewrite Hd. unfold try_except.
    rewrite (bind_Ret _ _ _ _ _ E1). unfold bind, lift. rewrite Hp.
    apply Keep. exact P1.
Qed.

End Mark.



(* ------------------------------------------------------------------ *)
(** ** Code that does not read a part of the state *)
(* ------------------------------------------------------------------ *)

Create HintDb commutes.

Section Commutes.

Variable u : state -> state.

Lemma commutes_ret {A} (a : A) : commutes u (ret a).
Proof. intro s. reflexivity. Qed.

Lemma commutes_raise {A} e : commutes u (@raise A e).
Proof. intro s. reflexivity. Qed.

Lemma commutes_diverge {A} : commutes u (@diverge A).
Proof. intro s. reflexivity. Qed.

Lemma commutes_lift {A} (r : res A) : commutes u (lift r).
Proof. intro s. reflexivity. Qed.

Lemma commutes_gets {A} (f : state -> A) :
  (forall s, f (u s) = f s) -> commutes u (gets f).
Proof. intros H s. unfold gets. rewrite H. reflexivity. Qed.

Lemma commutes_modify g :
  (forall s, g (u s) = u (g s)) -> commutes u (modify g).
Proof. intros H s. unfold modify. rewrite H. reflexivity. Qed.

Lemma commutes_bind {A B} (c : M A) (k : A -> M B) :
  commutes u c -> (forall a, commutes u (k a)) -> commutes u (bind c k).
Proof.
  intros Hc Hk s. unfold bind. rewrite Hc.
  destruct (c s) as [[a|e|] s']; simpl; try reflexivity.
  first [apply Hk | apply Hh].
Qed.

Lemma commutes_try {A} (c : M A) h :
  commutes u c -> (forall e, commutes u (h e)) -> commutes u (try_except c h).
Proof.
  intros Hc Hh s. unfold try_except. rewrite Hc.
  destruct (c s) as [[a|e|] s']; simpl; try reflexivity.
  first [apply Hk | apply Hh].
Qed.

Lemma commutes_from_bind_pre {A B} P (c : M A) (k : A -> M B) :
  commutes u c -> inv P c -> (forall a, commutes_from P u (k a)) ->
  commutes_from P u (bind c k).
Proof.
  intros Hc Hi Hk s H. unfold bind. rewrite Hc. specialize (Hi s H).
  destruct (c s) as [[a|e|] s']; simpl in *; try reflexivity.
  apply Hk, Hi.
Qed.

Lemma commutes_from_bind_post {A B} P (c : M A) (k : A -> M B) :
  commutes_from P u c -> (forall a, commutes u (k a)) ->
  commutes_from P u (bind c k).
Proof.
  intros Hc Hk s H. unfold bind. rewrite (Hc s H).
  destruct (c s) as [[a|e|] s']; simpl; try reflexivity.
  first [apply Hk | apply Hh].
Qed.

Lemma commutes_from_try {A} P (c : M A) h :
  commutes_from P u c -> (forall e, commutes u (h e)) ->
  commutes_from P u (try_except c h).
Proof.
  intros Hc Hh s H. unfold try_except. rewrite (Hc s H).
  destruct (c s) as [[a|e|] s']; simpl; try reflexivity.
  first [apply Hk | apply Hh].
Qed.

Lemma commutes_from_all {A} P (c : M A) : commutes u c -> commutes_from P u c.
Proof. intros Hc s _. apply Hc. Qed.

End Commutes.

#[local] Hint Resolve commutes_ret commutes_raise commutes_diverge commutes_lift : commutes.

(** One structural step of a proof that code commutes with an update of the
    position: the goal is split along the code, reads and writes are
    compared by computation. *)
Ltac commutes_step :=
  first
    [ solve [auto with commutes]
    | apply commutes_gets; intro; reflexivity
    | apply commutes_modify; intro; reflexivity
    | apply commutes_bind; [|intro]
    | apply commutes_try; [|intro]
    | progress cbv zeta
    | match goal with
      | |- commutes _ (match ?x with _ => _ end) => destruct x
      end ].

Ltac commutes_auto := repeat commutes_step.

Section PipelineCommutes.

(** Any rewriting of the position. *)
Variable g : position -> position.
Variable cfg : config.
Variable w : world.

Lemma commutes_logger l m : commutes (with_pos g) (logger l m).
Proof. unfold logger. commutes_auto. Qed.

Lemma commutes_sleep d : commutes (with_pos g) (sleep d).
Proof. unfold sleep. commutes_auto. Qed.

Lemma commutes_utcnow : commutes (with_pos g) (utcnow w).
Proof. intro s. reflexivity. Qed.

Lemma commutes_ask {A} k count (oracle : nat -> reply A) :
  commutes (with_pos g) (ask k count oracle).
Proof.
  intro s. unfold ask. change (ext (with_pos g s)) with (ext s).
  destruct (oracle _); reflexivity.
Qed.

Hint Resolve commutes_logger commutes_sleep commutes_utcnow commutes_ask : commutes.

Lemma commutes_create_trade oid st ty sym pr qty ts pl :
  commutes (with_pos g) (create_trade oid st ty sym pr qty ts pl).
Proof. unfold create_trade. commutes_auto. Qed.

Lemma commutes_update_trade_status oid st :
  commutes (with_pos g) (update_trade_status oid st).
Proof. unfold update_trade_status. commutes_auto. Qed.

Lemma commutes_Decimal_floordiv a b : commutes (with_pos g) (Decimal_floordiv a b).
Proof. unfold Decimal_floordiv. commutes_auto. Qed.

Lemma commutes_Decimal_div a b : commutes (with_pos g) (Decimal_div a b).
Proof. unfold Decimal_div. commutes_auto. Qed.

Lemma commutes_Decimal_quantize_down v e : commutes (with_pos g) (Decimal_quantize_down v e).
Proof. unfold Decimal_quantize_down. commutes_auto. Qed.

Hint Resolve commutes_create_trade commutes_update_trade_status
  commutes_Decimal_floordiv commutes_Decimal_div commutes_Decimal_quantize_down
  : commutes.

Lemma commutes_build_cache accts : forall c, commutes (with_pos g) (build_cache accts c).
Proof.
  induction accts as [|a r IH]; intro c; cbn [build_cache]; commutes_auto;
    apply IH.
Qed.

Hint Resolve commutes_build_cache : commutes.

Lemma commutes_get_available currency : commutes (with_pos g) (get_available w currency).
Proof. unfold get_available, kc_get_accounts. commutes_auto. Qed.

Lemma commutes_floor_price_to_tick p : commutes (with_pos g) (floor_price_to_tick cfg p).
Proof. unfold floor_price_to_tick. commutes_auto. Qed.

Hint Resolve commutes_get_available commutes_floor_price_to_tick : commutes.

Lemma commutes_submit_order side pr size :
  commutes (with_pos g) (submit_order cfg w side pr size).
Proof.
  unfold submit_order, kc_create_limit_order, kc_create_market_order, kc_get_ticker.
  commutes_auto.
Qed.

Hint Resolve commutes_submit_order : commutes.

Lemma commutes_place_order_attempts side pr size remaining :
  forall attempt delay,
    commutes (with_pos g) (place_order_attempts cfg w remaining attempt delay side pr size).
Proof.
  induction remaining as [|r IH]; intros attempt delay;
    cbn [place_order_attempts]; commutes_auto; apply IH.
Qed.

Lemma commutes_confirm_pass oid start_time :
  commutes (with_pos g) (confirm_pass w oid start_time).
Proof.
  unfold confirm_pass, kc_get_order, kc_cancel_order. commutes_auto.
Qed.

Hint Resolve commutes_place_order_attempts commutes_confirm_pass : commutes.

Lemma commutes_confirm_loop oid start_time fuel :
  commutes (with_pos g) (confirm_loop w fuel oid start_time).
Proof.
  induction fuel as [|f IH]; cbn [confirm_loop]; commutes_auto; apply IH.
Qed.

Hint Resolve commutes_confirm_loop : commutes.

(** The order pipeline never reads the position. *)
Lemma commutes_place_and_confirm_order fuel side pr size :
  commutes (with_pos g) (place_and_confirm_order cfg w fuel side pr size).
Proof.
  unfold place_and_confirm_order, place_order_with_retry. commutes_auto.
Qed.

Lemma commutes_update_balances : commutes (with_pos g) (update_balances cfg w).
Proof. unfold update_balances. commutes_auto. Qed.

Lemma commutes_predict : commutes (with_pos g) (predict w).
Proof. unfold predict, fdiv. commutes_auto. Qed.

End PipelineCommutes.

#[local] Hint Resolve commutes_logger commutes_sleep commutes_utcnow commutes_ask
  commutes_create_trade commutes_update_trade_status commutes_get_available
  commutes_place_and_confirm_order commutes_update_balances commutes_predict
  : commutes.

(* ------------------------------------------------------------------ *)
(** ** The exit decision and the stored profit target *)
(* ------------------------------------------------------------------ *)

Section ExitDecision.

Variable cfg : config.
Variable w : world.

Lemma inv_predict I :
  (forall s s', pos s' = pos s -> I s -> I s') -> inv I (predict w).
Proof.
  intro I_pos. unfold predict.
  apply inv_bind; [apply inv_gets|intro ready].
  apply inv_bind; [apply inv_gets|intro l].
  destruct (andb _ _); [|apply inv_ret].
  destruct (rev l) as [|[m1 b1] [|[m2 b2] l']]; try apply inv_ret.
  assert (Hdiv : forall a b, inv I (fdiv a b)).
  { intros a b. unfold fdiv. destruct (Num.Qeqb b 0); [apply inv_raise|apply inv_ret]. }
  repeat (apply inv_bind; [apply Hdiv|intro]). cbv zeta.
  apply inv_bind; [apply inv_modify; intro; apply I_pos; reflexivity|intro].
  apply inv_bind; [apply Hdiv|intro].
  apply inv_bind; [apply inv_logger; exact I_pos|intro]. apply inv_ret.
Qed.

(** The exit test returns the disjunction of the three tests. *)
Lemma exit_condition_spec p hw curH ts s bt :
  buy_time (pos s) = Some bt ->
  exists b, exit_condition cfg p hw curH ts s = (Ret b, s) /\
            (b = true <-> exit_tests cfg p hw curH bt ts).
Proof.
  intro Hbt. unfold exit_condition, exit_tests.
  destruct (Num.Qleb p (hw * STOP_LOSS_MULT cfg)) eqn:E1.
  { exists true. split; [reflexivity|]. apply Qleb_le in E1. tauto. }
  destruct (Num.Qltb curH 0) eqn:E2.
  { exists true. split; [reflexivity|]. apply Qltb_lt in E2. tauto. }
  unfold bind, gets. rewrite Hbt. eexists. split; [reflexivity|].
  apply Qleb_gt in E1. apply Qltb_ge in E2.
  rewrite Z.ltb_lt. split; [tauto|].
  intros [H|[H|H]]; [|  |exact H].
  - exfalso. apply (Qlt_not_le _ _ E1 H).
  - exfalso. apply (Qlt_not_le _ _ H E2).
Qed.

(** The SELL block raises the mark and then runs the exit block exactly
    when one of the three tests holds. *)
Lemma sell_branch_decision fuel p curH ts s h bt :
  high_water (pos s) = Some h ->
  buy_time (pos s) = Some bt ->
  let hw := if Num.Qltb h p then p else h in
  (exit_tests cfg p hw curH bt ts ->
   sell_branch cfg w fuel p curH ts s = exit_block cfg w fuel p ts (raise_mark h p s))
  /\
  (~ exit_tests cfg p hw curH bt ts ->
   sell_branch cfg w fuel p curH ts s = (Ret tt, raise_mark h p s)).
Proof.
  intros Hh Hbt hw.
  assert (Hbt' : buy_time (pos (raise_mark h p s)) = Some bt).
  { unfold raise_mark. destruct (Num.Qltb h p); exact Hbt. }
  destruct (exit_condition_spec p hw curH ts _ bt Hbt') as (b & E & Hb).
  assert (Hs : sell_branch cfg w fuel p curH ts s
               = (if b then exit_block cfg w fuel p ts else ret tt) (raise_mark h p s)).
  { unfold sell_branch.
    rewrite (bind_Ret _ _ s (Some h) s) by (unfold gets; rewrite Hh; reflexivity).
    rewrite (bind_Ret _ _ s tt (raise_mark h p s))
      by (unfold raise_mark; destruct (Num.Qltb h p); reflexivity).
    fold hw. rewrite (bind_Ret _ _ _ _ _ E). reflexivity. }
  rewrite Hs. split; intro H.
  - apply Hb in H. subst b. reflexivity.
  - destruct b; [exfalso; apply H, Hb; reflexivity | reflexivity].
Qed.

(** *** Nothing in a cycle entered in position reads [exit_price] *)

Variable e : Q.

Lemma commutes_deal_of filled : commutes (retarget e) (deal_of filled).
Proof. unfold deal_of. commutes_auto. Qed.

Lemma commutes_exit_quantity raw_q : commutes (retarget e) (exit_quantity cfg raw_q).
Proof. unfold exit_quantity. commutes_auto. Qed.

Lemma commutes_exit_condition p hw curH ts :
  commutes (retarget e) (exit_condition cfg p hw curH ts).
Proof. unfold exit_condition. commutes_auto. Qed.

Hint Resolve commutes_deal_of commutes_exit_quantity commutes_exit_condition : commutes.

Lemma commutes_place_sell fuel p qty ts :
  commutes (retarget e) (place_sell cfg w fuel p qty ts).
Proof. unfold place_sell, retarget. commutes_auto. Qed.

Hint Resolve commutes_place_sell : commutes.

Lemma commutes_exit_block fuel p ts :
  commutes (retarget e) (exit_block cfg w fuel p ts).
Proof. unfold exit_block. commutes_auto. Qed.

Hint Resolve commutes_exit_block : commutes.

Lemma commutes_sell_branch fuel p curH ts :
  commutes (retarget e) (sell_branch cfg w fuel p curH ts).
Proof. unfold sell_branch. commutes_auto. Qed.

Lemma in_pos_pos s s' : pos s' = pos s -> in_pos s -> in_pos s'.
Proof. unfold in_pos. intros ->. auto. Qed.

Lemma commutes_decide fuel p ts sg :
  commutes_from in_pos (retarget e) (decide cfg w fuel p ts sg).
Proof.
  intros s H. destruct sg as [[curH curL] hl_diff].
  unfold decide, bind, gets.
  change (in_position (pos (retarget e s))) with (in_position (pos s)).
  rewrite H. cbn [negb andb].
  apply commutes_sell_branch.
Qed.

Lemma commutes_evaluate fuel p ts :
  commutes_from in_pos (retarget e) (evaluate cfg w fuel p ts).
Proof.
  unfold evaluate.
  apply commutes_from_bind_pre.
  - unfold retarget. apply commutes_predict.
  - apply inv_predict. intros ? ?. apply in_pos_pos.
  - intros [sg|]; [apply commutes_decide|].
    apply commutes_from_all, commutes_ret.
Qed.

Lemma commutes_aggregate fuel d p ts :
  commutes_from in_pos (retarget e) (aggregate cfg w fuel d p ts).
Proof.
  unfold aggregate. cbv zeta.
  apply commutes_from_bind_pre;
    [apply commutes_gets; intro; reflexivity | apply inv_gets | intros [b|]].
  - destruct (_ <? _)%Z.
    + apply commutes_from_bind_pre.
      * apply commutes_modify. intro. reflexivity.
      * apply inv_modify. intro s. apply in_pos_pos. reflexivity.
      * intros _. apply commutes_from_bind_post; [apply commutes_evaluate|].
        intros _. commutes_auto.
    + apply commutes_from_all. commutes_auto.
  - apply commutes_from_all. commutes_auto.
Qed.

(** A cycle of [handle] entered in position runs the same whatever the
    stored profit target is. *)
Lemma commutes_handle fuel msg :
  commutes_from in_pos (retarget e) (handle cfg w fuel msg).
Proof.
  unfold handle, handle_body.
  apply commutes_from_try; [|intro; unfold retarget; commutes_auto].
  destruct (data msg) as [d|]; [|apply commutes_from_all, commutes_ret].
  apply commutes_from_bind_pre.
  - unfold retarget. apply commutes_update_balances.
  - apply inv_update_balances. intros ? ?. apply in_pos_pos.
  - intros _. apply commutes_from_bind_pre;
      [apply commutes_lift | apply inv_lift | intros [[p [ts|]]|]].
    + apply commutes_aggregate.
    + apply commutes_from_all, commutes_raise.
    + apply commutes_from_all, commutes_ret.
Qed.

End ExitDecision.

Section ProfitTarget.

Variable cfg : config.
Variable w : world.

(** A confirmed entry stores the target next to the entry price. *)
Lemma place_buy_sets_target fuel avail price_dec qty ts s :
  in_position (pos s) = false ->
  in_position (pos (snd (place_buy cfg w fuel avail price_dec qty ts s))) = true ->
  exit_price (pos (snd (place_buy cfg w fuel avail price_dec qty ts s)))
  = BP (pos (snd (place_buy cfg w fuel avail price_dec qty ts s)))
    * PROFIT_TARGET_MULT cfg.
Proof.
  intros Hflat.
  remember (place_buy cfg w fuel avail price_dec qty ts s) as R eqn:HR.
  unfold place_buy, bind, logger, modify, try_except, ret in HR.
  cbv beta iota in HR.
  set (s1 := with_ext (add_log INFO "BUY request")
               (with_pos (set_DV_before_trade avail) s)) in HR.
  assert (H1 : in_position (pos s1) = false) by exact Hflat.
  pose proof (inv_place_and_confirm_order
                (fun s0 => in_position (pos s0) = false)
                (fun s0 s' E H => eq_trans (f_equal in_position E) H)
                cfg w fuel "buy" (Some price_dec) (Num.py_round qty 8) s1 H1) as Hp.
  destruct (place_and_confirm_order cfg w fuel "buy" (Some price_dec)
              (Num.py_round qty 8) s1) as [[filled|ex|] s2]; simpl in Hp.
  - unfold deal_of, bind, lift, ret in HR.
    destruct (float_field (o_dealPrice filled) (Raise KeyError)) as [fp|ex|];
      [|subst R; cbn; congruence..].
    destruct (float_field (o_dealSize filled) (Raise KeyError)) as [fs|ex|];
      subst R; cbn; congruence.
  - subst R. cbn. congruence.
  - subst R. cbn. congruence.
Qed.

(** Reconciliation restores the position from the row of the filled BUY. *)
Lemma restore_position_spec t s :
  exists s', restore_position cfg w t s = (Ret tt, s') /\
    in_position (pos s') = true /\ BP (pos s') = price t /\
    buy_time (pos s') = Some (timestamp t) /\
    high_water (pos s') = Some (price t) /\
    exit_price (pos s') = price t * PROFIT_TARGET_MULT cfg /\
    ledger s' = ledger s /\ requests (ext s') = requests (ext s).
Proof.
  unfold restore_position.
  unfold bind at 1. unfold modify at 1. cbv beta iota.
  match goal with |- context [bind _ _ ?s0] => set (s1 := s0) end.
  destruct (get_available_frame w (QUOTE cfg) s1) as (dv & s2 & E & F).
  rewrite (bind_Ret _ _ _ _ _ E).
  destruct F as (Fp & _ & _ & _ & Fl & _ & _ & Fr & _).
  eexists. split; [reflexivity|]. cbn. rewrite Fp, Fl, Fr. cbn. intuition.
Qed.

End ProfitTarget.



(* ------------------------------------------------------------------ *)
(** ** Reconciliation *)
(* ------------------------------------------------------------------ *)

Lemma same_engine_ext f s : same_engine s (with_ext f s).
Proof. unfold same_engine. simpl. intuition. Qed.

Lemma same_engine_trans s1 s2 s3 :
  same_engine s1 s2 -> same_engine s2 s3 -> same_engine s1 s3.
Proof. unfold same_engine. intuition congruence. Qed.

Lemma pending_single l1 t l2 :
  Forall (fun r => is_final (status r) = true) l1 ->
  Forall (fun r => is_final (status r) = true) l2 ->
  is_final (status t) = false ->
  pending_trades (l1 ++ t :: l2) = [t].
Proof.
  intros H1 H2 Ht. unfold pending_trades.
  assert (Hnil : forall l, Forall (fun r => is_final (status r) = true) l ->
            filter (fun t0 => negb (is_final (status t0))) l = []).
  { induction l as [|r l IH]; intro H; [reflexivity|].
    inversion H; subst. simpl. rewrite H4. simpl. apply IH. assumption. }
  rewrite filter_app. simpl. rewrite Ht. simpl.
  rewrite (Hnil l1 H1), (Hnil l2 H2). reflexivity.
Qed.

Lemma update_first_at oid st l1 t l2 :
  Forall (fun r => order_id r <> oid) l1 ->
  order_id t = oid ->
  update_first oid st (l1 ++ t :: l2)
  = Some (set_status st t, (l1 ++ set_status st t :: l2)%list).
Proof.
  intros H1 Ht. induction l1 as [|r l1 IH]; simpl.
  - rewrite Ht, String.eqb_refl. reflexivity.
  - inversion H1; subst.
    destruct (String.eqb (order_id r) (order_id t)) eqn:E.
    + apply String.eqb_eq in E. contradiction.
    + rewrite (IH H3). reflexivity.
Qed.

(** A status update keyed by an order id rewrites the first row that
    carries it, whatever the status of that row. *)
Lemma update_trade_status_at st l1 t l2 s :
  ledger s = (l1 ++ t :: l2)%list ->
  Forall (fun r => order_id r <> order_id t) l1 ->
  update_trade_status (Some (order_id t)) st s
  = (Ret (Some (set_status st t)),
     with_ext (add_log INFO "[db] Updated trade")
       (with_ledger (fun _ => (l1 ++ set_status st t :: l2)%list) s)).
Proof.
  intros Hl Hids. unfold update_trade_status, bind, gets.
  rewrite Hl, (update_first_at (order_id t) st l1 t l2 Hids eq_refl).
  reflexivity.
Qed.

Section Reconciliation.

Variable cfg : config.
Variable w : world.

(** The fetch with retry returns the order the exchange reports. *)
Lemma fetch_order_reports oid s d :
  exchange_reports w (n_get_order (ext s)) d ->
  exists s1, fetch_order_with_retry w oid s = (Ret (Some d), s1) /\
             same_engine s s1.
Proof.
  intros (k & Hk & Hfail & Hd).
  unfold fetch_order_with_retry.
  destruct k as [|[|[|k]]]; [| | |lia].
  - rewrite Nat.add_0_r in Hd.
    cbn [fetch_order_attempts]. unfold try_except, bind, kc_get_order, ask.
    rewrite Hd. eexists. split; [reflexivity|]. apply same_engine_ext.
  - destruct (Hfail 0%nat) as (m0 & H0); [lia|].
    rewrite Nat.add_0_r in H0. rewrite Nat.add_1_r in Hd.
    cbn [fetch_order_attempts]. unfold try_except, bind, kc_get_order, ask.
    rewrite H0. cbn. rewrite Hd.
    eexists. split; [reflexivity|]. unfold same_engine. cbn. intuition.
  - destruct (Hfail 0%nat) as (m0 & H0); [lia|].
    destruct (Hfail 1%nat) as (m1 & H1); [lia|].
    rewrite Nat.add_0_r in H0. rewrite Nat.add_1_r in H1.
    replace (n_get_order (ext s) + 2)%nat with (S (S (n_get_order (ext s)))) in Hd by lia.
    cbn [fetch_order_attempts]. unfold try_except, bind, kc_get_order, ask.
    rewrite H0. cbn. rewrite H1. cbn. rewrite Hd.
    eexists. split; [reflexivity|]. unfold same_engine. cbn. intuition.
Qed.

End Reconciliation.

Section Convergence.

Variable cfg : config.
Variable w : world.

(** One pending BUY that the exchange reports inactive with a deal. *)
Lemma sync_one_filled t s l1 l2 d :
  ledger s = (l1 ++ t :: l2)%list ->
  Forall (fun r => order_id r <> order_id t) l1 ->
  status t = "open" ->
  Str.lower (type t) = "buy" ->
  exchange_reports w (n_get_order (ext s)) d ->
  o_isActive d = Some false ->
  Str.lower (Str.or_empty (o_opType d)) = "deal" ->
  exists s', sync_one cfg w t s = (Ret true, s') /\
    ledger s' = (l1 ++ set_status "filled" t :: l2)%list /\
    in_position (pos s') = true /\ BP (pos s') = price t /\
    buy_time (pos s') = Some (timestamp t).
Proof.
  intros Hl Hids Hst Hty Hrep Hact Hop.
  destruct (fetch_order_reports w (order_id t) s d Hrep) as (s1 & Ef & F1).
  assert (Hl1 : ledger s1 = (l1 ++ t :: l2)%list).
  { destruct F1 as (_ & _ & _ & _ & _ & F & _). rewrite F. exact Hl. }
  unfold sync_one.
  match goal with |- context [try_except ?c ?h] =>
    assert (E1 : try_except c h s
                 = (Ret (Some ("deal", false)),
                    with_ext (add_log INFO "Order id's response") s1))
  end.
  { apply try_Ret. rewrite (bind_Ret _ _ _ _ _ Ef).
    unfold bind, logger, modify, ret. rewrite Hop, Hact. reflexivity. }
  rewrite (bind_Ret _ _ _ _ _ E1). cbv beta iota.
  change (map_op_type "deal") with "filled". rewrite Hst.
  replace (negb (String.eqb "filled" "open")) with true by reflexivity.
  cbv iota.
  unfold bind at 1. unfold logger at 1. unfold modify at 1. cbv beta iota.
  match goal with |- context [bind (update_trade_status _ _) _ ?s0] =>
    pose proof (update_trade_status_at "filled" l1 t l2 s0 Hl1 Hids) as E2
  end.
  rewrite (bind_Ret _ _ _ _ _ E2).
  rewrite Hty.
  replace (andb (String.eqb "buy" "buy") (String.eqb "filled" "filled"))
    with true by reflexivity.
  cbv iota.
  match goal with |- context [bind (restore_position cfg w t) _ ?s0] =>
    destruct (restore_position_spec cfg w t s0)
      as (s3 & E3 & Hin & Hbp & Hbt & _ & _ & Hl3 & _)
  end.
  rewrite (bind_Ret _ _ _ _ _ E3). unfold ret.
  eexists. split; [reflexivity|].
  rewrite Hl3. cbn. auto.
Qed.

End Convergence.

(** C1. From a ledger whose only record that is not final is a BUY with
    status "open" (no earlier record carrying its order id), if the exchange
    reports that order inactive with operation type "deal", one run of
    [sync_open_trades] returns with that record "filled" and the position
    open, the entry price being the record's price and the entry time its
    timestamp. *)
Theorem reconciliation_convergence cfg w s l1 t l2 d :
  ledger s = (l1 ++ t :: l2)%list ->
  Forall (fun r => is_final (status r) = true /\ order_id r <> order_id t) l1 ->
  Forall (fun r => is_final (status r) = true) l2 ->
  status t = "open" ->
  Str.lower (type t) = "buy" ->
  exchange_reports w (n_get_order (ext s)) d ->
  o_isActive d = Some false ->
  Str.lower (Str.or_empty (o_opType d)) = "deal" ->
  exists s',
    sync_open_trades cfg w s = (Ret tt, s') /\
    ledger s' = (l1 ++ set_status "filled" t :: l2)%list /\
    status (set_status "filled" t) = "filled" /\
    in_position (pos s') = true /\
    BP (pos s') = price t /\
    buy_time (pos s') = Some (timestamp t).
Proof.
  intros Hl H1 H2 Hst Hty Hrep Hact Hop.
  assert (H1a : Forall (fun r => is_final (status r) = true) l1).
  { eapply Forall_impl; [|exact H1]. intros r [H _]. exact H. }
  assert (H1b : Forall (fun r => order_id r <> order_id t) l1).
  { eapply Forall_impl; [|exact H1]. intros r [_ H]. exact H. }
  unfold sync_open_trades.
  unfold bind at 1. unfold gets at 1. cbv beta iota.
  rewrite Hl, (pending_single l1 t l2 H1a H2) by (rewrite Hst; reflexivity).
  unfold bind at 1. unfold logger at 1. unfold modify at 1. cbv beta iota.
  cbn [sync_loop].
  destruct (sync_one_filled cfg w t
              (with_ext (add_log INFO "sync_open_trades: found trade(s) to sync") s)
              l1 l2 d)
    as (s1 & E1 & Hl1 & Hin & Hbp & Hbt); try assumption.
  rewrite (bind_Ret _ _ _ _ _ (bind_Ret _ _ _ _ _ E1)).
  unfold logger, modify, ret. cbv beta iota.
  eexists. split; [reflexivity|]. cbn. auto.
Qed.

Lemma reconciliation_convergence_witness :
  exists s',
    sync_open_trades Scenario.kcs_usdt Scenario.calm Scenario.restarted = (Ret tt, s') /\
    ledger s' = [set_status "filled" Scenario.open_buy] /\
    status (set_status "filled" Scenario.open_buy) = "filled" /\
    in_position (pos s') = true /\
    BP (pos s') = 10 /\
    buy_time (pos s') = Some (5 * NS_PER_SECOND)%Z.
Proof.
  apply (reconciliation_convergence Scenario.kcs_usdt Scenario.calm
           Scenario.restarted [] Scenario.open_buy []
           (Scenario.order "A1" (Some "done") (Some false) (Some "DEAL")));
    try reflexivity; try (constructor; fail).
  exists 0%nat. split; [lia|]. split; [intros j Hj; lia | reflexivity].
Defined.

(* ------------------------------------------------------------------ *)
(** ** Submission with retry *)
(* ------------------------------------------------------------------ *)

Lemma failed_attempts_log l m s :
  failed_attempt (l, m) = false ->
  failed_attempts (with_ext (add_log l m) s) = failed_attempts s.
Proof.
  intro H. unfold failed_attempts. cbn [ext with_ext log add_log].
  rewrite filter_app. cbn [filter]. rewrite H.
  rewrite app_nil_r. reflexivity.
Qed.

Section EndsIn.

Variable I : state -> Prop.

Lemma ends_ret {A} (a : A) : ends_in I (ret a).
Proof. intros s H. split; [discriminate | exact H]. Qed.

Lemma ends_raise {A} e : ends_in I (@raise A e).
Proof. intros s H. split; [discriminate | exact H]. Qed.

Lemma ends_gets {A} (f : state -> A) : ends_in I (gets f).
Proof. intros s H. split; [discriminate | exact H]. Qed.

Lemma ends_lift {A} (r : res A) : r <> Diverge -> ends_in I (lift r).
Proof. intros Hr s H. split; [exact Hr | exact H]. Qed.

Lemma ends_modify f : (forall s, I s -> I (f s)) -> ends_in I (modify f).
Proof. intros Hf s H. split; [discriminate | apply Hf, H]. Qed.

Lemma ends_bind {A B} (c : M A) (k : A -> M B) :
  ends_in I c -> (forall a, ends_in I (k a)) -> ends_in I (bind c k).
Proof.
  intros Hc Hk s H. unfold bind. destruct (Hc s H) as [Hn Hi].
  destruct (c s) as [[a|e|] s']; simpl in *.
  - apply Hk, Hi.
  - split; [discriminate | exact Hi].
  - contradiction.
Qed.

Lemma ends_try {A} (c : M A) h :
  ends_in I c -> (forall e, ends_in I (h e)) -> ends_in I (try_except c h).
Proof.
  intros Hc Hh s H. unfold try_except. destruct (Hc s H) as [Hn Hi].
  destruct (c s) as [[a|e|] s']; simpl in *.
  - split; [discriminate | exact Hi].
  - apply Hh, Hi.
  - contradiction.
Qed.

End EndsIn.

Lemma float_field_ends f (d : res Q) : d <> Diverge -> float_field f d <> Diverge.
Proof. intro H. destruct f; simpl; [exact H | discriminate | discriminate]. Qed.

Section Submission.

Variable cfg : config.
Variable w : world.
Variables (sl : list Q) (n : nat).

Lemma trace_log l m s : failed_attempt (l, m) = false -> trace_is sl n s -> trace_is sl n (with_ext (add_log l m) s).
Proof.
  intros Hm [Hs Hf]. split; [exact Hs|].
  rewrite failed_attempts_log by exact Hm. exact Hf.
Qed.

Lemma trace_same s s' :
  sleeps (ext s') = sleeps (ext s) -> log (ext s') = log (ext s) -> trace_is sl n s -> trace_is sl n s'.
Proof.
  intros E1 E2 [Hs Hf]. split; [congruence|].
  unfold failed_attempts in *. rewrite E2. exact Hf.
Qed.

Lemma ends_utcnow : ends_in (trace_is sl n) (utcnow w).
Proof.
  intros s H. split; [discriminate|]. revert H. apply trace_same; reflexivity.
Qed.

Lemma ends_ask {A} k count (oracle : nat -> reply A) : ends_in (trace_is sl n) (ask k count oracle).
Proof.
  intros s H. unfold ask.
  destruct (oracle _); (split; [discriminate|]);
    revert H; apply trace_same; reflexivity.
Qed.

(** One structural step for code that neither sleeps nor logs a failed
    attempt. *)
Ltac trace_step :=
  first
    [ apply ends_ret | apply ends_raise | apply ends_gets
    | apply ends_utcnow | apply ends_ask
    | apply ends_lift; repeat apply float_field_ends; discriminate
    | apply ends_modify; intro;
      first [ apply trace_log; reflexivity | apply trace_same; reflexivity ]
    | apply ends_bind; [|intro]
    | apply ends_try; [|intro]
    | progress cbv zeta
    | match goal with
      | |- ends_in _ (match ?x with _ => _ end) => destruct x
      end ].

(** One attempt ends, takes no sleep and logs no failed attempt itself. *)
Lemma submit_order_trace side pr size :
  ends_in (trace_is sl n) (submit_order cfg w side pr size).
Proof.
  unfold submit_order, kc_create_limit_order, kc_create_market_order,
    kc_get_ticker, floor_price_to_tick, Decimal_floordiv,
    Decimal_quantize_down, create_trade.
  repeat trace_step.
Qed.

End Submission.

Lemma failed_attempts_failed s :
  failed_attempts (with_ext (add_log ERROR "order attempt failed") s)
  = S (failed_attempts s).
Proof.
  unfold failed_attempts. cbn [ext with_ext log add_log].
  rewrite filter_app, length_app. cbn. lia.
Qed.

Section Retry.

Variable cfg : config.
Variable w : world.

(** The loop from attempt number [attempt] with [remaining] attempts left:
    every failed attempt is logged, each one but the last is followed by a
    sleep of the current delay, which then doubles, and the loop ends with
    an order or with the error of the last attempt. *)
Lemma place_order_attempts_policy side pr size remaining :
  forall attempt delay s,
    (attempt + remaining = 6)%nat -> (1 <= remaining)%nat ->
    let r := place_order_attempts cfg w remaining attempt delay side pr size s in
    exists failures,
      (failures <= remaining)%nat /\
      sleeps (ext (snd r))
      = (sleeps (ext s) ++ firstn failures (backoff delay (remaining - 1)))%list /\
      failed_attempts (snd r) = (failed_attempts s + failures)%nat /\
      ((exists order, fst r = Ret (Some order) /\ (failures < remaining)%nat) \/
       (exists e, fst r = Raise e /\ failures = remaining)).
Proof.
  induction remaining as [|r IH]; intros attempt delay s Hsum Hpos R; [lia|].
  subst R.
  remember (place_order_attempts cfg w (S r) attempt delay side pr size s) as R eqn:HR.
  cbn [place_order_attempts] in HR. unfold try_except in HR. unfold bind at 1 in HR.
  destruct (submit_order_trace cfg w (sleeps (ext s)) (failed_attempts s)
              side pr size s (conj eq_refl eq_refl)) as (Hend & Hsl & Hfa).
  destruct (submit_order cfg w side pr size s) as [[order|e|] s1];
    cbn [fst snd] in *; [| |contradiction].
  - unfold ret in HR. subst R. exists 0%nat. cbn [fst snd firstn].
    rewrite app_nil_r, Nat.add_0_r.
    repeat split; [lia | exact Hsl | exact Hfa |].
    left. exists order. split; [reflexivity | lia].
  - unfold bind at 1 in HR. unfold logger at 1 in HR. unfold modify at 1 in HR.
    cbv beta iota in HR.
    set (s2 := with_ext (add_log ERROR "order attempt failed") s1) in HR.
    assert (Hsl2 : sleeps (ext s2) = sleeps (ext s)) by exact Hsl.
    assert (Hfa2 : failed_attempts s2 = S (failed_attempts s)).
    { unfold s2. rewrite failed_attempts_failed, Hfa. reflexivity. }
    unfold MAX_ORDER_RETRIES in HR.
    destruct (Nat.eqb attempt 5) eqn:E5.
    + apply Nat.eqb_eq in E5.
      unfold bind, logger, modify, raise in HR. subst R.
      exists 1%nat. cbn [fst snd].
      assert (r = 0)%nat by lia. subst r. cbn [Nat.sub backoff firstn].
      rewrite app_nil_r.
      repeat split; [lia | | |].
      * exact Hsl2.
      * rewrite failed_attempts_log by reflexivity. rewrite Hfa2. lia.
      * right. exists e. split; reflexivity.
    + apply Nat.eqb_neq in E5.
      unfold bind at 1 in HR. unfold sleep at 1 in HR. unfold modify at 1 in HR.
      cbv beta iota in HR.
      set (s3 := with_ext (add_sleep delay) s2) in HR.
      destruct (IH (S attempt) (delay * 2) s3) as (f & Hf & Hs & Ha & Hr);
        [lia | lia |].
      rewrite <- HR in Hs, Ha, Hr.
      exists (S f).
      assert (Hb : backoff delay (S r - 1) = delay :: backoff (delay * 2) (r - 1)).
      { destruct r; [lia|]. cbn. rewrite Nat.sub_0_r. reflexivity. }
      rewrite Hb. cbn [firstn].
      repeat split; [lia | | |].
      * rewrite Hs. unfold s3. cbn [ext with_ext sleeps add_sleep].
        rewrite Hsl2, <- app_assoc. reflexivity.
      * rewrite Ha.
        assert (failed_attempts s3 = failed_attempts s2) as -> by reflexivity.
        rewrite Hfa2. lia.
      * destruct Hr as [(order & Ho & Hlt) | (e' & He & Heq)].
        -- left. exists order. split; [exact Ho | lia].
        -- right. exists e'. split; [exact He | lia].
Qed.

(** [handle] swallows whatever is raised inside it. *)
Lemma handle_never_raises fuel msg s e :
  fst (handle cfg w fuel msg s) <> Raise e.
Proof.
  unfold handle, try_except.
  destruct (handle_body cfg w fuel msg s) as [[[]|e'|] s']; cbn; discriminate.
Qed.

(** An error of the submission goes through the confirmation step as it is. *)
Lemma place_and_confirm_propagates fuel side pr size s e s1 :
  place_order_with_retry cfg w side pr size s = (Raise e, s1) ->
  place_and_confirm_order cfg w fuel side pr size s = (Raise e, s1).
Proof. intro H. unfold place_and_confirm_order. apply bind_Raise. exact H. Qed.

(** The pipeline keeps the position. *)
Lemma place_and_confirm_keeps_pos fuel side pr size s :
  pos (snd (place_and_confirm_order cfg w fuel side pr size s)) = pos s.
Proof.
  apply (inv_place_and_confirm_order (fun s' => pos s' = pos s)); [|reflexivity].
  intros s0 s' E H. congruence.
Qed.

(** A failed BUY attempt is logged and the cycle goes on, flat as before. *)
Lemma place_buy_failure fuel avail price_dec qty ts s e s1 :
  place_and_confirm_order cfg w fuel "buy" (Some price_dec) (Num.py_round qty 8)
    (at_buy_call avail s) = (Raise e, s1) ->
  place_buy cfg w fuel avail price_dec qty ts s
  = (Ret tt, with_ext (add_log WARNING "BUY failed; continuing") s1) /\
  pos s1 = set_DV_before_trade avail (pos s).
Proof.
  intro H. split.
  - unfold place_buy. unfold bind at 1. unfold modify at 1.
    unfold bind at 1. unfold logger at 1. unfold modify at 1. cbv beta iota.
    fold (at_buy_call avail s).
    unfold bind at 1. unfold try_except. unfold bind at 1. rewrite H.
    reflexivity.
  - pose proof (place_and_confirm_keeps_pos fuel "buy" (Some price_dec)
                  (Num.py_round qty 8) (at_buy_call avail s)) as K.
    rewrite H in K. exact K.
Qed.

(** A failed SELL attempt is logged and the cycle goes on, in position as
    before. *)
Lemma place_sell_failure fuel p qty ts s e s1 :
  place_and_confirm_order cfg w fuel "sell" (Some p) (Num.py_round qty 8)
    (at_sell_call s) = (Raise e, s1) ->
  place_sell cfg w fuel p qty ts s
  = (Ret tt, with_ext (add_log WARNING "SELL failed; continuing") s1) /\
  pos s1 = pos s.
Proof.
  intro H. split.
  - unfold place_sell. unfold bind at 1. unfold logger at 1. unfold modify at 1.
    cbv beta iota. fold (at_sell_call s).
    unfold bind at 1. unfold try_except. unfold bind at 1. rewrite H.
    reflexivity.
  - pose proof (place_and_confirm_keeps_pos fuel "sell" (Some p)
                  (Num.py_round qty 8) (at_sell_call s)) as K.
    rewrite H in K. exact K.
Qed.

End Retry.

(** C8. A submission is attempted at most five times: every failed attempt
    is logged, the failed attempts but the fifth are each followed by a
    sleep, of 1 second first and of twice the previous delay after that, and
    the call ends with the order of the first attempt that succeeds or, when
    the fifth attempt fails too, with its error. That error goes through
    [place_and_confirm_order] to the BUY and SELL blocks, which log it and
    finish the cycle with the position flag as it was; [handle] itself never
    raises. *)
Theorem submission_retry_policy cfg w :
  (forall side pr size s,
     let r := place_order_with_retry cfg w side pr size s in
     exists failures,
       (failures <= 5)%nat /\
       sleeps (ext (snd r)) = (sleeps (ext s) ++ firstn failures [1; 2; 4; 8])%list /\
       failed_attempts (snd r) = (failed_attempts s + failures)%nat /\
       ((exists order, fst r = Ret (Some order) /\ (failures < 5)%nat) \/
        (exists e, fst r = Raise e /\ failures = 5%nat)))
  /\
  (forall fuel side pr size s e s1,
     place_order_with_retry cfg w side pr size s = (Raise e, s1) ->
     place_and_confirm_order cfg w fuel side pr size s = (Raise e, s1))
  /\
  (forall fuel avail price_dec qty ts s e s1,
     place_and_confirm_order cfg w fuel "buy" (Some price_dec) (Num.py_round qty 8)
       (at_buy_call avail s) = (Raise e, s1) ->
     exists s', place_buy cfg w fuel avail price_dec qty ts s = (Ret tt, s') /\
                in_position (pos s') = in_position (pos s))
  /\
  (forall fuel p qty ts s e s1,
     place_and_confirm_order cfg w fuel "sell" (Some p) (Num.py_round qty 8)
       (at_sell_call s) = (Raise e, s1) ->
     exists s', place_sell cfg w fuel p qty ts s = (Ret tt, s') /\
                in_position (pos s') = in_position (pos s))
  /\
  (forall fuel msg s e, fst (handle cfg w fuel msg s) <> Raise e).
Proof.
  split.
  { intros side pr size s.
    exact (place_order_attempts_policy cfg w side pr size 5 1%nat 1 s eq_refl
             (le_S _ _ (le_S _ _ (le_S _ _ (le_S _ _ (le_n 1)))))). }
  split; [intros; apply place_and_confirm_propagates; assumption|].
  split.
  { intros fuel avail price_dec qty ts s e s1 H.
    destruct (place_buy_failure cfg w fuel avail price_dec qty ts s e s1 H) as [E P].
    eexists. split; [exact E|]. cbn. rewrite P. reflexivity. }
  split.
  { intros fuel p qty ts s e s1 H.
    destruct (place_sell_failure cfg w fuel p qty ts s e s1 H) as [E P].
    eexists. split; [exact E|]. cbn. rewrite P. reflexivity. }
  intros. apply handle_never_raises.
Qed.

Lemma submission_retry_policy_witness :
  let r := place_order_with_retry Scenario.kcs_usdt Scenario.refusing
             "buy" (Some 10) 1 Scenario.initial in
  fst r = Raise (KucoinAPIException "Balance insufficient") /\
  sleeps (ext (snd r)) = [1; 2; 4; 8] /\
  place_and_confirm_order Scenario.kcs_usdt Scenario.refusing 3
    "buy" (Some 10) 1 Scenario.initial
  = (Raise (KucoinAPIException "Balance insufficient"), snd r).
Proof.
  intro r. split; [reflexivity|]. split; [reflexivity|].
  apply (proj1 (proj2 (submission_retry_policy Scenario.kcs_usdt Scenario.refusing))).
  reflexivity.
Defined.

(* ------------------------------------------------------------------ *)
(** ** Confirmation timeout *)
(* ------------------------------------------------------------------ *)

(** A status update returns; what follows it is run in the updated state. *)
Lemma update_then_raise {A} oid st e s :
  (update_trade_status oid st ;; @raise A e) s
  = (Raise e, snd (update_trade_status oid st s)).
Proof.
  unfold update_trade_status, logger.
  unfold bind, gets, modify, ret, raise.
  destruct oid as [o|]; [|reflexivity].
  destruct (update_first o st (ledger s)) as [[t0 l']|]; reflexivity.
Qed.

Section Timeout.

Variable cfg : config.
Variable w : world.

(** Passes that ask for another pass only postpone the loop. *)
Lemma confirm_loop_after oid start k : forall s sk fuel,
  after_polls w oid start k s = Some sk ->
  confirm_loop w (k + fuel) oid start s = confirm_loop w fuel oid start sk.
Proof.
  induction k as [|k IH]; intros s sk fuel H; simpl in H.
  - injection H as <-. reflexivity.
  - cbn [Nat.add confirm_loop]. unfold bind at 1.
    destruct (confirm_pass w oid start s) as [[[st|]|e|] s1]; try discriminate.
    apply IH. exact H.
Qed.

(** The pass that finds the order active when the time is up: the cancel
    request is sent; when it returns, the row is marked and the timeout is
    raised; when it raises, its error ends the pass at once. *)
Lemma confirm_pass_timeout oid start s st :
  get_order w (n_get_order (ext s)) = Reply st ->
  o_isActive st = Some true ->
  (60 * NS_PER_SECOND < clock w (n_clock (ext s)) - start)%Z ->
  match cancel_order w (n_cancel (ext s)) with
  | Reply _ =>
      exists s1,
        requests (ext s1) = (requests (ext s) ++ [CancelOrder oid])%list /\
        ledger s1 = ledger s /\ pos s1 = pos s /\
        confirm_pass w oid start s
        = (Raise (timeout_error oid), snd (update_trade_status oid "canceled" s1))
  | Fails e =>
      exists s1,
        requests (ext s1) = (requests (ext s) ++ [CancelOrder oid])%list /\
        ledger s1 = ledger s /\ pos s1 = pos s /\
        confirm_pass w oid start s = (Raise e, s1)
  end.
Proof.
  intros Hget Hact Hlate.
  apply Z.ltb_lt in Hlate.
  remember (confirm_pass w oid start s) as R eqn:HR.
  unfold confirm_pass in HR.
  unfold bind at 1 in HR. unfold try_except, bind at 1, kc_get_order, ask in HR.
  rewrite Hget in HR. unfold ret at 1 in HR. cbv beta iota in HR.
  rewrite Hact in HR. cbn [negb] in HR.
  unfold bind at 1 in HR. unfold utcnow at 1 in HR.
  cbn [ext with_ext bump n_clock Nat.eqb] in HR.
  rewrite Hlate in HR.
  unfold bind at 1 in HR. unfold logger at 1 in HR. unfold modify at 1 in HR.
  cbv beta iota in HR.
  unfold bind at 1 in HR. unfold kc_cancel_order, bind at 1, modify at 1, ask in HR.
  cbn [ext with_ext bump add_log add_request n_cancel Nat.eqb] in HR.
  destruct (cancel_order w (n_cancel (ext s))) as [[]|e]; subst R.
  - eexists. split; [|split; [|split; [|apply update_then_raise]]]; reflexivity.
  - eexists. split; [|split; [|split; [|reflexivity]]]; reflexivity.
Qed.

End Timeout.

Section TimeoutPipeline.

Variable cfg : config.
Variable w : world.

(** The pipeline from a successful submission to the pass that finds the
    order active when the time is up. *)
Lemma place_and_confirm_timeout fuel side pr size s0 order s1 oid k sk st :
  place_order_with_retry cfg w side pr size s0 = (Ret (Some order), s1) ->
  Str.or_else (o_orderId order) (o_id order) = oid ->
  after_polls w oid (clock w (n_clock (ext s1))) k (with_ext (bump 0) s1) = Some sk ->
  (k < fuel)%nat ->
  get_order w (n_get_order (ext sk)) = Reply st ->
  o_isActive st = Some true ->
  (60 * NS_PER_SECOND < clock w (n_clock (ext sk)) - clock w (n_clock (ext s1)))%Z ->
  match cancel_order w (n_cancel (ext sk)) with
  | Reply _ =>
      exists s2,
        requests (ext s2) = (requests (ext sk) ++ [CancelOrder oid])%list /\
        ledger s2 = ledger sk /\
        place_and_confirm_order cfg w fuel side pr size s0
        = (Raise (timeout_error oid), snd (update_trade_status oid "canceled" s2))
  | Fails e =>
      exists s2,
        requests (ext s2) = (requests (ext sk) ++ [CancelOrder oid])%list /\
        ledger s2 = ledger sk /\
        place_and_confirm_order cfg w fuel side pr size s0 = (Raise e, s2)
  end.
Proof.
  intros Hsub Hoid Hpolls Hfuel Hget Hact Hlate.
  assert (E : place_and_confirm_order cfg w fuel side pr size s0
              = bind (confirm_pass w oid (clock w (n_clock (ext s1))))
                  (fun r => match r with
                            | Done st0 => ret st0
                            | Again => confirm_loop w (fuel - S k) oid
                                         (clock w (n_clock (ext s1)))
                            end) sk).
  { unfold place_and_confirm_order. rewrite (bind_Ret _ _ _ _ _ Hsub).
    cbv zeta. rewrite Hoid. unfold bind at 1. unfold utcnow at 1. cbv beta iota.
    replace fuel with (k + S (fuel - S k))%nat at 1 by lia.
    rewrite (confirm_loop_after w oid _ k _ sk _ Hpolls). reflexivity. }
  rewrite E.
  pose proof (confirm_pass_timeout w oid (clock w (n_clock (ext s1))) sk st
                Hget Hact Hlate) as T.
  destruct (cancel_order w (n_cancel (ext sk))) as [u|e];
    destruct T as (s2 & Hr & Hl & _ & Hp); exists s2;
    (split; [exact Hr|]); (split; [exact Hl|]).
  - apply bind_Raise. exact Hp.
  - apply bind_Raise. exact Hp.
Qed.

End TimeoutPipeline.

(** C2, as stated, fails: the exchange of [Scenario.stuck] keeps the order
    active past 60 seconds and then refuses the cancel request; the failure
    reaches the caller, but the record keeps the status "open". *)
Lemma timeout_does_not_always_mark_canceled :
  ~ (forall cfg w fuel side pr size s0 order s1 k sk st t l1 l2,
       place_order_with_retry cfg w side pr size s0 = (Ret (Some order), s1) ->
       Str.or_else (o_orderId order) (o_id order) = Some (order_id t) ->
       after_polls w (Some (order_id t)) (clock w (n_clock (ext s1))) k
         (with_ext (bump 0) s1) = Some sk ->
       (k < fuel)%nat ->
       get_order w (n_get_order (ext sk)) = Reply st ->
       o_isActive st = Some true ->
       (60 * NS_PER_SECOND
        < clock w (n_clock (ext sk)) - clock w (n_clock (ext s1)))%Z ->
       ledger sk = (l1 ++ t :: l2)%list ->
       Forall (fun r => order_id r <> order_id t) l1 ->
       let r := place_and_confirm_order cfg w fuel side pr size s0 in
       In (CancelOrder (Some (order_id t))) (requests (ext (snd r))) /\
       (exists e, fst r = Raise e) /\
       ledger (snd r) = (l1 ++ set_status "canceled" t :: l2)%list).
Proof.
  intro H.
  pose (s1 := snd (place_order_with_retry Scenario.kcs_usdt Scenario.stuck
                     "buy" (Some 10) 1 Scenario.initial)).
  pose (t := {| trade_id := 1; order_id := "A1"; status := "open"; type := "buy";
                symbol := "KCS-USDT"; price := 10; quantity := 1;
                timestamp := 0; pnl := None |}).
  destruct (H Scenario.kcs_usdt Scenario.stuck 3%nat "buy" (Some 10) 1
              Scenario.initial (Scenario.order "A1" None None None) s1
              0%nat (with_ext (bump 0) s1)
              (Scenario.order "A1" None (Some true) None) t [] [])
    as (_ & _ & Hl); try reflexivity.
  - unfold Peano.lt. repeat constructor.
  - constructor.
  - vm_compute in Hl. discriminate Hl.
Qed.

(** C2, amended. When a confirmation poll finds the order still active more
    than 60 seconds after polling began, the pipeline sends a cancel request
    to the exchange. When that request returns, the record of the order is
    set to "canceled" and a timeout failure is raised; when the request
    itself raises, that error is raised instead and the record keeps its
    status. Either way the caller gets a failure and its position is as it
    was: the BUY and SELL blocks log it and end with the position flag
    unchanged (flat after an entry attempt). *)
Theorem confirmation_timeout
    cfg w fuel side pr size s0 order s1 k sk st t l1 l2 :
  place_order_with_retry cfg w side pr size s0 = (Ret (Some order), s1) ->
  Str.or_else (o_orderId order) (o_id order) = Some (order_id t) ->
  after_polls w (Some (order_id t)) (clock w (n_clock (ext s1))) k
    (with_ext (bump 0) s1) = Some sk ->
  (k < fuel)%nat ->
  get_order w (n_get_order (ext sk)) = Reply st ->
  o_isActive st = Some true ->
  (60 * NS_PER_SECOND < clock w (n_clock (ext sk)) - clock w (n_clock (ext s1)))%Z ->
  ledger sk = (l1 ++ t :: l2)%list ->
  Forall (fun r => order_id r <> order_id t) l1 ->
  let r := place_and_confirm_order cfg w fuel side pr size s0 in
  requests (ext (snd r))
  = (requests (ext sk) ++ [CancelOrder (Some (order_id t))])%list /\
  pos (snd r) = pos s0 /\
  match cancel_order w (n_cancel (ext sk)) with
  | Reply _ =>
      fst r = Raise (timeout_error (Some (order_id t))) /\
      ledger (snd r) = (l1 ++ set_status "canceled" t :: l2)%list
  | Fails e =>
      fst r = Raise e /\ ledger (snd r) = (l1 ++ t :: l2)%list
  end /\
  (forall avail price_dec qty ts s,
     side = "buy" -> pr = Some price_dec -> size = Num.py_round qty 8 ->
     s0 = at_buy_call avail s ->
     exists s', place_buy cfg w fuel avail price_dec qty ts s = (Ret tt, s') /\
                in_position (pos s') = in_position (pos s)) /\
  (forall p qty ts s,
     side = "sell" -> pr = Some p -> size = Num.py_round qty 8 ->
     s0 = at_sell_call s ->
     exists s', place_sell cfg w fuel p qty ts s = (Ret tt, s') /\
                in_position (pos s') = in_position (pos s)).
Proof.
  intros Hsub Hoid Hpolls Hfuel Hget Hact Hlate Hl Hids r.
  pose proof (place_and_confirm_timeout cfg w fuel side pr size s0 order s1
                (Some (order_id t)) k sk st Hsub Hoid Hpolls Hfuel Hget Hact Hlate)
    as T.
  pose proof (place_and_confirm_keeps_pos cfg w fuel side pr size s0) as K.
  fold r in K.
  assert (Hraise : exists e s2, place_and_confirm_order cfg w fuel side pr size s0
                                = (Raise e, s2)).
  { destruct (cancel_order w (n_cancel (ext sk))) as [u|e];
      destruct T as (s2 & _ & _ & E); rewrite E; eauto. }
  split; [|split; [exact K|split; [|split]]].
  - destruct (cancel_order w (n_cancel (ext sk))) as [u|e];
      destruct T as (s2 & Hr & Hl2 & E); subst r; rewrite E; cbn [snd].
    + rewrite (update_trade_status_at "canceled" l1 t l2 s2)
        by congruence. cbn. exact Hr.
    + exact Hr.
  - destruct (cancel_order w (n_cancel (ext sk))) as [u|e];
      destruct T as (s2 & Hr & Hl2 & E); subst r; rewrite E; cbn [fst snd].
    + split; [reflexivity|].
      rewrite (update_trade_status_at "canceled" l1 t l2 s2) by congruence.
      reflexivity.
    + split; [reflexivity | congruence].
  - intros avail price_dec qty ts s -> -> -> ->.
    destruct Hraise as (e & s2 & E).
    destruct (place_buy_failure cfg w fuel avail price_dec qty ts s e s2 E) as [Eb P].
    eexists. split; [exact Eb|]. cbn. rewrite P. reflexivity.
  - intros p qty ts s -> -> -> ->.
    destruct Hraise as (e & s2 & E).
    destruct (place_sell_failure cfg w fuel p qty ts s e s2 E) as [Eb P].
    eexists. split; [exact Eb|]. cbn. rewrite P. reflexivity.
Qed.

Lemma confirmation_timeout_witness :
  let r := place_and_confirm_order Scenario.kcs_usdt Scenario.slow 3
             "buy" (Some 10) 1 Scenario.initial in
  fst r = Raise (timeout_error (Some "A1")) /\
  map status (ledger (snd r)) = ["canceled"] /\
  requests (ext (snd r)) = [CreateMarketOrder "buy" 1; CancelOrder (Some "A1")] /\
  pos (snd r) = pos Scenario.initial.
Proof.
  intro r.
  pose (s1 := snd (place_order_with_retry Scenario.kcs_usdt Scenario.slow
                     "buy" (Some 10) 1 Scenario.initial)).
  pose (t := {| trade_id := 1; order_id := "A1"; status := "open"; type := "buy";
                symbol := "KCS-USDT"; price := 10; quantity := 1;
                timestamp := 0; pnl := None |}).
  destruct (confirmation_timeout Scenario.kcs_usdt Scenario.slow 3%nat
              "buy" (Some 10) 1 Scenario.initial
              (Scenario.order "A1" None None None) s1
              0%nat (with_ext (bump 0) s1)
              (Scenario.order "A1" None (Some true) None) t [] [])
    as (Hr & Hp & [He Hl] & _); try reflexivity.
  - unfold Peano.lt. repeat constructor.
  - constructor.
  - fold r in Hr, Hp, He, Hl.
    split; [exact He|]. split; [rewrite Hl; reflexivity|].
    split; [rewrite Hr; reflexivity | exact Hp].
Defined.

(* ------------------------------------------------------------------ *)
(** ** Which rows of the ledger an operation rewrites *)
(* ------------------------------------------------------------------ *)

Lemma update_first_other oid st l i t :
  nth_error l i = Some t ->
  order_id t <> oid ->
  match update_first oid st l with
  | Some (_, l') => nth_error l' i = Some t
  | None => True
  end.
Proof.
  revert i. induction l as [|r l IH]; intros i Hi Hne; [exact I|].
  simpl. destruct (String.eqb (order_id r) oid) eqn:E.
  - destruct i as [|i]; simpl in *; [|exact Hi].
    injection Hi as ->. apply String.eqb_eq in E. contradiction.
  - destruct i as [|i]; simpl in Hi.
    + injection Hi as ->.
      destruct (update_first oid st l) as [[u l']|]; [reflexivity | exact I].
    + specialize (IH i Hi Hne).
      destruct (update_first oid st l) as [[u l']|]; [exact IH | exact I].
Qed.

Section LedgerRows.

Variable cfg : config.
Variable w : world.
Variable i : nat.
Variable t : Trade.

Lemma row_utcnow : inv (row_is i t) (utcnow w).
Proof. intros s H. exact H. Qed.

Lemma row_ask {A} k count (oracle : nat -> reply A) : inv (row_is i t) (ask k count oracle).
Proof. intros s H. unfold ask. destruct (oracle _); exact H. Qed.

Lemma row_create_trade oid st ty sym pr qty ts pl :
  inv (row_is i t) (create_trade oid st ty sym pr qty ts pl).
Proof.
  intros s H. unfold create_trade. destruct oid; [|exact H].
  unfold logger. unfold bind, gets, modify, ret.
  unfold row_is in *. simpl.
  rewrite nth_error_app1; [exact H|].
  apply nth_error_Some. congruence.
Qed.

Lemma row_update_trade_status oid st :
  oid <> Some (order_id t) -> inv (row_is i t) (update_trade_status oid st).
Proof.
  intros Hne s H. unfold update_trade_status, logger.
  unfold bind, gets, modify, ret.
  destruct oid as [o|]; [|exact H].
  assert (Hne' : order_id t <> o) by congruence.
  pose proof (update_first_other o st (ledger s) i t H Hne') as U.
  destruct (update_first o st (ledger s)) as [[u l']|]; [exact U | exact H].
Qed.

(** One structural step for code that leaves the rows of the ledger. *)
Ltac row_step :=
  first
    [ apply inv_ret | apply inv_raise | apply inv_diverge | apply inv_gets
    | apply inv_lift | apply row_utcnow | apply row_ask
    | apply row_create_trade
    | apply inv_modify; intros ? H; exact H
    | apply inv_bind; [|intro]
    | apply inv_try; [|intro]
    | progress cbv zeta
    | match goal with
      | |- inv _ (match ?x with _ => _ end) => destruct x
      end ].

Lemma row_build_cache accts : forall c, inv (row_is i t) (build_cache accts c).
Proof.
  induction accts as [|a r IH]; intro c; cbn [build_cache];
    repeat row_step; apply IH.
Qed.

Lemma row_get_available currency : inv (row_is i t) (get_available w currency).
Proof.
  unfold get_available, kc_get_accounts.
  repeat first [apply row_build_cache | row_step].
Qed.

Lemma row_submit_order side pr size : inv (row_is i t) (submit_order cfg w side pr size).
Proof.
  unfold submit_order, kc_create_limit_order, kc_create_market_order,
    kc_get_ticker, floor_price_to_tick, Decimal_floordiv, Decimal_quantize_down.
  repeat row_step.
Qed.

(** Submission appends rows and rewrites none. *)
Lemma row_place_order_attempts side pr size remaining :
  forall attempt delay,
    inv (row_is i t) (place_order_attempts cfg w remaining attempt delay side pr size).
Proof.
  induction remaining as [|r IH]; intros attempt delay;
    cbn [place_order_attempts];
    repeat first [apply row_submit_order | apply IH | row_step].
Qed.

Lemma row_confirm_pass oid start :
  oid <> Some (order_id t) -> inv (row_is i t) (confirm_pass w oid start).
Proof.
  intro Hne. unfold confirm_pass, kc_get_order, kc_cancel_order.
  repeat first [apply row_update_trade_status; exact Hne | row_step].
Qed.

Lemma row_confirm_loop oid start fuel :
  oid <> Some (order_id t) -> inv (row_is i t) (confirm_loop w fuel oid start).
Proof.
  intro Hne. induction fuel as [|f IH]; cbn [confirm_loop];
    repeat first [apply row_confirm_pass; exact Hne | apply IH | row_step].
Qed.

Lemma row_fetch_order_attempts oid max_retries base_delay remaining :
  forall attempt,
    inv (row_is i t) (fetch_order_attempts w remaining attempt max_retries base_delay oid).
Proof.
  induction remaining as [|r IH]; intro attempt; cbn [fetch_order_attempts];
    unfold kc_get_order; repeat first [apply IH | row_step].
Qed.

Lemma row_sync_one p :
  order_id p <> order_id t -> inv (row_is i t) (sync_one cfg w p).
Proof.
  intro Hne. unfold sync_one, fetch_order_with_retry, restore_position.
  repeat first
    [ apply row_fetch_order_attempts | apply row_get_available
    | apply row_update_trade_status; congruence
    | row_step ].
Qed.

Lemma row_sync_loop pending :
  Forall (fun p => order_id p <> order_id t) pending ->
  forall updated, inv (row_is i t) (sync_loop cfg w pending updated).
Proof.
  induction pending as [|p r IH]; intros H updated; cbn [sync_loop];
    [apply inv_ret|].
  inversion H; subst.
  apply inv_bind; [apply row_sync_one; assumption | intro; apply IH; assumption].
Qed.

(** An operation leaves every row whose order id it does not target. *)
Lemma perform_row op s :
  ~ targets op s (order_id t) -> row_is i t s -> row_is i t (perform cfg w op s).
Proof.
  intros Hnt H. destruct op as [oid st | fuel oid start | ]; cbn [perform targets] in *.
  - apply row_update_trade_status; assumption.
  - apply row_confirm_loop; assumption.
  - assert (Hall : Forall (fun p => order_id p <> order_id t)
                     (pending_trades (ledger s))).
    { apply Forall_forall. intros p Hp E. apply Hnt. exists p. auto. }
    assert (K : inv (row_is i t)
                  (logger INFO "sync_open_trades: found trade(s) to sync" ;;
                   sync_loop cfg w (pending_trades (ledger s)) 0 ;;
                   logger INFO "sync_open_trades complete")).
    { apply inv_bind; [row_step | intro].
      apply inv_bind; [apply row_sync_loop; exact Hall | intro; row_step]. }
    exact (K s H).
Qed.

End LedgerRows.

(** C6, as stated, fails: the record has been set to "filled" (by
    reconciliation); a confirmation poll of the same order then finds it
    inactive, maps the missing exchange status to "open" and writes that
    over "filled". *)
Lemma final_status_can_be_rewritten :
  ~ (forall cfg w op s, final_rows_kept s (perform cfg w op s)).
Proof.
  intro H.
  destruct (H Scenario.kcs_usdt Scenario.terse
              (ConfirmationPolling 1 (Some "A1") 0) Scenario.reconciled
              0%nat (set_status "filled" Scenario.open_buy) eq_refl eq_refl)
    as (t' & Ht & Hs).
  vm_compute in Ht. injection Ht as <-.
  vm_compute in Hs. discriminate Hs.
Qed.

(** C6, amended. An operation rewrites only rows that carry an order id it
    targets: the id given to a status update or polled by the confirmation
    loop (its timeout cancellation included), the ids of the pending rows
    for reconciliation. Reconciliation therefore keeps every final row
    whose order id no pending row shares. A status update itself does not
    look at the current status: it rewrites the first row that carries the
    id, final or not. *)
Theorem operations_rewrite_targeted_rows cfg w :
  (forall op s i t,
     nth_error (ledger s) i = Some t ->
     ~ targets op s (order_id t) ->
     nth_error (ledger (perform cfg w op s)) i = Some t)
  /\
  (forall s,
     (forall t p, In t (ledger s) -> is_final (status t) = true ->
                  In p (pending_trades (ledger s)) -> order_id p <> order_id t) ->
     final_rows_kept s (perform cfg w Reconciliation s))
  /\
  (forall st l1 t l2 s,
     ledger s = (l1 ++ t :: l2)%list ->
     Forall (fun r => order_id r <> order_id t) l1 ->
     ledger (perform cfg w (StatusUpdate (Some (order_id t)) st) s)
     = (l1 ++ set_status st t :: l2)%list).
Proof.
  split; [|split].
  - intros op s i t Hi Hnt. apply perform_row; assumption.
  - intros s Hids i t Hi Hfin. exists t. split; [|reflexivity].
    apply perform_row; [|exact Hi].
    intros (p & Hp & E). apply (Hids t p); auto.
    eapply nth_error_In. exact Hi.
  - intros st l1 t l2 s Hl Hids. cbn [perform].
    rewrite (update_trade_status_at st l1 t l2 s Hl Hids). reflexivity.
Qed.

Lemma operations_rewrite_targeted_rows_witness :
  nth_error (ledger (perform Scenario.kcs_usdt Scenario.calm Reconciliation
                       Scenario.mixed)) 0
  = Some Scenario.sold /\
  map status (ledger (perform Scenario.kcs_usdt Scenario.calm Reconciliation
                        Scenario.mixed))
  = ["filled"; "filled"].
Proof.
  split; [|reflexivity].
  apply (proj1 (operations_rewrite_targeted_rows Scenario.kcs_usdt Scenario.calm));
    [reflexivity|].
  intros (p & Hp & E). vm_compute in Hp.
  destruct Hp as [<- | []]. discriminate E.
Defined.

(* ------------------------------------------------------------------ *)
(** ** Sizing of entries and exits *)
(* ------------------------------------------------------------------ *)

Lemma pow10_pos e : 0 < Num.pow10 e.
Proof.
  unfold Num.pow10. destruct (e <? 0)%Z eqn:E.
  - reflexivity.
  - apply Z.ltb_ge in E. unfold Qlt. simpl.
    rewrite Z.mul_1_r. apply Z.pow_pos_nonneg; lia.
Qed.

Lemma Qtrunc_floor q : 0 <= q -> Num.Qtrunc q = Qfloor q.
Proof.
  destruct q as [n d]. unfold Qle, Num.Qtrunc, Qfloor. simpl.
  rewrite Z.mul_1_r. intro H. apply Z.quot_div_nonneg; lia.
Qed.

Lemma floor_times_le q u : 0 < u -> inject_Z (Qfloor (q / u)) * u <= q.
Proof.
  intro Hu.
  assert (H : inject_Z (Qfloor (q / u)) <= q / u) by apply Qfloor_le.
  apply (Qmult_le_compat_r _ _ u) in H; [|apply Qlt_le_weak, Hu].
  assert (E : q / u * u == q) by (field; intro Z0; rewrite Z0 in Hu; inversion Hu).
  rewrite E in H. exact H.
Qed.

Section Sizing.

Variable cfg : config.
Variable w : world.

(** When the quotient needs no rounding at 18 digits, the quantity of an
    entry is the quotient floored to [10^e], [e] being the exponent with
    which [Decimal(str(BASE_INCREMENT))] is written, and its cost at the
    reference price is within the balance. *)
Lemma entry_quantity_floor a p s qty s' :
  0 <= a -> 0 < p ->
  Num.round_prec (a / p) == a / p ->
  entry_quantity cfg a p s = (Ret qty, s') ->
  let e := expo (Decimal_of_str (BASE_INCREMENT cfg)) in
  qty == inject_Z (Qfloor (a / p / Num.pow10 e)) * Num.pow10 e /\
  qty * p <= a.
Proof.
  intros Ha Hp Hexact Hq e.
  unfold entry_quantity, bind, Decimal_div, Decimal_quantize_down, ret, raise in Hq.
  destruct (Num.Qeqb p 0); [discriminate|].
  fold e in Hq. cbv zeta in Hq.
  destruct (10 ^ 18 <=? _)%Z; [discriminate|].
  injection Hq as <- <-.
  assert (Hq0 : 0 <= a / p).
  { apply Qle_shift_div_l; [exact Hp|]. rewrite Qmult_0_l. exact Ha. }
  assert (He : 0 < Num.pow10 e) by apply pow10_pos.
  assert (Hr0 : 0 <= Num.round_prec (a / p) / Num.pow10 e).
  { apply Qle_shift_div_l; [exact He|]. rewrite Qmult_0_l, Hexact. exact Hq0. }
  rewrite (Qtrunc_floor _ Hr0).
  assert (Ef : Qfloor (Num.round_prec (a / p) / Num.pow10 e)
               = Qfloor (a / p / Num.pow10 e)).
  { apply Qfloor_comp. rewrite Hexact. reflexivity. }
  rewrite Ef. split; [reflexivity|].
  pose proof (floor_times_le (a / p) (Num.pow10 e) He) as L.
  apply (Qmult_le_compat_r _ _ p) in L; [|apply Qlt_le_weak, Hp].
  assert (E : a / p * p == a) by (field; intro Z0; rewrite Z0 in Hp; inversion Hp).
  rewrite E in L. exact L.
Qed.

(** The exit block submits a SELL exactly when the floored quantity is
    above the minimum size, and skips with an error line when it is at or
    below it. *)
Lemma exit_block_decision fuel p ts s qty :
  exit_quantity cfg (available_base (bal s)) s = (Ret qty, s) ->
  (qty <= BASE_MIN_SIZE cfg ->
   exit_block cfg w fuel p ts s
   = (Ret tt, with_ext (add_log ERROR "not enough base currency to SELL") s))
  /\
  (BASE_MIN_SIZE cfg < qty ->
   exit_block cfg w fuel p ts s = place_sell cfg w fuel p qty ts s).
Proof.
  intro Hq.
  assert (E : exit_block cfg w fuel p ts s
              = (if Num.Qleb qty (BASE_MIN_SIZE cfg)
                 then logger ERROR "not enough base currency to SELL"
                 else place_sell cfg w fuel p qty ts) s).
  { unfold exit_block. unfold bind at 1. unfold gets at 1. cbv beta iota.
    rewrite (bind_Ret _ _ _ _ _ Hq). reflexivity. }
  rewrite E. split; intro H.
  - apply (proj2 (Qleb_le _ _)) in H. rewrite H. reflexivity.
  - apply (proj2 (Qleb_gt _ _)) in H. rewrite H. reflexivity.
Qed.

End Sizing.

(** C3, at the failing input. For a symbol whose base increment is 1 the
    quantity of an entry is cut to one decimal place, not to whole units:
    with 100 of quote balance and a reference price of 12 the BUY request is
    for 8.3 units, where flooring to the increment gives 8. *)
Theorem entry_quantity_whole_unit_increment :
  let cfg := Scenario.whole_units in
  let s := run_handle cfg Scenario.calm 4 Scenario.three_minutes Scenario.initial in
  dval (BASE_INCREMENT cfg) == 1 /\
  Decimal_of_str (BASE_INCREMENT cfg) = {| coef := 10; expo := -1 |} /\
  fst (floor_price_to_tick cfg (10 * (1 + LIMIT_SLIPPAGE cfg)) Scenario.initial)
  = Ret 12.000 /\
  fst (entry_quantity cfg 100 12.000 Scenario.initial) = Ret 8.3 /\
  inject_Z (Qfloor (100 / 12 / dval (BASE_INCREMENT cfg))) * dval (BASE_INCREMENT cfg)
  == 8 /\
  requests (ext s) = [CreateMarketOrder "buy" 8.30000000].
Proof.
  cbv zeta. repeat split; vm_compute; reflexivity.
Qed.

(** C9, at the failing input. With a base balance equal to the minimum
    order size (0.1 at an increment of 0.0001) an exit trigger does not
    submit the SELL: the floored quantity is 0.1, which is not below the
    minimum, yet the cycle is skipped with "not enough ... to SELL" and the
    position stays open. *)
Theorem exit_skipped_at_minimum_size :
  let cfg := Scenario.kcs_usdt in
  let s := run_handle cfg Scenario.calm 4
             [Scenario.match_tick 9 (2 * NS_PER_MINUTE) 1] Scenario.holding in
  available_base (bal s) == BASE_MIN_SIZE cfg /\
  (exists qty, fst (exit_quantity cfg (available_base (bal s)) s) = Ret qty /\
               qty == BASE_MIN_SIZE cfg /\ ~ qty < BASE_MIN_SIZE cfg) /\
  exit_tests cfg 9 10 (3 # 2) 0 (2 * NS_PER_MINUTE) /\
  requests (ext s) = [] /\
  In (ERROR, "not enough base currency to SELL") (log (ext s)) /\
  in_position (pos s) = true.
Proof.
  cbv zeta. split; [vm_compute; reflexivity|].
  split.
  { eexists. split; [vm_compute; reflexivity|].
    split; [vm_compute; reflexivity | vm_compute; discriminate]. }
  split; [left; vm_compute; discriminate|].
  split; [vm_compute; reflexivity|].
  split; [vm_compute; right; left; reflexivity | vm_compute; reflexivity].
Qed.

(* ================================================================== *)
(** * Further properties of the engine and of its callers *)
(* ================================================================== *)

(* ------------------------------------------------------------------ *)
(** ** Writing and reading the ledger *)
(* ------------------------------------------------------------------ *)

Lemma next_id_above l t : In t l -> (trade_id t < next_id l)%Z.
Proof.
  unfold next_id. induction l as [|r l IH]; intro H; [destruct H|].
  cbn [fold_right]. destruct H as [-> | H]; [lia | specialize (IH H); lia].
Qed.

Lemma get_trade_app id l t :
  get_trade id (l ++ [t])
  = match get_trade id l with
    | Some r => Some r
    | None => if (trade_id t =? id)%Z then Some t else None
    end.
Proof.
  unfold get_trade. induction l as [|r l IH]; simpl; [reflexivity|].
  destruct (trade_id r =? id)%Z; [reflexivity | exact IH].
Qed.

Lemma get_trade_fresh l : get_trade (next_id l) l = None.
Proof.
  unfold get_trade.
  destruct (find (fun t => (trade_id t =? next_id l)%Z) l) as [t|] eqn:E;
    [|reflexivity].
  apply find_some in E. destruct E as [Hin E].
  apply next_id_above in Hin. apply Z.eqb_eq in E. lia.
Qed.

(** X1. A row written by [create_trade] gets a primary key no row had, is
    read back by [get_trade] under that key, and leaves what [get_trade]
    reads under every other key; without an order id nothing is written. *)
Theorem create_trade_then_get_trade oid st ty sym pr qty ts pl s :
  match oid with
  | None =>
      create_trade None st ty sym pr qty ts pl s = (Raise IntegrityError, s)
  | Some o =>
      exists t s',
        create_trade (Some o) st ty sym pr qty ts pl s = (Ret t, s') /\
        get_trade (trade_id t) (ledger s) = None /\
        get_trade (trade_id t) (ledger s') = Some t /\
        (forall id, id <> trade_id t ->
           get_trade id (ledger s') = get_trade id (ledger s)) /\
        order_id t = o /\ status t = st /\ type t = ty /\ symbol t = sym /\
        price t = pr /\ quantity t = qty /\ timestamp t = ts /\ pnl t = pl
  end.
Proof.
  destruct oid as [o|]; [|reflexivity].
  set (t := {| trade_id := next_id (ledger s); order_id := o; status := st;
               type := ty; symbol := sym; price := pr; quantity := qty;
               timestamp := ts; pnl := pl |}).
  exists t, (with_ext (add_log INFO "[db] Recorded trade")
               (with_ledger (fun l => (l ++ [t])%list) s)).
  split; [reflexivity|].
  cbn [trade_id ledger with_ext with_ledger t].
  split; [apply get_trade_fresh|].
  split.
  - rewrite get_trade_app, get_trade_fresh. cbn [trade_id].
    rewrite Z.eqb_refl. reflexivity.
  - split; [|repeat split].
    intros id Hid. rewrite get_trade_app.
    destruct (get_trade id (ledger s)); [reflexivity|].
    destruct (Z.eqb_spec (trade_id t) id) as [E|E]; [|reflexivity].
    exfalso. apply Hid. symmetry. exact E.
Qed.

Lemma update_first_find oid st l :
  match find (fun t => String.eqb (order_id t) oid) l with
  | None => update_first oid st l = None
  | Some t =>
      exists l',
        update_first oid st l = Some (set_status st t, l') /\
        find (fun t => String.eqb (order_id t) oid) l' = Some (set_status st t) /\
        List.length l' = List.length l
  end.
Proof.
  induction l as [|r l IH]; simpl; [reflexivity|].
  destruct (String.eqb (order_id r) oid) eqn:E.
  - eexists. split; [reflexivity|]. simpl. rewrite E. auto.
  - destruct (find _ l) as [t|].
    + destruct IH as (l' & U & F & L). rewrite U.
      eexists. split; [reflexivity|]. simpl. rewrite E, F, L. auto.
    + rewrite IH. reflexivity.
Qed.

(** X2. [update_trade_status] writes the new status into the first row that
    carries the order id and returns that row, which is then the row a
    query by that order id reads first; the table keeps its length.  When
    no row carries the id (or the id is [None]) it returns [None], logs a
    warning and leaves the table as it is. *)
Theorem update_trade_status_first_row oid st s :
  match match oid with
        | Some o => find (fun t => String.eqb (order_id t) o) (ledger s)
        | None => None
        end with
  | None =>
      update_trade_status oid st s
      = (Ret None,
         with_ext (add_log WARNING "[db] update_trade_status: no trade found") s)
  | Some t =>
      exists s',
        update_trade_status oid st s = (Ret (Some (set_status st t)), s') /\
        find (fun r => String.eqb (order_id r) (order_id t)) (ledger s')
        = Some (set_status st t) /\
        List.length (ledger s') = List.length (ledger s)
  end.
Proof.
  unfold update_trade_status, bind, gets.
  destruct oid as [o|]; [|reflexivity].
  pose proof (update_first_find o st (ledger s)) as H.
  destruct (find _ (ledger s)) as [t|] eqn:F.
  - destruct H as (l' & U & F' & L). rewrite U.
    eexists. split; [reflexivity|]. cbn.
    apply find_some in F. destruct F as [_ F]. apply String.eqb_eq in F.
    rewrite F. auto.
  - rewrite H. reflexivity.
Qed.

Lemma update_first_twice oid a b l :
  match update_first oid a l with
  | Some (_, l') =>
      exists u2 u3 l2,
        update_first oid b l' = Some (u2, l2) /\
        update_first oid b l = Some (u3, l2)
  | None => update_first oid b l = None
  end.
Proof.
  induction l as [|r l IH]; simpl; [reflexivity|].
  destruct (String.eqb (order_id r) oid) eqn:E.
  - eexists _, _, _. simpl. rewrite E. split; reflexivity.
  - destruct (update_first oid a l) as [[u l']|].
    + destruct IH as (u2 & u3 & l2 & U & V).
      eexists _, _, _. simpl. rewrite E, U, V. split; reflexivity.
    + rewrite IH. reflexivity.
Qed.

(** X3. Two status updates of the same order id in a row leave the table
    that the second one alone leaves: the last write wins, and writing the
    same status twice is writing it once. *)
Theorem update_trade_status_last_write oid a b s :
  ledger (snd (update_trade_status oid b (snd (update_trade_status oid a s))))
  = ledger (snd (update_trade_status oid b s)).
Proof.
  unfold update_trade_status, bind, gets.
  destruct oid as [o|]; [|reflexivity].
  pose proof (update_first_twice o a b (ledger s)) as H.
  destruct (update_first o a (ledger s)) as [[u l']|].
  - destruct H as (u2 & u3 & l2 & U & V). cbn. rewrite U, V. reflexivity.
  - cbn. rewrite H. reflexivity.
Qed.

(** ** Pages of the table *)

Lemma firstn_pages {A} a b : forall m : list A,
  (firstn a m ++ firstn b (skipn a m))%list = firstn (a + b) m.
Proof.
  induction a as [|a IH]; intros [|x m]; simpl; try reflexivity.
  - destruct b; reflexivity.
  - rewrite IH. reflexivity.
Qed.

Lemma offset_limit_pages {A} skip n1 n2 (l : list A) :
  (0 <= skip)%Z -> (0 <= n1)%Z -> (0 <= n2)%Z ->
  (offset_limit skip n1 l ++ offset_limit (skip + n1) n2 l)%list
  = offset_limit skip (n1 + n2) l.
Proof.
  intros Hs H1 H2. unfold offset_limit.
  replace (n1 <? 0)%Z with false by (symmetry; apply Z.ltb_ge; lia).
  replace (n2 <? 0)%Z with false by (symmetry; apply Z.ltb_ge; lia).
  replace (n1 + n2 <? 0)%Z with false by (symmetry; apply Z.ltb_ge; lia).
  rewrite !Z2Nat.inj_add by lia.
  rewrite (Nat.add_comm (Z.to_nat skip)), <- skipn_skipn.
  apply firstn_pages.
Qed.

Lemma offset_limit_In {A} skip limit (l : list A) x :
  In x (offset_limit skip limit l) -> In x l.
Proof.
  unfold offset_limit. intro H.
  rewrite <- (firstn_skipn (Z.to_nat skip) l). apply in_or_app. right.
  destruct (limit <? 0)%Z; [exact H|].
  rewrite <- (firstn_skipn (Z.to_nat limit) (skipn (Z.to_nat skip) l)).
  apply in_or_app. left. exact H.
Qed.

(** X4. [list_trades_by_symbol] returns rows of the symbol only, at most
    [limit] of them, in the order of the table; consecutive pages put end to
    end are the page of their joint size; and a first page as long as the
    table holds every row of the symbol. *)
Theorem list_trades_by_symbol_pages sym skip n1 n2 rows :
  (0 <= skip)%Z -> (0 <= n1)%Z -> (0 <= n2)%Z ->
  Forall (fun t => symbol t = sym) (list_trades_by_symbol sym skip n1 rows) /\
  (Z.of_nat (List.length (list_trades_by_symbol sym skip n1 rows)) <= n1)%Z /\
  (list_trades_by_symbol sym skip n1 rows
     ++ list_trades_by_symbol sym (skip + n1) n2 rows)%list
  = list_trades_by_symbol sym skip (n1 + n2) rows /\
  ((Z.of_nat (List.length rows) <= n1)%Z ->
   list_trades_by_symbol sym 0 n1 rows
   = filter (fun t => String.eqb (symbol t) sym) rows).
Proof.
  intros Hs H1 H2. unfold list_trades_by_symbol.
  set (m := filter (fun t => String.eqb (symbol t) sym) rows).
  assert (Hm : Forall (fun t => symbol t = sym) m).
  { apply Forall_forall. intros t Ht. apply filter_In in Ht.
    apply String.eqb_eq, Ht. }
  split; [|split; [|split]].
  - apply Forall_forall. intros t Ht. apply offset_limit_In in Ht.
    revert t Ht. apply Forall_forall. exact Hm.
  - unfold offset_limit.
    replace (n1 <? 0)%Z with false by (symmetry; apply Z.ltb_ge; lia).
    pose proof (firstn_le_length (Z.to_nat n1) (skipn (Z.to_nat skip) m)). lia.
  - apply offset_limit_pages; assumption.
  - intro Hlen. unfold offset_limit.
    replace (n1 <? 0)%Z with false by (symmetry; apply Z.ltb_ge; lia).
    simpl skipn. apply firstn_all2.
    pose proof (filter_length_le (fun t => String.eqb (symbol t) sym) rows).
    fold m in H. lia.
Qed.

Lemma list_trades_by_symbol_pages_witness :
  let rows := [Scenario.sold; Scenario.open_buy] in
  (list_trades_by_symbol "KCS-USDT" 0 1 rows
     ++ list_trades_by_symbol "KCS-USDT" (0 + 1) 1 rows)%list
  = list_trades_by_symbol "KCS-USDT" 0 (1 + 1) rows /\
  list_trades_by_symbol "KCS-USDT" 0 (1 + 1) rows = rows.
Proof.
  intro rows.
  destruct (list_trades_by_symbol_pages "KCS-USDT" 0 1 1 rows)
    as (_ & _ & H & _); [lia | lia | lia |].
  split; [exact H | reflexivity].
Defined.

(** ** The most recent row of a symbol *)

Lemma latest_spec rows : forall best,
  match latest rows best with
  | None => best = None /\ rows = []
  | Some t =>
      (In t rows \/ best = Some t) /\
      (forall r, In r rows -> (timestamp r <= timestamp t)%Z) /\
      (forall b, best = Some b -> (timestamp b <= timestamp t)%Z)
  end.
Proof.
  induction rows as [|x rows IH]; intro best; simpl.
  - destruct best as [b|]; [|auto].
    split; [right; reflexivity|]. split; [intros r []|].
    intros b' E. injection E as ->. lia.
  - match goal with |- context [latest rows ?b] => specialize (IH b) end.
    destruct (latest rows _) as [t|].
    + destruct IH as (Hin & Hrows & Hbest).
      split; [|split].
      * destruct Hin as [Hin | E]; [left; right; exact Hin|].
        destruct best as [b|].
        -- destruct (timestamp b <? timestamp x)%Z;
             injection E as <-; [left; left; reflexivity | right; reflexivity].
        -- injection E as <-. left. left. reflexivity.
      * intros r [<- | Hr]; [|apply Hrows, Hr].
        destruct best as [b|].
        -- destruct (timestamp b <? timestamp x)%Z eqn:L.
           ++ apply (Hbest x). reflexivity.
           ++ apply Z.ltb_ge in L. specialize (Hbest b eq_refl). lia.
        -- apply (Hbest x). reflexivity.
      * intros b ->.
        destruct (timestamp b <? timestamp x)%Z eqn:L.
        -- apply Z.ltb_lt in L. specialize (Hbest x eq_refl). lia.
        -- apply (Hbest b). reflexivity.
    + destruct IH as (E & _). destruct best as [b|].
      * destruct (timestamp b <? timestamp x)%Z; discriminate.
      * discriminate.
Qed.

(** X5. [get_last_trade_by_symbol] returns a row of the symbol whose
    timestamp no row of the symbol exceeds, and [None] exactly when the
    table has no row of the symbol. *)
Theorem get_last_trade_by_symbol_latest sym rows :
  match get_last_trade_by_symbol sym rows with
  | Some t =>
      In t rows /\ symbol t = sym /\
      forall r, In r rows -> symbol r = sym -> (timestamp r <= timestamp t)%Z
  | None => forall r, In r rows -> symbol r <> sym
  end.
Proof.
  unfold get_last_trade_by_symbol.
  pose proof (latest_spec (filter (fun t => String.eqb (symbol t) sym) rows) None) as H.
  destruct (latest _ None) as [t|].
  - destruct H as ([Hin | E] & Hrows & _); [|discriminate].
    apply filter_In in Hin. destruct Hin as [Hin Hs].
    split; [exact Hin|]. split; [apply String.eqb_eq, Hs|].
    intros r Hr Hsym. apply Hrows. apply filter_In.
    split; [exact Hr | apply String.eqb_eq, Hsym].
  - destruct H as (_ & Hnil). intros r Hr Hsym.
    assert (Hf : In r (filter (fun t => String.eqb (symbol t) sym) rows)).
    { apply filter_In. split; [exact Hr | apply String.eqb_eq, Hsym]. }
    rewrite Hnil in Hf. exact Hf.
Qed.

(** ** The status endpoint *)

(** X6. In the answer of [GET /algo/status] every SELL row read is a win or
    a loss and never both; the rows exported by [_save_trades] are as many
    as the trades taken; and no more than 10000 rows are read. *)
Theorem algo_status_counts cfg running s :
  let r := algo_status cfg running s in
  (r_wins r + r_losses r = r_trades_taken r)%nat /\
  List.length (_save_trades cfg s) = r_trades_taken r /\
  (Z.of_nat (r_trades_taken r) <= 10000)%Z.
Proof.
  cbv zeta. unfold algo_status, _save_trades. cbn [r_wins r_losses r_trades_taken].
  set (sells := filter is_sell (list_trades_by_symbol (SYMBOL cfg) 0 10000 (ledger s))).
  split; [|split].
  - rewrite <- (filter_length (fun t => Num.Qleb 0 (pnl_or_0 t)) sells).
    f_equal.
  - apply length_map.
  - unfold sells.
    pose proof (filter_length_le is_sell (list_trades_by_symbol (SYMBOL cfg) 0 10000 (ledger s))).
    assert (L : (List.length (list_trades_by_symbol (SYMBOL cfg) 0 10000 (ledger s))
                 <= Z.to_nat 10000)%nat).
    { unfold list_trades_by_symbol, offset_limit.
      change (10000 <? 0)%Z with false. cbv iota. apply firstn_le_length. }
    lia.
Qed.

(** ** Masked secrets *)

Lemma length_stars n : String.length (stars n) = n.
Proof. induction n; simpl; congruence. Qed.

Lemma get_stars n i : (i < n)%nat -> String.get i (stars n) = Some "*"%char.
Proof.
  revert i. induction n as [|n IH]; intros i H; [lia|].
  destruct i; simpl; [reflexivity | apply IH; lia].
Qed.

Lemma length_append (a b : string) :
  String.length (a ++ b) = (String.length a + String.length b)%nat.
Proof. induction a; simpl; congruence. Qed.

Lemma length_substring s : forall n m,
  (n + m <= String.length s)%nat -> String.length (substring n m s) = m.
Proof.
  induction s as [|c s IH]; intros n m H; simpl in *.
  - destruct n, m; simpl; try reflexivity; lia.
  - destruct n as [|n].
    + destruct m as [|m]; simpl; [reflexivity|].
      rewrite (IH 0%nat m) by lia. reflexivity.
    + apply IH. lia.
Qed.

(** X7. [mask_value] keeps the length of the value; a value of at most six
    characters is masked entirely, and of a longer one only the first three
    and the last three characters are shown. *)
Theorem mask_value_shape v :
  String.length (mask_value v) = String.length v /\
  forall i, (i < String.length v)%nat ->
    String.get i (mask_value v)
    = if andb (6 <? String.length v)%nat
              (orb (i <? 3)%nat (String.length v - 3 <=? i)%nat)
      then String.get i v else Some "*"%char.
Proof.
  unfold mask_value. set (n := String.length v).
  destruct (n <=? 6)%nat eqn:E.
  - apply Nat.leb_le in E.
    replace (6 <? n)%nat with false by (symmetry; apply Nat.ltb_ge; lia).
    split; [apply length_stars|]. intros i Hi. apply get_stars, Hi.
  - apply Nat.leb_gt in E.
    replace (6 <? n)%nat with true by (symmetry; apply Nat.ltb_lt; lia).
    assert (L1 : String.length (substring 0 3 v) = 3%nat)
      by (apply length_substring; fold n; lia).
    assert (L3 : String.length (substring (n - 3) 3 v) = 3%nat)
      by (apply length_substring; fold n; lia).
    split.
    + rewrite !length_append, L1, L3, length_stars. lia.
    + intros i Hi. cbn [andb].
      destruct (i <? 3)%nat eqn:A; cbn [orb].
      * apply Nat.ltb_lt in A.
        rewrite <- append_correct1 by (rewrite L1; exact A).
        rewrite substring_correct1 by exact A.
        rewrite Nat.add_0_r. reflexivity.
      * apply Nat.ltb_ge in A.
        replace i with ((i - 3) + String.length (substring 0 3 v))%nat at 1
          by (rewrite L1; lia).
        rewrite <- append_correct2.
        destruct (n - 3 <=? i)%nat eqn:B.
        -- apply Nat.leb_le in B.
           replace (i - 3)%nat with ((i - (n - 3)) + String.length (stars (n - 6)))%nat
             by (rewrite length_stars; lia).
           rewrite <- append_correct2.
           rewrite substring_correct1 by lia.
           f_equal. lia.
        -- apply Nat.leb_gt in B.
           rewrite <- append_correct1 by (rewrite length_stars; lia).
           apply get_stars. lia.
Qed.

Lemma mask_value_shape_witness :
  String.get 1 (mask_value "s3cr3t-passphrase") = Some "3"%char /\
  String.get 8 (mask_value "s3cr3t-passphrase") = Some "*"%char.
Proof.
  destruct (mask_value_shape "s3cr3t-passphrase") as [_ H].
  split; [rewrite (H 1%nat) | rewrite (H 8%nat)];
    try reflexivity; simpl; lia.
Defined.

(** ** The polling endpoint *)

Lemma after_active_polls_ext k : forall s,
  n_get_order (ext (after_active_polls k s)) = (n_get_order (ext s) + k)%nat /\
  sleeps (ext (after_active_polls k s)) = (sleeps (ext s) ++ repeat 1 k)%list.
Proof.
  induction k as [|k IH]; intro s; cbn [after_active_polls].
  - rewrite Nat.add_0_r, app_nil_r. split; reflexivity.
  - destruct (IH (with_ext (add_sleep 1) (with_ext (bump 4) s))) as (H1 & H2).
    rewrite H1, H2. cbn. rewrite <- app_assoc. cbn. split; [lia | reflexivity].
Qed.

(** Polls that find the order active consume one iteration each. *)
Lemma poll_checks_active w oid k : forall remaining s,
  polls_active w (n_get_order (ext s)) k ->
  poll_checks w (k + remaining) oid s
  = poll_checks w remaining oid (after_active_polls k s).
Proof.
  induction k as [|k IH]; intros remaining s H; [reflexivity|].
  cbn [Nat.add poll_checks after_active_polls].
  destruct (H 0%nat) as (d & Hd & Ha); [lia|]. rewrite Nat.add_0_r in Hd.
  unfold bind at 1. unfold kc_get_order, ask. rewrite Hd.
  assert (Hact : negb (match o_isActive d with Some b => b | None => true end) = false).
  { destruct (o_isActive d) as [[|]|]; try reflexivity. congruence. }
  rewrite Hact. unfold bind at 1. unfold sleep at 1. unfold modify at 1.
  apply IH. intros j Hj. cbn.
  destruct (H (S j)) as (d' & Hd' & Ha'); [lia|].
  exists d'. split; [|exact Ha'].
  rewrite <- Hd'. f_equal. lia.
Qed.

(** The polling loop ends, and only reads from the exchange. *)
Lemma poll_checks_reads w oid remaining : forall s,
  fst (poll_checks w remaining oid s) <> Diverge /\
  requests (ext (snd (poll_checks w remaining oid s))) = requests (ext s) /\
  ledger (snd (poll_checks w remaining oid s)) = ledger s /\
  pos (snd (poll_checks w remaining oid s)) = pos s /\
  (n_get_order (ext (snd (poll_checks w remaining oid s)))
   <= n_get_order (ext s) + remaining)%nat.
Proof.
  induction remaining as [|r IH]; intro s; cbn [poll_checks].
  - cbn. repeat split; [discriminate | apply Nat.le_add_r].
  - unfold bind, kc_get_order, ask, logger, sleep, modify, ret.
    destruct (get_order w (n_get_order (ext s))) as [d|e].
    + destruct (negb _).
      * cbn. repeat split; [discriminate | lia].
      * destruct (IH (with_ext (add_sleep 1) (with_ext (bump 4) s)))
          as (H1 & H2 & H3 & H4 & H5).
        cbn in H2, H3, H4, H5.
        repeat split; try assumption. lia.
    + cbn. repeat split; [discriminate | lia].
Qed.

(** What the loop returns after [k] polls that found the order active. *)
Lemma poll_checks_outcome w oid N s k :
  polls_active w (n_get_order (ext s)) k ->
  (k = N ->
     poll_checks w N oid s
     = (Ret PollTimeout,
        with_ext (add_log WARNING "Order not filled after timeout")
          (after_active_polls k s))) /\
  (forall d, (k < N)%nat ->
     get_order w (n_get_order (ext s) + k) = Reply d ->
     o_isActive d = Some false ->
     poll_checks w N oid s
     = (Ret PollFilled,
        with_ext (add_log INFO "Order filled after checks")
          (with_ext (bump 4) (after_active_polls k s)))) /\
  (forall e, (k < N)%nat ->
     get_order w (n_get_order (ext s) + k) = Fails e ->
     poll_checks w N oid s
     = (Raise e, with_ext (bump 4) (after_active_polls k s))).
Proof.
  intro Hact.
  destruct (after_active_polls_ext k s) as (A1 & _).
  assert (E : (k <= N)%nat ->
              poll_checks w N oid s
              = poll_checks w (N - k) oid (after_active_polls k s)).
  { intro Hk. rewrite <- (poll_checks_active w oid k (N - k) s Hact).
    f_equal. lia. }
  split; [|split].
  - intros Hk. rewrite E by lia. rewrite <- Hk, Nat.sub_diag. reflexivity.
  - intros d Hlt Hd Hin. rewrite E by lia.
    destruct (N - k)%nat as [|m] eqn:Hm; [lia|]. cbn [poll_checks].
    unfold bind, kc_get_order, ask. rewrite A1, Hd, Hin. reflexivity.
  - intros e Hlt He. rewrite E by lia.
    destruct (N - k)%nat as [|m] eqn:Hm; [lia|]. cbn [poll_checks].
    unfold bind, kc_get_order, ask. rewrite A1, He. reflexivity.
Qed.

(** X8. [POST /kc/order/poll] always answers, asks the exchange at most
    thirty times and sends it nothing, and leaves the ledger and the
    position alone.  It answers "filled" at the first poll that finds the
    order inactive, "timeout" after thirty polls one second apart that
    found it active, and status 500 when a poll fails. *)
Theorem poll_order_outcome w oid s :
  let r := poll_order w oid s in
  let n := n_get_order (ext s) in
  (exists a, fst r = Ret a) /\
  (n_get_order (ext (snd r)) <= n + 30)%nat /\
  requests (ext (snd r)) = requests (ext s) /\
  ledger (snd r) = ledger s /\ pos (snd r) = pos s /\
  (forall k, polls_active w n k ->
     (k = 30%nat ->
        fst r = Ret (Body PollTimeout) /\
        sleeps (ext (snd r)) = (sleeps (ext s) ++ repeat 1 30)%list) /\
     (forall d, (k < 30)%nat -> get_order w (n + k) = Reply d ->
        o_isActive d = Some false ->
        fst r = Ret (Body PollFilled) /\
        n_get_order (ext (snd r)) = (n + k + 1)%nat /\
        sleeps (ext (snd r)) = (sleeps (ext s) ++ repeat 1 k)%list) /\
     (forall e, (k < 30)%nat -> get_order w (n + k) = Fails e ->
        fst r = Ret (HTTPException 500) /\
        n_get_order (ext (snd r)) = (n + k + 1)%nat)).
Proof.
  cbv zeta. unfold poll_order.
  set (s0 := with_ext (add_log INFO "POST /kc/order/poll called") s).
  assert (Hn : n_get_order (ext s0) = n_get_order (ext s)) by reflexivity.
  assert (Hsl : sleeps (ext s0) = sleeps (ext s)) by reflexivity.
  assert (Hrq : requests (ext s0) = requests (ext s)) by reflexivity.
  assert (Hlg : ledger s0 = ledger s) by reflexivity.
  assert (Hps : pos s0 = pos s) by reflexivity.
  assert (Run : forall m,
            (logger INFO "POST /kc/order/poll called" ;;
             try_except (a <- poll_checks w m oid ;; ret (Body a))
               (fun _ => logger ERROR "Error polling order" ;;
                         ret (HTTPException 500))) s
            = match poll_checks w m oid s0 with
              | (Ret a, s2) => (Ret (Body a), s2)
              | (Raise _, s2) =>
                  (Ret (HTTPException 500),
                   with_ext (add_log ERROR "Error polling order") s2)
              | (Diverge, s2) => (Diverge, s2)
              end).
  { intro m. unfold try_except, bind, logger, modify, ret. fold s0.
    destruct (poll_checks w m oid s0) as [[a|e|] s2]; reflexivity. }
  rewrite !Run. clearbody s0. clear Run.
  split; [|split; [|split; [|split; [|split]]]].
  1-5: destruct (poll_checks_reads w oid 30 s0) as (H1 & H2 & H3 & H4 & H5);
       destruct (poll_checks w 30 oid s0) as [[a|e|] s1];
       cbn [fst snd ext with_ext add_log n_get_order requests ledger pos] in *;
       try congruence; eauto.
  intros k Hact. rewrite <- Hn in Hact.
  destruct (after_active_polls_ext k s0) as (A1 & A2).
  rewrite Hn in A1. rewrite Hsl in A2.
  rewrite <- Hn.
  split; [|split].
  - intros Hk. rewrite <- Hk.
    rewrite (proj1 (poll_checks_outcome w oid k s0 k Hact) eq_refl).
    split; [reflexivity | exact A2].
  - intros d Hlt Hd Hin.
    rewrite (proj1 (proj2 (poll_checks_outcome w oid 30 s0 k Hact)) d Hlt Hd Hin).
    cbn [fst snd ext with_ext add_log bump sleeps n_get_order Nat.eqb].
    rewrite A1, A2, Hn. split; [reflexivity | split; [lia | reflexivity]].
  - intros e Hlt He.
    rewrite (proj2 (proj2 (poll_checks_outcome w oid 30 s0 k Hact)) e Hlt He).
    cbn [fst snd ext with_ext add_log bump n_get_order Nat.eqb].
    rewrite A1, Hn. split; [reflexivity | lia].
Qed.

Lemma poll_order_outcome_witness :
  fst (poll_order Scenario.calm "A1" Scenario.initial) = Ret (Body PollFilled) /\
  fst (poll_order Scenario.stuck "A1" Scenario.initial) = Ret (Body PollTimeout).
Proof.
  split.
  - destruct (poll_order_outcome Scenario.calm "A1" Scenario.initial)
      as (_ & _ & _ & _ & _ & H).
    assert (Hact : polls_active Scenario.calm (n_get_order (ext Scenario.initial)) 0).
    { intros j Hj. inversion Hj. }
    destruct (H 0%nat Hact) as (_ & H2 & _).
    apply (H2 (Scenario.order "A1" (Some "done") (Some false) (Some "DEAL")));
      [repeat constructor | reflexivity | reflexivity].
  - destruct (poll_order_outcome Scenario.stuck "A1" Scenario.initial)
      as (_ & _ & _ & _ & _ & H).
    assert (Hact : polls_active Scenario.stuck (n_get_order (ext Scenario.initial)) 30).
    { intros j Hj. eexists. split; [reflexivity | discriminate]. }
    destruct (H 30%nat Hact) as (H1 & _).
    apply H1. reflexivity.
Defined.

(* ------------------------------------------------------------------ *)
(** ** Footprints *)
(* ------------------------------------------------------------------ *)

Lemma moves_trans fp s1 s2 s3 : moves fp s1 s2 -> moves fp s2 s3 -> moves fp s1 s3.
Proof.
  intros H12 H23. induction H23 as [|k s s' _ IH Hk Ht]; [exact H12|].
  eapply moves_step; eassumption.
Qed.

Lemma moves_mono (fp fp' : kind -> Prop) s s' :
  (forall k, fp k -> fp' k) -> moves fp s s' -> moves fp' s s'.
Proof.
  intros Hsub H. induction H as [|k s1 s2 _ IH Hk Ht]; [apply moves_refl|].
  eapply moves_step; [exact IH | apply Hsub, Hk | exact Ht].
Qed.

Lemma moves_touch fp s0 k s s' :
  touch k s s' -> fp k -> moves fp s0 s -> moves fp s0 s'.
Proof. intros Ht Hk H. eapply moves_step; eassumption. Qed.

(** An invariant that survives every update of a footprint survives the
    code of that footprint. *)
Lemma moves_inv (fp : kind -> Prop) (I : state -> Prop) :
  (forall k s s', fp k -> touch k s s' -> I s -> I s') ->
  forall s s', moves fp s s' -> I s -> I s'.
Proof.
  intros Hstep s s' H Hs. induction H as [|k s1 s2 _ IH Hk Ht]; [exact Hs|].
  eapply Hstep; eassumption.
Qed.

(** The footprint of a computation, from any state. *)
Lemma moves_of_inv {A} fp (c : M A) :
  (forall s0, inv (moves fp s0) c) -> forall s, moves fp s (snd (c s)).
Proof. intros H s. apply (H s s). apply moves_refl. Qed.

Section Primitives.

Variable fp : kind -> Prop.
Variable s0 : state.
Variable cfg : config.
Variable w : world.

Lemma fp_utcnow : fp (Counter 0) -> inv (moves fp s0) (utcnow w).
Proof.
  intros Hk s Hs. unfold utcnow. cbn [snd].
  eapply moves_touch; [apply touch_counter | exact Hk | exact Hs].
Qed.

Lemma fp_ask {A} k count (oracle : nat -> reply A) :
  fp (Counter k) -> inv (moves fp s0) (ask k count oracle).
Proof.
  intros Hk s Hs. unfold ask.
  destruct (oracle _); cbn [snd];
    (eapply moves_touch; [apply touch_counter | exact Hk | exact Hs]).
Qed.

Lemma fp_create_trade oid st ty sym pr qty ts pl :
  fp Appended -> fp Logged ->
  inv (moves fp s0) (create_trade oid st ty sym pr qty ts pl).
Proof.
  intros Ha Hl s Hs. unfold create_trade. destruct oid as [o|]; [|exact Hs].
  unfold bind, gets, modify, logger, ret. cbn [snd].
  eapply moves_touch; [apply touch_log | exact Hl |].
  eapply moves_touch; [apply touch_append | exact Ha | exact Hs].
  reflexivity.
Qed.

Lemma fp_update_trade_status oid st :
  fp StatusSet -> fp Logged -> inv (moves fp s0) (update_trade_status oid st).
Proof.
  intros Hu Hl s Hs. unfold update_trade_status, bind, gets.
  destruct (match oid with Some o => update_first o st (ledger s) | None => None end)
    as [[u l']|] eqn:E.
  - unfold modify, logger, ret. cbn [snd].
    eapply moves_touch; [apply touch_log | exact Hl |].
    destruct oid as [o|]; [|discriminate].
    eapply moves_touch; [eapply touch_status; exact E | exact Hu | exact Hs].
  - unfold modify, logger, ret. cbn [snd].
    eapply moves_touch; [apply touch_log | exact Hl | exact Hs].
Qed.

End Primitives.

(** A footprint condition on a concrete kind. *)
Ltac fp_side H :=
  apply H; cbn;
  repeat first [ exact I | reflexivity | left; reflexivity | right
               | left; exact I | assumption ].

(** A leaf of the walk: a single update. *)
Ltac fp_leaf H :=
  first
    [ apply fp_utcnow; solve [fp_side H]
    | apply fp_ask; solve [fp_side H]
    | apply fp_create_trade; solve [fp_side H]
    | apply fp_update_trade_status; solve [fp_side H]
    | apply inv_modify; intros ? ?;
      (eapply moves_touch; [econstructor | solve [fp_side H] | eassumption]) ].

(** One footprint is within another. *)
Ltac fp_sub H :=
  let k := fresh "k" in
  let Hk := fresh "Hk" in
  intros k Hk; apply H; destruct k; cbn in *; tauto.

(** The walk through the structure of a computation; [known] closes the
    calls that have a footprint lemma of their own. *)
Ltac fp_walk_with H known :=
  repeat first
    [ apply inv_ret | apply inv_raise | apply inv_diverge | apply inv_gets
    | apply inv_lift
    | apply inv_Decimal_floordiv | apply inv_Decimal_div
    | apply inv_Decimal_quantize_down
    | known
    | fp_leaf H
    | apply inv_bind; [|intro]
    | apply inv_try; [|intro]
    | progress cbv zeta
    | match goal with
      | |- inv _ (match ?x with _ => _ end) => destruct x
      end ].

Ltac fp_walk H := fp_walk_with H fail.

Section Pipelines.

Variable fp : kind -> Prop.
Variable s0 : state.
Variable cfg : config.
Variable w : world.

Lemma fp_build_cache accts :
  (forall k, reads_balance k -> fp k) ->
  forall c, inv (moves fp s0) (build_cache accts c).
Proof.
  intro H. induction accts as [|a r IH]; intro c; cbn [build_cache].
  - apply inv_ret.
  - unfold logger. fp_walk_with H ltac:(apply IH).
Qed.

Lemma fp_get_available currency :
  (forall k, reads_balance k -> fp k) ->
  inv (moves fp s0) (get_available w currency).
Proof.
  intro H. unfold get_available, kc_get_accounts, logger.
  fp_walk_with H ltac:(apply fp_build_cache; exact H).
Qed.

Lemma fp_submit_order side pr size :
  (forall k, pipeline side k -> fp k) ->
  inv (moves fp s0) (submit_order cfg w side pr size).
Proof.
  intro H.
  unfold submit_order, kc_create_limit_order, kc_create_market_order,
    kc_get_ticker, floor_price_to_tick, logger.
  fp_walk H.
Qed.

Lemma fp_place_order_attempts side pr size remaining :
  (forall k, pipeline side k -> fp k) ->
  forall attempt delay,
    inv (moves fp s0) (place_order_attempts cfg w remaining attempt delay side pr size).
Proof.
  intro H. induction remaining as [|r IH]; intros attempt delay;
    cbn [place_order_attempts]; unfold logger, sleep;
    fp_walk_with H ltac:(first [apply fp_submit_order; exact H | apply IH]).
Qed.

Lemma fp_confirm_pass side oid start_time :
  (forall k, pipeline side k -> fp k) ->
  inv (moves fp s0) (confirm_pass w oid start_time).
Proof.
  intro H. unfold confirm_pass, kc_get_order, kc_cancel_order, logger, sleep.
  fp_walk H.
Qed.

Lemma fp_confirm_loop side oid start_time fuel :
  (forall k, pipeline side k -> fp k) ->
  inv (moves fp s0) (confirm_loop w fuel oid start_time).
Proof.
  intro H. induction fuel as [|f IH]; cbn [confirm_loop];
    fp_walk_with H ltac:(first [apply (fp_confirm_pass side); exact H | apply IH]).
Qed.

(** The order pipeline: counters, log, sleeps, requests of its side and
    cancellations, one appended row, status updates. *)
Lemma fp_place_and_confirm_order fuel side pr size :
  (forall k, pipeline side k -> fp k) ->
  inv (moves fp s0) (place_and_confirm_order cfg w fuel side pr size).
Proof.
  intro H. unfold place_and_confirm_order, place_order_with_retry.
  fp_walk_with H
    ltac:(first [ apply fp_place_order_attempts; exact H
                | apply (fp_confirm_loop side); exact H ]).
Qed.

Lemma fp_place_buy fuel avail price_dec qty ts :
  (forall k, enters k -> fp k) ->
  inv (moves fp s0) (place_buy cfg w fuel avail price_dec qty ts).
Proof.
  intro H. unfold place_buy, deal_of, logger.
  fp_walk_with H
    ltac:(first
      [ apply fp_place_and_confirm_order; fp_sub H
      | apply inv_modify; intros ? ?;
        (eapply moves_touch;
           [apply touch_open | solve [fp_side H] | eassumption]) ]).
Qed.

Lemma fp_buy_branch fuel p ts :
  (forall k, enters k -> fp k) ->
  inv (moves fp s0) (buy_branch cfg w fuel p ts).
Proof.
  intro H.
  unfold buy_branch, entry_quantity, kc_get_ticker, floor_price_to_tick, logger.
  fp_walk_with H ltac:(apply fp_place_buy; exact H).
Qed.

Lemma fp_place_sell fuel p qty ts :
  (forall k, exits k -> fp k) ->
  inv (moves fp s0) (place_sell cfg w fuel p qty ts).
Proof.
  intro H. unfold place_sell, deal_of, logger.
  fp_walk_with H
    ltac:(first [ apply fp_place_and_confirm_order; fp_sub H
                | apply fp_get_available; fp_sub H ]).
Qed.

Lemma fp_sell_branch fuel p curH ts :
  (forall k, exits k -> fp k) ->
  inv (moves fp s0) (sell_branch cfg w fuel p curH ts).
Proof.
  intro H. unfold sell_branch, exit_condition, exit_block, exit_quantity, logger.
  fp_walk_with H ltac:(apply fp_place_sell; exact H).
Qed.

Lemma fp_evaluate fuel p ts :
  (forall k, evaluates k -> fp k) ->
  inv (moves fp s0) (evaluate cfg w fuel p ts).
Proof.
  intro H. unfold evaluate, predict, decide, fdiv, logger.
  fp_walk_with H
    ltac:(first [ apply fp_buy_branch; fp_sub H
                | apply fp_sell_branch; fp_sub H ]).
Qed.

Lemma fp_update_balances :
  (forall k, reads_balance k -> fp k) ->
  inv (moves fp s0) (update_balances cfg w).
Proof.
  intro H. unfold update_balances.
  fp_walk_with H ltac:(apply fp_get_available; exact H).
Qed.

End Pipelines.

(** The evaluation leaves the bar in progress and the window. *)
Lemma evaluates_keep_bar k s s' :
  evaluates k -> touch k s s' ->
  current_bar s' = current_bar s /\ minList s' = minList s.
Proof.
  intros Hk Ht. destruct Ht; cbn in *; try contradiction; split; reflexivity.
Qed.

Section HandleFootprint.

Variable fp : kind -> Prop.
Variable s0 : state.
Variable cfg : config.
Variable w : world.
Hypothesis H : forall k, handles k -> fp k.

Lemma fp_aggregate fuel d p ts : inv (moves fp s0) (aggregate cfg w fuel d p ts).
Proof.
  intros s Hs. unfold aggregate. cbv zeta.
  unfold bind at 1. unfold gets at 1. cbv beta iota.
  destruct (current_bar s) as [b|] eqn:Hb.
  - destruct (minute b <? minute_of ts)%Z eqn:Hm.
    + (* a bar closes *)
      unfold bind at 1. unfold modify at 1. cbv beta iota.
      set (s1 := with_minList (deque_append (minute b, b) (minList s)) s).
      assert (Hs1 : moves fp s0 s1).
      { eapply moves_touch; [apply touch_window | apply H; exact I | exact Hs]. }
      assert (Hev : moves evaluates s1 (snd (evaluate cfg w fuel p ts s1))).
      { apply (moves_of_inv evaluates (evaluate cfg w fuel p ts)).
        intro s2. apply fp_evaluate. auto. }
      assert (Hb2 : current_bar (snd (evaluate cfg w fuel p ts s1)) = Some b).
      { apply (moves_inv evaluates (fun x => current_bar x = Some b)
                 (fun k x x' Hk Ht Hx =>
                    eq_trans (proj1 (evaluates_keep_bar k x x' Hk Ht)) Hx)
                 s1 _ Hev).
        exact Hb. }
      assert (Hs2 : moves fp s0 (snd (evaluate cfg w fuel p ts s1))).
      { eapply moves_trans; [exact Hs1|].
        eapply moves_mono; [|exact Hev].
        intros k Hk. apply H. destruct k; cbn in *; tauto. }
      unfold bind at 1.
      destruct (evaluate cfg w fuel p ts s1) as [[[]|e|] s2]; cbn [snd] in *;
        try exact Hs2.
      unfold bind, lift, modify.
      destruct (float_field (p_size d) (Ret 0)) as [z|e|]; cbn [snd];
        try exact Hs2.
      eapply moves_touch; [apply touch_bar_open | apply H; exact I | exact Hs2].
      rewrite Hb2. apply Z.ltb_lt, Hm.
    + (* the tick is folded into the bar in progress *)
      unfold bind, modify, lift.
      assert (Hs1 : moves fp s0 (with_bar (Some (set_hlc p b)) s)).
      { eapply moves_touch;
          [apply touch_bar_price; exact Hb | apply H; exact I | exact Hs]. }
      destruct (float_field (p_size d) (Ret 0)) as [z|e|]; cbn [snd];
        try exact Hs1.
      eapply moves_touch;
        [apply (touch_bar_volume z (set_hlc p b)); reflexivity
        | apply H; exact I | exact Hs1].
  - unfold bind, lift, modify.
    destruct (float_field (p_size d) (Ret 0)) as [z|e|]; cbn [snd];
      try exact Hs.
    eapply moves_touch; [apply touch_bar_open | apply H; exact I | exact Hs].
    rewrite Hb. exact I.
Qed.

Lemma fp_handle fuel msg : inv (moves fp s0) (handle cfg w fuel msg).
Proof.
  unfold handle, handle_body, logger.
  fp_walk_with H
    ltac:(first [ apply fp_update_balances; fp_sub H
                | apply fp_aggregate ]).
Qed.

End HandleFootprint.

Section SyncFootprint.

Variable fp : kind -> Prop.
Variable s0 : state.
Variable cfg : config.
Variable w : world.
Hypothesis H : forall k, reconciles k -> fp k.

Lemma fp_fetch_order_attempts oid max_retries base_delay remaining :
  forall attempt,
    inv (moves fp s0)
      (fetch_order_attempts w remaining attempt max_retries base_delay oid).
Proof.
  induction remaining as [|r IH]; intro attempt; cbn [fetch_order_attempts];
    unfold kc_get_order, logger, sleep;
    fp_walk_with H ltac:(apply IH).
Qed.

Lemma fp_restore_position t : inv (moves fp s0) (restore_position cfg w t).
Proof.
  unfold restore_position, logger.
  fp_walk_with H
    ltac:(first
      [ apply fp_get_available; fp_sub H
      | apply inv_modify; intros ? ?;
        (eapply moves_touch;
           [apply touch_open | solve [fp_side H] | eassumption]) ]).
Qed.

Lemma fp_sync_one t : inv (moves fp s0) (sync_one cfg w t).
Proof.
  unfold sync_one, fetch_order_with_retry, logger.
  fp_walk_with H
    ltac:(first [ apply fp_fetch_order_attempts | apply fp_restore_position ]).
Qed.

Lemma fp_sync_loop pending : forall updated,
  inv (moves fp s0) (sync_loop cfg w pending updated).
Proof.
  induction pending as [|t r IH]; intro updated; cbn [sync_loop];
    fp_walk_with H ltac:(first [apply fp_sync_one | apply IH]).
Qed.

Lemma fp_sync_open_trades : inv (moves fp s0) (sync_open_trades cfg w).
Proof.
  unfold sync_open_trades, logger.
  fp_walk_with H ltac:(apply fp_sync_loop).
Qed.

End SyncFootprint.

(** One cycle of the handler is made of updates of the handler's
    footprint, and one run of reconciliation of updates of its own. *)
Lemma handle_moves cfg w fuel msg s :
  moves handles s (snd (handle cfg w fuel msg s)).
Proof.
  apply (moves_of_inv handles (handle cfg w fuel msg)).
  intro s0. apply fp_handle. auto.
Qed.

Lemma sync_open_trades_moves cfg w s :
  moves reconciles s (snd (sync_open_trades cfg w s)).
Proof.
  apply (moves_of_inv reconciles (sync_open_trades cfg w)).
  intro s0. apply fp_sync_open_trades. auto.
Qed.

(* ------------------------------------------------------------------ *)
(** ** What every cycle and every reconciliation keeps *)
(* ------------------------------------------------------------------ *)

Lemma rows_kept_refl l : rows_kept l l.
Proof. intros i t Hi. exists t. auto. Qed.

Lemma rows_kept_trans l1 l2 l3 :
  rows_kept l1 l2 -> rows_kept l2 l3 -> rows_kept l1 l3.
Proof.
  intros H12 H23 i t Hi.
  destruct (H12 i t Hi) as (t2 & H2 & E2).
  destruct (H23 i t2 H2) as (t3 & H3 & E3).
  exists t3. split; [exact H3 | congruence].
Qed.

Lemma update_first_unstatus o st l u l' :
  update_first o st l = Some (u, l') -> map unstatus l' = map unstatus l.
Proof.
  revert u l'. induction l as [|r l IH]; intros u l' E; simpl in E; [discriminate|].
  destruct (String.eqb (order_id r) o).
  - injection E as _ <-. reflexivity.
  - destruct (update_first o st l) as [[u2 l2]|]; [|discriminate].
    injection E as _ <-. simpl. f_equal. eapply IH. reflexivity.
Qed.

Lemma update_first_length o st l u l' :
  update_first o st l = Some (u, l') -> List.length l' = List.length l.
Proof.
  intro E. rewrite <- (length_map unstatus l'), <- (length_map unstatus l).
  f_equal. eapply update_first_unstatus. exact E.
Qed.

Lemma rows_kept_of_map l l' :
  map unstatus l' = map unstatus l -> rows_kept l l'.
Proof.
  intros E i t Hi.
  assert (Hm : nth_error (map unstatus l') i = Some (unstatus t)).
  { rewrite E. apply map_nth_error, Hi. }
  destruct (nth_error l' i) as [t'|] eqn:Hi'.
  - exists t'. split; [reflexivity|].
    rewrite (map_nth_error unstatus i l' Hi') in Hm. congruence.
  - apply nth_error_None in Hi'.
    assert (Hlen : (i < List.length (map unstatus l'))%nat).
    { apply nth_error_Some. congruence. }
    rewrite length_map in Hlen. lia.
Qed.

Lemma rows_kept_app l t : rows_kept l (l ++ [t]).
Proof.
  intros i r Hi. exists r. split; [|reflexivity].
  rewrite nth_error_app1; [exact Hi|]. apply nth_error_Some. congruence.
Qed.

(** The ledger after an update of any kind keeps the rows it had. *)
Lemma touch_rows_kept k s s' : touch k s s' -> rows_kept (ledger s) (ledger s').
Proof.
  intro Ht. destruct Ht; cbn; try apply rows_kept_refl.
  - apply rows_kept_app.
  - apply rows_kept_of_map. eapply update_first_unstatus. eassumption.
Qed.

Lemma moves_rows_kept fp s s' : moves fp s s' -> rows_kept (ledger s) (ledger s').
Proof.
  intro H. induction H as [|k s1 s2 _ IH _ Ht]; [apply rows_kept_refl|].
  eapply rows_kept_trans; [exact IH | eapply touch_rows_kept; exact Ht].
Qed.

(** X9. No cycle of the handler and no run of reconciliation deletes,
    moves or rewrites a row of the ledger: every row stays at its index
    with its key, order id, type, symbol, price, quantity, timestamp and
    profit, and only its status may change; reconciliation adds no row. *)
Theorem ledger_rows_are_kept cfg w fuel :
  (forall msg s, rows_kept (ledger s) (ledger (snd (handle cfg w fuel msg s)))) /\
  (forall s, rows_kept (ledger s) (ledger (snd (sync_open_trades cfg w s))) /\
             List.length (ledger (snd (sync_open_trades cfg w s)))
             = List.length (ledger s)).
Proof.
  split.
  - intros msg s. eapply moves_rows_kept. apply handle_moves.
  - intro s. split; [eapply moves_rows_kept; apply sync_open_trades_moves|].
    apply (moves_inv reconciles
             (fun x => List.length (ledger x) = List.length (ledger s)))
      with (s := s); [|apply sync_open_trades_moves | reflexivity].
    intros k x x' Hk Ht Hx. destruct Ht; cbn in *; try contradiction; try exact Hx.
    rewrite <- Hx. eapply update_first_length. eassumption.
Qed.

Lemma NoDup_snoc {A} (l : list A) x : ~ In x l -> NoDup l -> NoDup (l ++ [x]).
Proof.
  intros Hx Hl. induction Hl as [|y l Hy Hl IH]; simpl.
  - constructor; [intros [] | constructor].
  - constructor.
    + intro Hin. apply in_app_or in Hin. destruct Hin as [Hin | [E | []]].
      * contradiction.
      * apply Hx. left. symmetry. exact E.
    + apply IH. intro Hin. apply Hx. right. exact Hin.
Qed.

Lemma next_id_fresh l : ~ In (next_id l) (map trade_id l).
Proof.
  intro Hin. apply in_map_iff in Hin. destruct Hin as (t & E & Hin).
  apply next_id_above in Hin. lia.
Qed.

Lemma map_trade_id_unstatus l : map trade_id (map unstatus l) = map trade_id l.
Proof. rewrite map_map. apply map_ext. reflexivity. Qed.

Lemma touch_unique_ids k s s' :
  touch k s s' ->
  NoDup (map trade_id (ledger s)) -> NoDup (map trade_id (ledger s')).
Proof.
  intros Ht Hs. destruct Ht; cbn; try exact Hs.
  - rewrite map_app. cbn. apply NoDup_snoc; [|exact Hs].
    match goal with E : trade_id _ = _ |- _ => rewrite E end.
    apply next_id_fresh.
  - rewrite <- map_trade_id_unstatus.
    match goal with E : update_first _ _ _ = _ |- _ =>
      rewrite (update_first_unstatus _ _ _ _ _ E) end.
    rewrite map_trade_id_unstatus. exact Hs.
Qed.

(** X10. The primary keys of the ledger stay pairwise distinct through
    every cycle of the handler and every run of reconciliation. *)
Theorem trade_ids_stay_unique cfg w fuel s :
  NoDup (map trade_id (ledger s)) ->
  (forall msgs, NoDup (map trade_id (ledger (run_handle cfg w fuel msgs s)))) /\
  NoDup (map trade_id (ledger (snd (sync_open_trades cfg w s)))).
Proof.
  intro Hs. split.
  - intro msgs. revert s Hs. induction msgs as [|m r IH]; intros s Hs; [exact Hs|].
    cbn [run_handle]. apply IH.
    apply (moves_inv handles (fun x => NoDup (map trade_id (ledger x))))
      with (s := s); [|apply handle_moves | exact Hs].
    intros k x x' _ Ht. apply touch_unique_ids with (k := k). exact Ht.
  - apply (moves_inv reconciles (fun x => NoDup (map trade_id (ledger x))))
      with (s := s); [|apply sync_open_trades_moves | exact Hs].
    intros k x x' _ Ht. apply touch_unique_ids with (k := k). exact Ht.
Qed.

Lemma trade_ids_stay_unique_witness :
  NoDup (map trade_id
           (ledger (run_handle Scenario.kcs_usdt Scenario.calm 4
                      Scenario.three_minutes Scenario.restarted))).
Proof.
  apply (trade_ids_stay_unique Scenario.kcs_usdt Scenario.calm 4 Scenario.restarted).
  cbn. constructor; [intros [] | constructor].
Defined.

Lemma deque_append_length x l :
  (List.length l <= 5)%nat -> (List.length (deque_append x l) <= 5)%nat.
Proof.
  intro Hl. unfold deque_append.
  assert (L : List.length (l ++ [x])%list = S (List.length l)).
  { rewrite length_app. cbn. lia. }
  destruct (5 <? List.length (l ++ [x]))%nat eqn:E.
  - destruct (l ++ [x])%list; cbn in *; lia.
  - apply Nat.ltb_ge in E. exact E.
Qed.

(** X11. The window of closed bars never holds more than five bars. *)
Theorem window_holds_five_bars cfg w fuel msgs s :
  (List.length (minList s) <= 5)%nat ->
  (List.length (minList (run_handle cfg w fuel msgs s)) <= 5)%nat.
Proof.
  revert s. induction msgs as [|m r IH]; intros s Hs; [exact Hs|].
  cbn [run_handle]. apply IH.
  apply (moves_inv handles (fun x => (List.length (minList x) <= 5)%nat))
    with (s := s); [|apply handle_moves | exact Hs].
  intros k x x' _ Ht Hx. destruct Ht; cbn; try exact Hx.
  apply deque_append_length, Hx.
Qed.

Lemma window_holds_five_bars_witness :
  (List.length (minList (run_handle Scenario.kcs_usdt Scenario.calm 4
                           Scenario.three_minutes Scenario.initial)) <= 5)%nat.
Proof.
  apply window_holds_five_bars. cbn. repeat constructor.
Defined.

(** ** The bar in progress *)

Lemma set_hlc_ok p b : bar_ok b -> bar_ok (set_hlc p b).
Proof.
  intros (H1 & H2 & H3 & H4). unfold bar_ok. cbn.
  destruct (py_max_ub (high b) p) as [M1 M2].
  destruct (py_min_lb (low b) p) as [m1 m2].
  repeat split.
  - eapply Qle_trans; [exact m1 | exact H1].
  - eapply Qle_trans; [exact H2 | exact M1].
  - exact m2.
  - exact M2.
Qed.

Lemma touch_bar k s s' b :
  touch k s s' -> current_bar s = Some b -> bar_ok b ->
  exists b', current_bar s' = Some b' /\ bar_ok b' /\ (minute b <= minute b')%Z.
Proof.
  intros Ht Hb Hok.
  destruct Ht; cbn; try (exists b; split; [exact Hb | split; [exact Hok | lia]]).
  - (* a new bar *)
    match goal with Hm : match current_bar _ with _ => _ end |- _ =>
      rewrite Hb in Hm end.
    eexists. split; [reflexivity|]. split; [|cbn; lia].
    unfold bar_ok. cbn. repeat split; apply Qle_refl.
  - match goal with E : current_bar _ = Some ?c |- _ =>
      rewrite Hb in E; injection E as <- end.
    eexists. split; [reflexivity|]. split; [apply set_hlc_ok, Hok | cbn; lia].
  - match goal with E : current_bar _ = Some ?c |- _ =>
      rewrite Hb in E; injection E as <- end.
    eexists. split; [reflexivity|]. split; [exact Hok | cbn; lia].
Qed.

(** X12. Once a bar is in progress there always is one; its open and its
    close stay between its low and its high, and its minute never goes
    back, whatever messages arrive and in whatever order. *)
Theorem bar_stays_ordered cfg w fuel msgs s b :
  current_bar s = Some b -> bar_ok b ->
  exists b',
    current_bar (run_handle cfg w fuel msgs s) = Some b' /\
    bar_ok b' /\ (minute b <= minute b')%Z.
Proof.
  revert s b. induction msgs as [|m r IH]; intros s b Hb Hok.
  - exists b. split; [exact Hb | split; [exact Hok | lia]].
  - cbn [run_handle].
    assert (H1 : exists b1, current_bar (snd (handle cfg w fuel m s)) = Some b1 /\
                   bar_ok b1 /\ (minute b <= minute b1)%Z).
    { apply (moves_inv handles
               (fun x => exists b1, current_bar x = Some b1 /\ bar_ok b1 /\
                                    (minute b <= minute b1)%Z))
        with (s := s); [|apply handle_moves|].
      - intros k x x' _ Ht (b1 & Hb1 & Hok1 & Hm1).
        destruct (touch_bar k x x' b1 Ht Hb1 Hok1) as (b2 & Hb2 & Hok2 & Hm2).
        exists b2. split; [exact Hb2 | split; [exact Hok2 | lia]].
      - exists b. split; [exact Hb | split; [exact Hok | lia]]. }
    destruct H1 as (b1 & Hb1 & Hok1 & Hm1).
    destruct (IH _ b1 Hb1 Hok1) as (b' & Hb' & Hok' & Hm').
    exists b'. split; [exact Hb' | split; [exact Hok' | lia]].
Qed.

Lemma bar_stays_ordered_witness :
  exists b',
    current_bar (run_handle Scenario.kcs_usdt Scenario.calm 4
                   Scenario.three_minutes Scenario.in_bar0) = Some b' /\
    bar_ok b' /\ (0 <= minute b')%Z.
Proof.
  apply (bar_stays_ordered Scenario.kcs_usdt Scenario.calm 4
           Scenario.three_minutes Scenario.in_bar0 Scenario.bar0).
  - reflexivity.
  - unfold bar_ok. cbn. repeat split; discriminate.
Defined.

(* ------------------------------------------------------------------ *)
(** ** Code that always ends, code that always returns *)
(* ------------------------------------------------------------------ *)

Lemma halts_ret {A} (a : A) : halts (ret a).
Proof. intro s. discriminate. Qed.

Lemma halts_raise {A} e : halts (@raise A e).
Proof. intro s. discriminate. Qed.

Lemma halts_gets {A} (f : state -> A) : halts (gets f).
Proof. intro s. discriminate. Qed.

Lemma halts_modify f : halts (modify f).
Proof. intro s. discriminate. Qed.

Lemma halts_ask {A} k count (oracle : nat -> reply A) : halts (ask k count oracle).
Proof. intro s. unfold ask. destruct (oracle _); discriminate. Qed.

Lemma halts_utcnow w : halts (utcnow w).
Proof. intro s. discriminate. Qed.

Lemma halts_bind {A B} (c : M A) (k : A -> M B) :
  halts c -> (forall a, halts (k a)) -> halts (bind c k).
Proof.
  intros Hc Hk s. unfold bind. specialize (Hc s).
  destruct (c s) as [[a|e|] s']; cbn in *; [apply Hk | discriminate | congruence].
Qed.

Lemma halts_try {A} (c : M A) h :
  halts c -> (forall e, halts (h e)) -> halts (try_except c h).
Proof.
  intros Hc Hh s. unfold try_except. specialize (Hc s).
  destruct (c s) as [[a|e|] s']; cbn in *; [discriminate | apply Hh | congruence].
Qed.

Lemma returns_halts {A} (c : M A) : returns c -> halts c.
Proof. intros H s. destruct (H s) as (a & E). rewrite E. discriminate. Qed.

Lemma returns_ret {A} (a : A) : returns (ret a).
Proof. intro s. exists a. reflexivity. Qed.

Lemma returns_gets {A} (f : state -> A) : returns (gets f).
Proof. intro s. eexists. reflexivity. Qed.

Lemma returns_modify f : returns (modify f).
Proof. intro s. exists tt. reflexivity. Qed.

Lemma returns_utcnow w : returns (utcnow w).
Proof. intro s. eexists. reflexivity. Qed.

Lemma returns_bind {A B} (c : M A) (k : A -> M B) :
  returns c -> (forall a, returns (k a)) -> returns (bind c k).
Proof.
  intros Hc Hk s. unfold bind. destruct (Hc s) as (a & E).
  destruct (c s) as [r s']. cbn in E. subst r. apply Hk.
Qed.

Lemma returns_try {A} (c : M A) h :
  halts c -> (forall e, returns (h e)) -> returns (try_except c h).
Proof.
  intros Hc Hh s. unfold try_except. specialize (Hc s).
  destruct (c s) as [[a|e|] s']; cbn in *;
    [exists a; reflexivity | apply Hh | congruence].
Qed.

Ltac halts_walk known :=
  repeat first
    [ apply halts_ret | apply halts_raise | apply halts_gets
    | apply halts_modify | apply halts_ask | apply halts_utcnow
    | known
    | apply halts_bind; [|intro]
    | apply halts_try; [|intro]
    | progress cbv zeta
    | match goal with
      | |- halts (match ?x with _ => _ end) => destruct x
      end ].

Ltac returns_walk known :=
  repeat first
    [ apply returns_ret | apply returns_gets | apply returns_modify
    | apply returns_utcnow
    | known
    | apply returns_bind; [|intro]
    | apply returns_try; [|intro]
    | progress cbv zeta
    | match goal with
      | |- returns (match ?x with _ => _ end) => destruct x
      end ].

Lemma halts_fetch_order_attempts w oid max_retries base_delay remaining :
  forall attempt,
    halts (fetch_order_attempts w remaining attempt max_retries base_delay oid).
Proof.
  induction remaining as [|r IH]; intro attempt; cbn [fetch_order_attempts];
    unfold kc_get_order, logger, sleep; halts_walk ltac:(apply IH).
Qed.

Lemma returns_get_available w currency : returns (get_available w currency).
Proof.
  intro s. destruct (get_available_frame w currency s) as (v & s' & E & _).
  exists v. rewrite E. reflexivity.
Qed.

Lemma returns_update_trade_status oid st : returns (update_trade_status oid st).
Proof.
  unfold update_trade_status, logger. returns_walk fail.
Qed.

Lemma returns_sync_one cfg w t : returns (sync_one cfg w t).
Proof.
  unfold sync_one, fetch_order_with_retry, restore_position, logger.
  returns_walk
    ltac:(first [ apply returns_get_available
                | apply returns_update_trade_status ]).
  halts_walk ltac:(apply halts_fetch_order_attempts).
Qed.

Lemma returns_sync_loop cfg w pending : forall updated,
  returns (sync_loop cfg w pending updated).
Proof.
  induction pending as [|t r IH]; intro updated; cbn [sync_loop];
    returns_walk ltac:(first [apply returns_sync_one | apply IH]).
Qed.

(** X13. Reconciliation always returns, whatever the exchange answers.  It
    only reads from the exchange: it sends no order and no cancellation.
    It never closes a position, touches neither the bar in progress, the
    window, the statistics nor the sell-only flag, and leaves the ledger
    as it is when no row is pending. *)
Theorem reconciliation_only_reads cfg w s :
  let s' := snd (sync_open_trades cfg w s) in
  fst (sync_open_trades cfg w s) = Ret tt /\
  requests (ext s') = requests (ext s) /\
  n_create (ext s') = n_create (ext s) /\
  n_cancel (ext s') = n_cancel (ext s) /\
  (in_position (pos s) = true -> in_position (pos s') = true) /\
  current_bar s' = current_bar s /\ minList s' = minList s /\
  sts s' = sts s /\ stop_requested s' = stop_requested s /\
  (pending_trades (ledger s) = [] ->
   ledger s' = ledger s /\ pos s' = pos s /\
   n_get_order (ext s') = n_get_order (ext s)).
Proof.
  cbv zeta.
  assert (R : returns (sync_open_trades cfg w)).
  { unfold sync_open_trades, logger.
    returns_walk ltac:(apply returns_sync_loop). }
  split.
  { destruct (R s) as ([] & E). exact E. }
  pose proof (sync_open_trades_moves cfg w s) as Hm.
  assert (K : requests (ext (snd (sync_open_trades cfg w s))) = requests (ext s) /\
              n_create (ext (snd (sync_open_trades cfg w s))) = n_create (ext s) /\
              n_cancel (ext (snd (sync_open_trades cfg w s))) = n_cancel (ext s) /\
              (in_position (pos s) = true ->
               in_position (pos (snd (sync_open_trades cfg w s))) = true) /\
              current_bar (snd (sync_open_trades cfg w s)) = current_bar s /\
              minList (snd (sync_open_trades cfg w s)) = minList s /\
              sts (snd (sync_open_trades cfg w s)) = sts s /\
              stop_requested (snd (sync_open_trades cfg w s)) = stop_requested s).
  { apply (moves_inv reconciles
             (fun x => requests (ext x) = requests (ext s) /\
                       n_create (ext x) = n_create (ext s) /\
                       n_cancel (ext x) = n_cancel (ext s) /\
                       (in_position (pos s) = true -> in_position (pos x) = true) /\
                       current_bar x = current_bar s /\ minList x = minList s /\
                       sts x = sts s /\ stop_requested x = stop_requested s))
      with (s := s); [|exact Hm | repeat split; auto].
    intros k x x' Hk Ht Hx.
    destruct Ht; cbn in *; try contradiction; try exact Hx.
    - (* a counter other than those of creation and cancellation *)
      destruct Hx as (H1 & H2 & H3 & Hx).
      split; [exact H1|].
      destruct Hk as [<- | [<- | [<- | []]]]; cbn; auto.
    - (* a position is opened *)
      destruct Hx as (H1 & H2 & H3 & H4 & Hx).
      repeat (split; [assumption|]). split; [reflexivity | exact Hx]. }
  destruct K as (K1 & K2 & K3 & K4 & K5 & K6 & K7 & K8).
  repeat (split; [assumption|]).
  intro Hp. unfold sync_open_trades, bind, gets, logger, modify, ret.
  rewrite Hp. cbn. auto.
Qed.

Lemma reconciliation_only_reads_witness :
  in_position (pos (snd (sync_open_trades Scenario.kcs_usdt Scenario.calm
                           Scenario.holding))) = true /\
  ledger (snd (sync_open_trades Scenario.kcs_usdt Scenario.calm Scenario.reconciled))
  = ledger Scenario.reconciled.
Proof.
  split.
  - apply (reconciliation_only_reads Scenario.kcs_usdt Scenario.calm Scenario.holding).
    reflexivity.
  - apply (reconciliation_only_reads Scenario.kcs_usdt Scenario.calm Scenario.reconciled).
    reflexivity.
Defined.

(* ------------------------------------------------------------------ *)
(** ** When the engine cannot trade *)
(* ------------------------------------------------------------------ *)

(** A walk for an invariant given with the tactic that closes it under a
    state update. *)
Ltac inv_walk leaf known :=
  repeat first
    [ apply inv_ret | apply inv_raise | apply inv_diverge | apply inv_gets
    | apply inv_lift
    | known
    | apply inv_modify; intros ? ?; solve [leaf]
    | apply inv_bind; [|intro]
    | apply inv_try; [|intro]
    | progress cbv zeta
    | match goal with
      | |- inv _ (match ?x with _ => _ end) => destruct x
      end ].

Lemma untraded_refl s : untraded s s.
Proof. unfold untraded. auto. Qed.

Lemma untraded_trans s1 s2 s3 : untraded s1 s2 -> untraded s2 s3 -> untraded s1 s3.
Proof. unfold untraded. intuition congruence. Qed.

Lemma untraded_idle s s' : untraded s s' -> idle s -> idle s'.
Proof.
  intros (Hp & _ & _ & Hs & Hm) [H | [H1 H2]]; [left | right].
  - congruence.
  - rewrite Hp, Hs. auto.
Qed.

Section Idle.

Variable cfg : config.
Variable w : world.

Lemma touch_flags k s s' :
  touch k s s' ->
  stop_requested s' = stop_requested s /\ models_ready s' = models_ready s.
Proof. intro Ht. destruct Ht; cbn; auto. Qed.

Lemma update_balances_untraded s :
  untraded s (snd (update_balances cfg w s)).
Proof.
  apply (moves_inv reads_balance (fun x => untraded s x)) with (s := s);
    [| |apply untraded_refl].
  - intros k x x' Hk Ht Hx. eapply untraded_trans; [exact Hx|].
    destruct Ht; cbn in *; try contradiction; unfold untraded; cbn; auto.
  - apply (moves_of_inv reads_balance (update_balances cfg w)).
    intro s1. apply fp_update_balances. auto.
Qed.

(** The evaluation of an engine that cannot trade trades nothing. *)
Lemma evaluate_idle fuel p ts s :
  idle s -> untraded s (snd (evaluate cfg w fuel p ts s)).
Proof.
  intro Hi.
  assert (Hflags : stop_requested (snd (evaluate cfg w fuel p ts s)) = stop_requested s /\
                   models_ready (snd (evaluate cfg w fuel p ts s)) = models_ready s).
  { apply (moves_inv evaluates
             (fun x => stop_requested x = stop_requested s /\
                       models_ready x = models_ready s)) with (s := s);
      [| |auto].
    - intros k x x' _ Ht [H1 H2].
      destruct (touch_flags k x x' Ht) as [F1 F2]. split; congruence.
    - apply (moves_of_inv evaluates (evaluate cfg w fuel p ts)).
      intro s1. apply fp_evaluate. auto. }
  destruct Hi as [Hm | [Hs Hp]].
  - (* no models: no forecast *)
    assert (E : evaluate cfg w fuel p ts s = (Ret tt, s)).
    { unfold evaluate, predict, bind, gets. rewrite Hm. reflexivity. }
    rewrite E. apply untraded_refl.
  - destruct (evaluate_cases cfg w fuel p ts s)
      as [(r & s' & E & Hb) | [(curH & s1 & _ & Hin & _) | (s1 & _ & _ & Hst & _)]];
      [|congruence|congruence].
    rewrite E in *. cbn [snd] in *.
    destruct Hb as (B1 & _ & B3 & _ & B5 & _).
    unfold untraded. intuition.
Qed.

Lemma handle_idle fuel msg s :
  idle s -> untraded s (snd (handle cfg w fuel msg s)).
Proof.
  intro Hi.
  assert (Hev : forall p ts, inv (untraded s) (evaluate cfg w fuel p ts)).
  { intros p ts x Hx. eapply untraded_trans; [exact Hx|].
    apply evaluate_idle. eapply untraded_idle; eassumption. }
  assert (Hub : inv (untraded s) (update_balances cfg w)).
  { intros x Hx. eapply untraded_trans; [exact Hx|].
    apply update_balances_untraded. }
  assert (K : inv (untraded s) (handle cfg w fuel msg)).
  { unfold handle, handle_body, aggregate, logger.
    inv_walk ltac:(unfold untraded in *; cbn; assumption)
             ltac:(first [apply Hev | apply Hub]). }
  apply K. apply untraded_refl.
Qed.

End Idle.

(** X14. An engine whose models are not loaded, or that is flat in sell-only
    mode, never trades again by itself: whatever messages arrive, it sends
    no request, writes nothing to the ledger and keeps its position and
    its two flags. *)
Theorem idle_engine_never_trades cfg w fuel msgs s :
  idle s ->
  untraded s (run_handle cfg w fuel msgs s) /\
  idle (run_handle cfg w fuel msgs s).
Proof.
  revert s. induction msgs as [|m r IH]; intros s Hi.
  - split; [apply untraded_refl | exact Hi].
  - cbn [run_handle].
    pose proof (handle_idle cfg w fuel m s Hi) as H1.
    destruct (IH _ (untraded_idle _ _ H1 Hi)) as [H2 H3].
    split; [eapply untraded_trans; eassumption | exact H3].
Qed.

Lemma idle_engine_never_trades_witness :
  requests (ext (run_handle Scenario.kcs_usdt Scenario.calm 4
                   Scenario.three_minutes case_closing)) = [].
Proof.
  apply (idle_engine_never_trades Scenario.kcs_usdt Scenario.calm 4
           Scenario.three_minutes case_closing).
  right. split; reflexivity.
Defined.

(* ------------------------------------------------------------------ *)
(** ** The side of the orders of a cycle *)
(* ------------------------------------------------------------------ *)

Lemma sent_since_refl P s : sent_since P s s.
Proof. exists []. rewrite app_nil_r. split; [reflexivity | constructor]. Qed.

Lemma sent_since_trans P s1 s2 s3 :
  sent_since P s1 s2 -> sent_since P s2 s3 -> sent_since P s1 s3.
Proof.
  intros (a & Ea & Ha) (b & Eb & Hb). exists (a ++ b)%list.
  rewrite Eb, Ea, app_assoc. split; [reflexivity|].
  apply Forall_app. split; assumption.
Qed.

Lemma sent_since_same P s s' :
  requests (ext s') = requests (ext s) -> sent_since P s s'.
Proof.
  intro E. exists []. rewrite app_nil_r. split; [exact E | constructor].
Qed.

(** The requests of a footprint. *)
Lemma moves_sent (fp : kind -> Prop) (P : request -> Prop) s s' :
  (forall r, fp (Sent r) -> P r) -> moves fp s s' -> sent_since P s s'.
Proof.
  intros HP H. induction H as [|k s1 s2 _ IH Hk Ht]; [apply sent_since_refl|].
  eapply sent_since_trans; [exact IH|].
  destruct Ht; try (apply sent_since_same; reflexivity).
  exists [r]. split; [reflexivity|]. constructor; [apply HP, Hk | constructor].
Qed.

Section Sides.

Variable cfg : config.
Variable w : world.

Lemma evaluate_sides fuel p ts s :
  sent_since (order_of (if in_position (pos s) then "sell" else "buy"))
    s (snd (evaluate cfg w fuel p ts s)).
Proof.
  destruct (evaluate_cases cfg w fuel p ts s)
    as [(r & s' & E & Hb) | [(curH & s1 & Hb & Hin & E) | (s1 & Hb & Hin & _ & E)]].
  - rewrite E. apply sent_since_same. apply Hb.
  - rewrite E, Hin.
    eapply sent_since_trans; [apply sent_since_same; apply Hb|].
    apply (moves_sent exits); [intros r Hr; exact Hr|].
    apply (moves_of_inv exits (sell_branch cfg w fuel p curH ts)).
    intro s2. apply fp_sell_branch. auto.
  - rewrite E, Hin.
    eapply sent_since_trans; [apply sent_since_same; apply Hb|].
    apply (moves_sent enters); [intros r Hr; exact Hr|].
    apply (moves_of_inv enters (buy_branch cfg w fuel p ts)).
    intro s2. apply fp_buy_branch. auto.
Qed.

Lemma handle_sides fuel msg s :
  sent_since (order_of (if in_position (pos s) then "sell" else "buy"))
    s (snd (handle cfg w fuel msg s)).
Proof.
  set (P := order_of (if in_position (pos s) then "sell" else "buy")).
  set (Before := fun x => sent_since P s x /\ pos x = pos s).
  set (After := fun x => sent_since P s x).
  assert (BA : forall x, Before x -> After x) by (intros x [Hx _]; exact Hx).
  assert (Hev : forall p ts, hoare Before (evaluate cfg w fuel p ts) After).
  { intros p ts x [Hx Hp]. eapply sent_since_trans; [exact Hx|].
    unfold P. rewrite <- Hp. apply evaluate_sides. }
  assert (Hub : inv Before (update_balances cfg w)).
  { intros x [Hx Hp].
    destruct (update_balances_untraded cfg w x) as (U1 & _ & U3 & _).
    split; [|congruence].
    eapply sent_since_trans; [exact Hx | apply sent_since_same, U3]. }
  assert (Hagg : forall d p ts, hoare Before (aggregate cfg w fuel d p ts) After).
  { intros d p ts. unfold aggregate. cbv zeta.
    apply hoare_bind_pre; [apply inv_gets | | exact BA].
    intros [b|].
    - destruct (_ <? _)%Z.
      + apply hoare_bind_pre; [| | exact BA].
        * apply inv_modify. intros x [Hx Hp]. split; [|exact Hp].
          eapply sent_since_trans; [exact Hx | apply sent_since_same; reflexivity].
        * intros _. apply hoare_bind_post; [apply Hev | intros _].
          apply inv_bind; [apply inv_lift | intro].
          apply inv_modify. intros x Hx.
          eapply sent_since_trans; [exact Hx | apply sent_since_same; reflexivity].
      + apply hoare_of_inv; [|exact BA].
        inv_walk ltac:(idtac; match goal with Hx : Before _ |- _ =>
                         destruct Hx as [Hx1 Hx2]; split; [|exact Hx2];
                         eapply sent_since_trans;
                           [exact Hx1 | apply sent_since_same; reflexivity] end)
                 fail.
    - apply hoare_of_inv; [|exact BA].
      inv_walk ltac:(idtac; match goal with Hx : Before _ |- _ =>
                       destruct Hx as [Hx1 Hx2]; split; [|exact Hx2];
                       eapply sent_since_trans;
                         [exact Hx1 | apply sent_since_same; reflexivity] end)
               fail. }
  assert (K : hoare Before (handle cfg w fuel msg) After).
  { unfold handle, handle_body.
    apply hoare_try.
    - destruct (data msg) as [d|]; [|apply hoare_of_inv; [apply inv_ret | exact BA]].
      apply hoare_bind_pre; [exact Hub | | exact BA]. intros _.
      apply hoare_bind_pre; [apply inv_lift | | exact BA].
      intros [[p [ts|]]|].
      + apply Hagg.
      + apply hoare_of_inv; [apply inv_raise | exact BA].
      + apply hoare_of_inv; [apply inv_ret | exact BA].
    - intro e. unfold logger. apply inv_modify. intros x Hx.
      eapply sent_since_trans; [exact Hx | apply sent_since_same; reflexivity]. }
  apply K. split; [apply sent_since_refl | reflexivity].
Qed.

End Sides.

(** X15. The orders of a cycle follow the position the cycle starts in: in
    position the handler sends SELL orders (and cancellations) only, flat
    it sends BUY orders (and cancellations) only. *)
Theorem orders_follow_position cfg w fuel msg s :
  (in_position (pos s) = true ->
   sent_since (order_of "sell") s (snd (handle cfg w fuel msg s))) /\
  (in_position (pos s) = false ->
   sent_since (order_of "buy") s (snd (handle cfg w fuel msg s))).
Proof.
  pose proof (handle_sides cfg w fuel msg s) as H.
  split; intro Hin; rewrite Hin in H; exact H.
Qed.

Lemma orders_follow_position_witness :
  sent_since (order_of "sell") Scenario.holding
    (snd (handle Scenario.kcs_usdt Scenario.calm 4
            (Scenario.match_tick 9 (2 * NS_PER_MINUTE) 1) Scenario.holding)).
Proof.
  apply (orders_follow_position Scenario.kcs_usdt Scenario.calm 4).
  reflexivity.
Defined.

(* ------------------------------------------------------------------ *)
(** ** What a submission records *)
(* ------------------------------------------------------------------ *)

Lemma inv_ask_ext (I : state -> Prop) {A} k count (oracle : nat -> reply A) :
  (forall f x, I x -> I (with_ext f x)) -> inv I (ask k count oracle).
Proof. intros HI s Hs. unfold ask. destruct (oracle _); apply HI, Hs. Qed.

Lemma inv_utcnow_ext (I : state -> Prop) w :
  (forall f x, I x -> I (with_ext f x)) -> inv I (utcnow w).
Proof. intros HI s Hs. apply HI, Hs. Qed.

Lemma halts_lift_field f (d : res Q) : d <> Diverge -> halts (lift (float_field f d)).
Proof. intros Hd s. cbn. apply float_field_ends, Hd. Qed.

Section Recording.

Variable cfg : config.
Variable w : world.

Lemma submit_order_row side pr size s :
  match submit_order cfg w side pr size s with
  | (Ret o, s') =>
      exists t, ledger s' = (ledger s ++ [t])%list /\
                recorded cfg side pr size o (ledger s) t
  | (Raise _, s') => ledger s' = ledger s
  | (Diverge, _) => False
  end.
Proof.
  unfold submit_order.
  match goal with |- context [bind ?c _ s] => set (P := c) end.
  assert (HP : inv (fun x => ledger x = ledger s) P).
  { unfold P, kc_create_limit_order, kc_create_market_order, kc_get_ticker,
      floor_price_to_tick, logger.
    inv_walk ltac:(cbn [ledger with_ext]; assumption)
             ltac:(first
               [ apply inv_Decimal_floordiv | apply inv_Decimal_quantize_down
               | match goal with
                 | |- inv _ (ask _ _ _) =>
                     apply inv_ask_ext; intros; cbn [ledger with_ext]; assumption
                 end ]). }
  assert (HH : halts P).
  { unfold P, kc_create_limit_order, kc_create_market_order, kc_get_ticker,
      floor_price_to_tick, Decimal_floordiv, Decimal_quantize_down, logger.
    halts_walk ltac:(idtac; match goal with
                     | |- halts (lift _) => apply halts_lift_field; discriminate
                     end). }
  specialize (HP s eq_refl). specialize (HH s).
  unfold bind at 1. destruct (P s) as [[o|e|] s1]; cbn [fst snd] in *;
    [| exact HP | congruence].
  cbv zeta. unfold bind at 1. unfold utcnow at 1. cbv beta iota.
  unfold create_trade.
  destruct (Str.or_else (o_orderId o) (o_id o)) as [oid|] eqn:Eo.
  - unfold bind, gets, modify, logger, ret. cbn.
    eexists. rewrite HP. split; [reflexivity|].
    unfold recorded. cbn. rewrite Eo. repeat split; reflexivity.
  - unfold bind, raise. cbn. exact HP.
Qed.

Lemma place_order_attempts_row side pr size remaining :
  forall attempt delay s,
    (attempt + remaining = S MAX_ORDER_RETRIES)%nat -> (1 <= remaining)%nat ->
    match place_order_attempts cfg w remaining attempt delay side pr size s with
    | (Ret (Some o), s') =>
        exists t, ledger s' = (ledger s ++ [t])%list /\
                  recorded cfg side pr size o (ledger s) t
    | (Ret None, _) => False
    | (Raise _, s') => ledger s' = ledger s
    | (Diverge, _) => False
    end.
Proof.
  induction remaining as [|r IH]; intros attempt delay s Hsum Hrem; [lia|].
  cbn [place_order_attempts].
  unfold try_except. unfold bind at 1.
  pose proof (submit_order_row side pr size s) as Hs.
  destruct (submit_order cfg w side pr size s) as [[o|e|] s1];
    [exact Hs | | exact Hs].
  unfold bind at 1. unfold logger at 1. unfold modify at 1. cbv beta iota.
  destruct (Nat.eqb attempt MAX_ORDER_RETRIES) eqn:Ea.
  - unfold bind, logger, modify, raise. cbn. exact Hs.
  - apply Nat.eqb_neq in Ea.
    unfold bind at 1. unfold sleep at 1. unfold modify at 1. cbv beta iota.
    match goal with |- context [place_order_attempts _ _ _ _ _ _ _ _ ?x] =>
      assert (Hx : ledger x = ledger s) by exact Hs;
      specialize (IH (S attempt) (delay * 2) x)
    end.
    rewrite Hx in IH. apply IH; unfold MAX_ORDER_RETRIES in *; lia.
Qed.

End Recording.

(** X16. A submission that succeeds appends exactly one row to the ledger:
    the order's id, the status the exchange reported for it ("filled",
    "canceled", or "open" when it reports none), the side, the symbol, the
    reference price, the size and no profit.  A submission that fails after
    its five attempts leaves the ledger as it was.  It always ends. *)
Theorem submission_records_one_row cfg w side pr size s :
  match place_order_with_retry cfg w side pr size s with
  | (Ret (Some o), s') =>
      exists t, ledger s' = (ledger s ++ [t])%list /\
                recorded cfg side pr size o (ledger s) t
  | (Ret None, _) => False
  | (Raise _, s') => ledger s' = ledger s
  | (Diverge, _) => False
  end.
Proof.
  unfold place_order_with_retry.
  apply place_order_attempts_row; unfold MAX_ORDER_RETRIES; lia.
Qed.

(* ------------------------------------------------------------------ *)
(** ** The outcomes of confirmation polling *)
(* ------------------------------------------------------------------ *)

Section Polling.

Variable w : world.

(** X17. A poll that finds the order inactive ends the confirmation: the
    order's row gets the status mapped from the exchange's ("filled" for
    done or filled, "canceled" for canceled or cancelled, "open" for
    anything else or none); the order is returned when that status is
    "filled", and otherwise a RuntimeError naming the order and the status
    is raised.  No cancellation is sent and the clock is not read. *)
Theorem confirmation_of_inactive_order oid start fuel s st :
  get_order w (n_get_order (ext s)) = Reply st ->
  o_isActive st <> Some true ->
  let mapped := map_status (Str.lower (Str.or_empty (o_status st))) in
  let r := confirm_loop w (S fuel) oid start s in
  (mapped = "filled" -> fst r = Ret st) /\
  (mapped <> "filled" ->
   fst r = Raise (RuntimeError ("Order " ++ show_oid oid ++ " " ++ mapped))) /\
  ledger (snd r)
  = match match oid with
          | Some o => update_first o mapped (ledger s)
          | None => None
          end with
    | Some (_, l') => l'
    | None => ledger s
    end /\
  requests (ext (snd r)) = requests (ext s) /\
  n_clock (ext (snd r)) = n_clock (ext s) /\
  sleeps (ext (snd r)) = sleeps (ext s).
Proof.
  intros Hd Hact. cbv zeta.
  set (mapped := map_status (Str.lower (Str.or_empty (o_status st)))).
  assert (Hneg : negb (match o_isActive st with Some b => b | None => false end) = true).
  { destruct (o_isActive st) as [[|]|]; try reflexivity. congruence. }
  remember (confirm_loop w (S fuel) oid start s) as R eqn:HR.
  cbn [confirm_loop] in HR. unfold confirm_pass in HR.
  unfold bind at 1 in HR. unfold bind at 1 in HR.
  unfold try_except, kc_get_order, ask in HR. unfold bind at 1 in HR.
  rewrite Hd in HR. cbn [ret] in HR. cbv beta iota in HR.
  rewrite Hneg in HR. fold mapped in HR.
  unfold bind at 1 in HR. unfold update_trade_status in HR.
  unfold bind at 1 in HR. unfold gets at 1 in HR. cbv beta iota in HR.
  cbn [ledger with_ext] in HR.
  destruct (match oid with Some o => update_first o mapped (ledger s) | None => None end)
    as [[u l']|].
  - unfold bind, modify, logger, ret, raise in HR. cbv beta iota in HR.
    destruct (String.eqb mapped "filled") eqn:Em; cbv beta iota in HR; subst R.
    + apply String.eqb_eq in Em. cbn. repeat split; congruence.
    + apply String.eqb_neq in Em. cbn. repeat split; congruence.
  - unfold bind, modify, logger, ret, raise in HR. cbv beta iota in HR.
    destruct (String.eqb mapped "filled") eqn:Em; cbv beta iota in HR; subst R.
    + apply String.eqb_eq in Em. cbn. repeat split; congruence.
    + apply String.eqb_neq in Em. cbn. repeat split; congruence.
Qed.

End Polling.

Lemma confirmation_of_inactive_order_witness :
  fst (confirm_loop Scenario.calm 1 (Some "A1") 0 Scenario.reconciled)
  = Ret (Scenario.order "A1" (Some "done") (Some false) (Some "DEAL")) /\
  fst (confirm_loop Scenario.terse 1 (Some "A1") 0 Scenario.reconciled)
  = Raise (RuntimeError "Order A1 open").
Proof.
  split.
  - destruct (confirmation_of_inactive_order Scenario.calm (Some "A1") 0 0
                Scenario.reconciled
                (Scenario.order "A1" (Some "done") (Some false) (Some "DEAL")))
      as (H & _); [reflexivity | discriminate |].
    apply H. reflexivity.
  - destruct (confirmation_of_inactive_order Scenario.terse (Some "A1") 0 0
                Scenario.reconciled
                (Scenario.order "A1" None (Some false) (Some "DEAL")))
      as (_ & H & _); [reflexivity | discriminate |].
    apply H. discriminate.
Defined.

Lemma confirm_pass_unindexed w oid start s :
  unindexed w (n_get_order (ext s)) ->
  confirm_pass w oid start s
  = (Ret Again,
     with_ext (add_sleep (1 # 2))
       (with_ext (add_log WARNING "error fetching order")
          (with_ext (bump 4) s))).
Proof.
  intro H. destruct (H (n_get_order (ext s)) (le_n _)) as (msg & Hf & Hc).
  unfold confirm_pass.
  unfold bind at 1. unfold try_except, kc_get_order, ask.
  unfold bind at 1. rewrite Hf. cbv beta iota.
  unfold bind at 1. unfold logger at 1. unfold modify at 1. cbv beta iota.
  rewrite Hc. reflexivity.
Qed.

Lemma confirm_loop_unindexed w oid start fuel : forall s,
  unindexed w (n_get_order (ext s)) ->
  let r := confirm_loop w fuel oid start s in
  fst r = Diverge /\
  requests (ext (snd r)) = requests (ext s) /\
  n_clock (ext (snd r)) = n_clock (ext s) /\
  n_cancel (ext (snd r)) = n_cancel (ext s) /\
  n_get_order (ext (snd r)) = (n_get_order (ext s) + fuel)%nat /\
  sleeps (ext (snd r)) = (sleeps (ext s) ++ repeat (1 # 2) fuel)%list /\
  ledger (snd r) = ledger s /\ pos (snd r) = pos s.
Proof.
  induction fuel as [|f IH]; intros s H; cbv zeta.
  - cbn. rewrite Nat.add_0_r, app_nil_r. repeat split; reflexivity.
  - cbn [confirm_loop]. unfold bind at 1 2 3 4 5 6 7 8.
    rewrite (confirm_pass_unindexed w oid start s H).
    match goal with |- context [confirm_loop w f oid start ?x] =>
      destruct (IH x) as (I1 & I2 & I3 & I4 & I5 & I6 & I7 & I8)
    end.
    { intros j Hj. apply H. cbn in Hj. lia. }
    cbn [ext with_ext add_sleep add_log bump requests n_clock n_cancel
         n_get_order sleeps ledger pos Nat.eqb] in I2, I3, I4, I5, I6, I7, I8.
    rewrite I1, I2, I3, I4, I5, I6, I7, I8.
    cbn [repeat]. rewrite <- app_assoc. cbn [app].
    repeat split; try reflexivity. lia.
Qed.

(** X18. While the exchange answers that the order does not exist, the
    confirmation loop polls on every half second without end: it never
    reads the clock, so the sixty-second limit does not apply, and it sends
    no cancellation and leaves the ledger and the position alone. *)
Theorem unindexed_order_is_polled_forever w oid start fuel s :
  unindexed w (n_get_order (ext s)) ->
  let r := confirm_loop w fuel oid start s in
  fst r = Diverge /\
  requests (ext (snd r)) = requests (ext s) /\
  n_clock (ext (snd r)) = n_clock (ext s) /\
  n_cancel (ext (snd r)) = n_cancel (ext s) /\
  n_get_order (ext (snd r)) = (n_get_order (ext s) + fuel)%nat /\
  sleeps (ext (snd r)) = (sleeps (ext s) ++ repeat (1 # 2) fuel)%list /\
  ledger (snd r) = ledger s /\ pos (snd r) = pos s.
Proof. apply confirm_loop_unindexed. Qed.

Lemma unindexed_order_is_polled_forever_witness :
  fst (confirm_loop case_unindexed 7 (Some "A1") 0 Scenario.restarted) = Diverge /\
  ledger (snd (confirm_loop case_unindexed 7 (Some "A1") 0 Scenario.restarted))
  = ledger Scenario.restarted.
Proof.
  destruct (unindexed_order_is_polled_forever case_unindexed (Some "A1") 0 7
              Scenario.restarted) as (H1 & _ & _ & _ & _ & _ & H7 & _).
  - intros j _. eexists. split; reflexivity.
  - split; [exact H1 | exact H7].
Defined.

(* ------------------------------------------------------------------ *)
(** ** Fetching an order for reconciliation *)
(* ------------------------------------------------------------------ *)

Lemma fetch_order_attempts_reads w oid max_retries base_delay remaining :
  forall attempt s,
    let r := fetch_order_attempts w remaining attempt max_retries base_delay oid s in
    fst r <> Diverge /\
    requests (ext (snd r)) = requests (ext s) /\
    ledger (snd r) = ledger s /\ pos (snd r) = pos s /\
    (n_get_order (ext (snd r)) <= n_get_order (ext s) + remaining)%nat.
Proof.
  induction remaining as [|r IH]; intros attempt s; cbv zeta;
    cbn [fetch_order_attempts].
  - cbn. repeat split; [discriminate | lia].
  - unfold try_except, bind, kc_get_order, ask, logger, sleep, modify, ret, raise.
    destruct (get_order w (n_get_order (ext s))) as [d|e].
    + cbn. repeat split; [discriminate | lia].
    + destruct e; try (cbn; repeat split; [discriminate | lia]).
      destruct (Nat.eqb attempt max_retries).
      * cbn. repeat split; [discriminate | lia].
      * match goal with |- context [fetch_order_attempts w r ?a _ _ _ ?x] =>
          destruct (IH a x) as (H1 & H2 & H3 & H4 & H5)
        end.
        cbn in H2, H3, H4, H5.
        repeat split; try assumption. lia.
Qed.

(** X19. [fetch_order_with_retry] queries the exchange at most three times
    and sends it nothing.  It returns the first answer; after an API error
    it waits half a second, then one second, and raises the third API error
    without waiting; any other error is raised at once, without a retry. *)
Theorem fetch_retry_policy w oid s k :
  api_failures w (n_get_order (ext s)) k ->
  let r := fetch_order_with_retry w oid s in
  let n := n_get_order (ext s) in
  Forall2 Qeq fetch_backoff [1 # 2; 1] /\
  fst r <> Diverge /\ fst r <> Ret None /\
  (n_get_order (ext (snd r)) <= n + 3)%nat /\
  requests (ext (snd r)) = requests (ext s) /\
  ledger (snd r) = ledger s /\ pos (snd r) = pos s /\
  (k = 3%nat ->
     exists msg, get_order w (n + 2) = Fails (KucoinAPIException msg) /\
       fst r = Raise (KucoinAPIException msg) /\
       sleeps (ext (snd r)) = (sleeps (ext s) ++ fetch_backoff)%list) /\
  (forall d, (k < 3)%nat -> get_order w (n + k) = Reply d ->
     fst r = Ret (Some d) /\
     n_get_order (ext (snd r)) = (n + k + 1)%nat /\
     sleeps (ext (snd r)) = (sleeps (ext s) ++ firstn k fetch_backoff)%list) /\
  (forall e, (k < 3)%nat -> get_order w (n + k) = Fails e ->
     (forall msg, e <> KucoinAPIException msg) ->
     fst r = Raise e /\
     n_get_order (ext (snd r)) = (n + k + 1)%nat /\
     sleeps (ext (snd r)) = (sleeps (ext s) ++ firstn k fetch_backoff)%list).
Proof.
  intro Hf. cbv zeta.
  split; [repeat constructor; reflexivity|].
  destruct (fetch_order_attempts_reads w oid 3 (1 # 2) 3 1 s)
    as (R1 & R2 & R3 & R4 & R5).
  fold (fetch_order_with_retry w oid) in R1, R2, R3, R4, R5.
  split; [exact R1|].
  assert (Hsome : fst (fetch_order_with_retry w oid s) <> Ret None).
  { unfold fetch_order_with_retry. cbn [fetch_order_attempts].
    unfold try_except, bind, kc_get_order, ask, logger, sleep, modify, ret, raise.
    repeat (match goal with
            | |- context [get_order w ?n] => destruct (get_order w n) as [?d|[]]
            end; cbn);
      discriminate. }
  split; [exact Hsome|].
  repeat (split; [assumption|]).
  assert (F0 : (0 < k)%nat -> exists msg,
            get_order w (n_get_order (ext s)) = Fails (KucoinAPIException msg)).
  { intro Hk. destruct (Hf 0%nat Hk) as (msg & E).
    rewrite Nat.add_0_r in E. eauto. }
  assert (F1 : (1 < k)%nat -> exists msg,
            get_order w (S (n_get_order (ext s))) = Fails (KucoinAPIException msg)).
  { intro Hk. destruct (Hf 1%nat Hk) as (msg & E).
    rewrite Nat.add_1_r in E. eauto. }
  assert (F2 : (2 < k)%nat -> exists msg,
            get_order w (S (S (n_get_order (ext s)))) = Fails (KucoinAPIException msg)).
  { intro Hk. destruct (Hf 2%nat Hk) as (msg & E).
    replace (n_get_order (ext s) + 2)%nat with (S (S (n_get_order (ext s)))) in E by lia.
    eauto. }
  unfold fetch_order_with_retry. cbn [fetch_order_attempts].
  unfold try_except, bind, kc_get_order, ask, logger, sleep, modify, ret, raise.
  split; [|split].
  - intros ->.
    destruct F0 as (m0 & E0); [lia|]. destruct F1 as (m1 & E1); [lia|].
    destruct F2 as (m2 & E2); [lia|].
    exists m2.
    replace (n_get_order (ext s) + 2)%nat with (S (S (n_get_order (ext s)))) by lia.
    split; [exact E2|].
    rewrite E0. cbn. rewrite E1. cbn. rewrite E2. cbn.
    rewrite <- app_assoc. split; reflexivity.
  - intros d Hk Hd.
    destruct k as [|[|[|k]]]; [| | |lia].
    + rewrite Nat.add_0_r in Hd. rewrite Hd. cbn.
      rewrite app_nil_r. repeat split. lia.
    + destruct F0 as (m0 & E0); [lia|].
      rewrite Nat.add_1_r in Hd. rewrite E0. cbn. rewrite Hd. cbn.
      repeat split. lia.
    + destruct F0 as (m0 & E0); [lia|]. destruct F1 as (m1 & E1); [lia|].
      replace (n_get_order (ext s) + 2)%nat with (S (S (n_get_order (ext s)))) in Hd by lia.
      rewrite E0. cbn. rewrite E1. cbn. rewrite Hd. cbn.
      rewrite <- app_assoc. repeat split. lia.
  - intros e Hk He Hne.
    destruct k as [|[|[|k]]]; [| | |lia].
    + rewrite Nat.add_0_r in He. rewrite He.
      destruct e; try (cbn; rewrite app_nil_r; repeat split; lia).
      exfalso. eapply Hne. reflexivity.
    + destruct F0 as (m0 & E0); [lia|].
      rewrite Nat.add_1_r in He. rewrite E0. cbn. rewrite He.
      destruct e; try (cbn; repeat split; lia).
      exfalso. eapply Hne. reflexivity.
    + destruct F0 as (m0 & E0); [lia|]. destruct F1 as (m1 & E1); [lia|].
      replace (n_get_order (ext s) + 2)%nat with (S (S (n_get_order (ext s)))) in He by lia.
      rewrite E0. cbn. rewrite E1. cbn. rewrite He.
      destruct e; cbn; rewrite <- app_assoc; repeat split; lia.
Qed.

Lemma fetch_retry_policy_witness :
  fst (fetch_order_with_retry case_unindexed "A1" Scenario.restarted)
  = Raise (KucoinAPIException "Order does not exist") /\
  sleeps (ext (snd (fetch_order_with_retry case_unindexed "A1" Scenario.restarted)))
  = fetch_backoff.
Proof.
  assert (Hf : api_failures case_unindexed (n_get_order (ext Scenario.restarted)) 3).
  { intros j _. eexists. reflexivity. }
  destruct (fetch_retry_policy case_unindexed "A1" Scenario.restarted 3 Hf)
    as (_ & _ & _ & _ & _ & _ & _ & H & _).
  destruct (H eq_refl) as (msg & E & Hr & Hs).
  injection E as <-. split; [exact Hr | exact Hs].
Defined.

(* ------------------------------------------------------------------ *)
(** ** The balance cache *)
(* ------------------------------------------------------------------ *)

Lemma dict_get_set_same k v d l : dict_get k d (dict_set k v l) = v.
Proof.
  induction l as [|[k' v'] r IH]; simpl.
  - rewrite String.eqb_refl. reflexivity.
  - destruct (String.eqb k' k) eqn:E; simpl.
    + rewrite String.eqb_refl. reflexivity.
    + rewrite E. exact IH.
Qed.

Lemma dict_get_set_other k k' v d l :
  k' <> k -> dict_get k d (dict_set k' v l) = dict_get k d l.
Proof.
  intro N. induction l as [|[k2 v2] r IH]; simpl.
  - destruct (String.eqb k' k) eqn:E; [|reflexivity].
    apply String.eqb_eq in E. contradiction.
  - destruct (String.eqb k2 k') eqn:E; simpl.
    + apply String.eqb_eq in E. subst k2.
      destruct (String.eqb k' k) eqn:E2; [|reflexivity].
      apply String.eqb_eq in E2. contradiction.
    + destruct (String.eqb k2 k); [reflexivity | exact IH].
Qed.

Lemma overwritten_none currency accts : forall v,
  (forall a, In a accts -> credited currency a = None) ->
  overwritten currency accts v = v.
Proof.
  induction accts as [|a r IH]; intros v H; [reflexivity|].
  unfold overwritten in *. simpl. rewrite (H a (or_introl eq_refl)).
  apply IH. intros a' Ha. apply H. right. exact Ha.
Qed.

Lemma overwritten_app currency l1 l2 v :
  overwritten currency (l1 ++ l2) v = overwritten currency l2 (overwritten currency l1 v).
Proof. unfold overwritten. apply fold_left_app. Qed.

Lemma overwritten_holds currency accts :
  holds_balance currency accts (overwritten currency accts 0).
Proof.
  induction accts as [|a r IH] using rev_ind.
  - left. split; [intros a []|reflexivity].
  - rewrite overwritten_app. unfold overwritten at 1. simpl.
    destruct (credited currency a) as [q|] eqn:E.
    + right. exists r, a, []. repeat split; [exact E | intros a' []].
    + destruct IH as [[Hn Hv] | (l1 & a0 & l2 & Hl & Ha & Hr)].
      * left. split; [|exact Hv].
        intros a' Ha'. apply in_app_or in Ha'. destruct Ha' as [Ha' | [<- | []]]; auto.
      * right. exists l1, a0, (l2 ++ [a])%list. split; [|split].
        -- rewrite Hl, <- app_assoc. reflexivity.
        -- exact Ha.
        -- intros a' Ha'. apply in_app_or in Ha'.
           destruct Ha' as [Ha' | [<- | []]]; auto.
Qed.

Section Cache.

Variable w : world.

(** The loop of lines 113-121 writes the entries in their order; it reads
    no clock and asks the exchange nothing. *)
Lemma build_cache_overwrites accts : forall c s,
  exists c' s', build_cache accts c s = (Ret c', s') /\
    bal s' = bal s /\ pos s' = pos s /\ ledger s' = ledger s /\
    requests (ext s') = requests (ext s) /\
    n_clock (ext s') = n_clock (ext s) /\
    n_accounts (ext s') = n_accounts (ext s) /\
    forall currency,
      dict_get currency 0 c' = overwritten currency accts (dict_get currency 0 c).
Proof.
  induction accts as [|a r IH]; intros c s.
  - exists c, s. repeat split; reflexivity.
  - assert (SKIP : (forall currency, credited currency a = None) ->
       forall s0, bal s0 = bal s -> pos s0 = pos s -> ledger s0 = ledger s ->
         requests (ext s0) = requests (ext s) -> n_clock (ext s0) = n_clock (ext s) ->
         n_accounts (ext s0) = n_accounts (ext s) ->
       exists c' s', build_cache r c s0 = (Ret c', s') /\
         bal s' = bal s /\ pos s' = pos s /\ ledger s' = ledger s /\
         requests (ext s') = requests (ext s) /\
         n_clock (ext s') = n_clock (ext s) /\
         n_accounts (ext s') = n_accounts (ext s) /\
         forall currency,
           dict_get currency 0 c' = overwritten currency (a :: r) (dict_get currency 0 c)).
    { intros Hn s0 H1 H2 H3 H4 H5 H6.
      destruct (IH c s0) as (c' & s' & E & B & P & L & R & C & A & G).
      exists c', s'. split; [exact E|].
      repeat split; try congruence.
      intro currency. unfold overwritten. cbn [fold_left]. rewrite Hn. apply G. }
    assert (SET : forall cur q,
       a_currency a = Some cur ->
       (forall currency, credited currency a =
          if String.eqb cur currency then Some q else None) ->
       exists c' s', build_cache r (dict_set cur q c) s = (Ret c', s') /\
         bal s' = bal s /\ pos s' = pos s /\ ledger s' = ledger s /\
         requests (ext s') = requests (ext s) /\
         n_clock (ext s') = n_clock (ext s) /\
         n_accounts (ext s') = n_accounts (ext s) /\
         forall currency,
           dict_get currency 0 c' = overwritten currency (a :: r) (dict_get currency 0 c)).
    { intros cur q Hc Hq.
      destruct (IH (dict_set cur q c) s) as (c' & s' & E & B & P & L & R & C & A & G).
      exists c', s'. split; [exact E|].
      repeat split; try assumption.
      intro currency. rewrite G. unfold overwritten. cbn [fold_left]. rewrite Hq.
      destruct (String.eqb cur currency) eqn:Ec.
      - apply String.eqb_eq in Ec. subst. rewrite dict_get_set_same. reflexivity.
      - apply String.eqb_neq in Ec. rewrite dict_get_set_other by exact Ec. reflexivity. }
    cbn [build_cache].
    destruct (a_currency a) as [cur|] eqn:Ecur.
    + destruct (andb (negb (String.eqb cur "")) (String.eqb (Str.or_empty (a_type a)) "trade"))
        eqn:Ecount.
      * destruct (a_available a) eqn:Eav.
        -- eapply SET; [reflexivity|]. intro currency. unfold credited.
           rewrite Ecur, Ecount, Eav. destruct (String.eqb cur currency); reflexivity.
        -- unfold bind, logger, modify.
           apply SKIP; try reflexivity.
           intro currency. unfold credited. rewrite Ecur, Ecount, Eav.
           destruct (String.eqb cur currency); reflexivity.
        -- eapply SET; [reflexivity|]. intro currency. unfold credited.
           rewrite Ecur, Ecount, Eav. destruct (String.eqb cur currency); reflexivity.
      * apply SKIP; try reflexivity.
        intro currency. unfold credited. rewrite Ecur, Ecount.
        destruct (String.eqb cur currency); reflexivity.
    + apply SKIP; try reflexivity.
      intro currency. unfold credited. rewrite Ecur. reflexivity.
Qed.

(** The run of a refresh that the exchange answers. *)
Lemma get_available_stale_run currency s accts c' s1 :
  stale (clock w (n_clock (ext s))) s = true ->
  get_accounts w (n_accounts (ext s)) = Reply accts ->
  build_cache accts [] (with_ext (bump 1) (with_ext (bump 0) s)) = (Ret c', s1) ->
  get_available w currency s
  = (Ret (dict_get currency 0 c'),
     with_bal (set_cache c' (clock w (n_clock (ext s)))) s1).
Proof.
  intros Hs Ha E.
  unfold get_available, bind, utcnow, gets.
  cbn [bal with_ext]. unfold stale in Hs. rewrite Hs.
  unfold try_except, bind, kc_get_accounts, ask.
  cbn [ext with_ext bump Nat.eqb n_accounts]. rewrite Ha, E.
  unfold modify. reflexivity.
Qed.

(** The run of a call within the lifetime of the cache. *)
Lemma get_available_fresh_run currency s :
  stale (clock w (n_clock (ext s))) s = false ->
  get_available w currency s
  = (Ret (dict_get currency 0 (_balance_cache (bal s))), with_ext (bump 0) s).
Proof.
  intros Hs.
  unfold get_available, bind, utcnow, gets.
  cbn [bal with_ext]. unfold stale in Hs. rewrite Hs. reflexivity.
Qed.

(** X20. When the cache is empty or older than sixty seconds and the exchange
    answers, [get_available] replaces the whole cache by the answer and
    stamps it with the instant it read.  A currency then has the amount of
    the last entry of type "trade" for it whose amount parses (an entry
    without amount counts as 0), and 0 when no entry counts, whatever the
    old cache held. *)
Theorem get_available_refresh currency s accts :
  stale (clock w (n_clock (ext s))) s = true ->
  get_accounts w (n_accounts (ext s)) = Reply accts ->
  exists v s',
    get_available w currency s = (Ret v, s') /\
    holds_balance currency accts v /\
    (forall c, holds_balance c accts (dict_get c 0 (_balance_cache (bal s')))) /\
    _last_balance_fetch (bal s') = Some (clock w (n_clock (ext s))) /\
    n_accounts (ext s') = S (n_accounts (ext s)) /\
    n_clock (ext s') = S (n_clock (ext s)) /\
    requests (ext s') = requests (ext s) /\
    pos s' = pos s /\ ledger s' = ledger s.
Proof.
  intros Hs Ha.
  destruct (build_cache_overwrites accts [] (with_ext (bump 1) (with_ext (bump 0) s)))
    as (c' & s1 & E & B & P & L & R & C & A & G).
  rewrite (get_available_stale_run currency s accts c' s1 Hs Ha E).
  eexists _, _. split; [reflexivity|].
  cbn [bal with_bal set_cache _balance_cache _last_balance_fetch ext pos ledger].
  assert (H0 : forall c, holds_balance c accts (dict_get c 0 c')).
  { intro c. rewrite G. cbn [dict_get]. apply overwritten_holds. }
  split; [apply H0|]. split; [exact H0|]. split; [reflexivity|].
  rewrite A, C, R, P, L. cbn. repeat split; reflexivity.
Qed.

(** X21. Within sixty seconds of the last refresh [get_available] asks the
    exchange nothing, and when the refresh fails it swallows the error: in
    both cases it returns what the cache holds for the currency (0 for a
    currency the cache does not know) and leaves the cache and its stamp as
    they were, so that a failed refresh is tried again by the next call. *)
Theorem get_available_falls_back currency s :
  stale (clock w (n_clock (ext s))) s = false \/
  (exists e, get_accounts w (n_accounts (ext s)) = Fails e) ->
  exists s',
    get_available w currency s =
      (Ret (dict_get currency 0 (_balance_cache (bal s))), s') /\
    bal s' = bal s /\
    (stale (clock w (n_clock (ext s))) s = false ->
     n_accounts (ext s') = n_accounts (ext s)) /\
    requests (ext s') = requests (ext s) /\
    pos s' = pos s /\ ledger s' = ledger s.
Proof.
  intros H.
  destruct (stale (clock w (n_clock (ext s))) s) eqn:Hs.
  - destruct H as [H | [e He]]; [discriminate|].
    unfold get_available, bind, utcnow, gets.
    cbn [bal with_ext]. unfold stale in Hs. rewrite Hs.
    unfold try_except, bind, kc_get_accounts, ask.
    cbn [ext with_ext bump Nat.eqb n_accounts]. rewrite He.
    unfold logger, modify. cbn [fst snd].
    eexists. split; [reflexivity|].
    repeat split; try reflexivity. discriminate.
  - rewrite (get_available_fresh_run currency s Hs).
    eexists. split; [reflexivity|].
    repeat split; reflexivity.
Qed.

End Cache.

Lemma get_available_refresh_witness :
  exists s', get_available Scenario.calm "USDT" Scenario.initial = (Ret 100, s') /\
    dict_get "KCS" 0 (_balance_cache (bal s')) = 1 # 10 /\
    dict_get "BTC" 0 (_balance_cache (bal s')) = 0.
Proof.
  destruct (get_available_refresh Scenario.calm "USDT" Scenario.initial
              (Scenario.accounts 100 (1 # 10)) eq_refl eq_refl)
    as (v & s' & E & _ & _ & _).
  exists s'. split; [|split].
  - rewrite E. vm_compute in E. injection E as <- _. reflexivity.
  - vm_compute in E. injection E as _ <-. reflexivity.
  - vm_compute in E. injection E as _ <-. reflexivity.
Defined.

Lemma get_available_falls_back_witness :
  fst (get_available Scenario.refusing "USDT"
         (snd (get_available Scenario.calm "KCS" Scenario.initial))) = Ret 100.
Proof.
  destruct (get_available_falls_back Scenario.refusing "USDT"
              (snd (get_available Scenario.calm "KCS" Scenario.initial))
              (or_introl eq_refl)) as (s' & E & _).
  rewrite E. reflexivity.
Defined.

Section Snapshot.

Variable cfg : config.
Variable w : world.

(** X22. When the cache is stale, the exchange answers and the two clock
    readings of [update_balances] are no more than sixty seconds apart,
    the two balances of a cycle come from one and the same answer: the
    exchange is asked once, and the quote and the base balance are the
    amounts that answer gives for the two currencies. *)
Theorem update_balances_one_snapshot s accts :
  stale (clock w (n_clock (ext s))) s = true ->
  get_accounts w (n_accounts (ext s)) = Reply accts ->
  (clock w (S (n_clock (ext s))) - clock w (n_clock (ext s)) <= BALANCE_CACHE_TTL)%Z ->
  exists s',
    update_balances cfg w s = (Ret tt, s') /\
    holds_balance (QUOTE cfg) accts (available_quote (bal s')) /\
    holds_balance (BASE cfg) accts (available_base (bal s')) /\
    n_accounts (ext s') = S (n_accounts (ext s)) /\
    _last_balance_fetch (bal s') = Some (clock w (n_clock (ext s))).
Proof.
  intros Hs Ha Hc.
  destruct (build_cache_overwrites accts []
              (with_ext (bump 1) (with_ext (bump 0) s)))
    as (c' & s1 & E & B & P & L & R & C & A & G).
  assert (H0 : forall c, holds_balance c accts (dict_get c 0 c')).
  { intro c. rewrite G. cbn [dict_get]. apply overwritten_holds. }
  unfold update_balances.
  rewrite (bind_Ret _ _ _ _ _
             (get_available_stale_run w (QUOTE cfg) s accts c' s1 Hs Ha E)).
  unfold bind at 1. unfold modify at 1. cbv beta iota.
  match goal with |- exists _, bind _ _ ?s0 = _ /\ _ => set (s2 := s0) end.
  assert (Hfresh : stale (clock w (n_clock (ext s2))) s2 = false).
  { unfold stale. subst s2.
    cbn [bal with_bal set_cache _last_balance_fetch ext].
    rewrite C. cbn [n_clock ext with_ext bump Nat.eqb].
    apply Z.ltb_ge. exact Hc. }
  rewrite (bind_Ret _ _ _ _ _ (get_available_fresh_run w (BASE cfg) s2 Hfresh)).
  unfold modify. eexists. split; [reflexivity|]. subst s2.
  cbn [bal with_bal with_ext set_cache available_quote available_base
       _last_balance_fetch _balance_cache ext].
  split; [apply H0|]. split; [apply H0|]. split; [|reflexivity].
  cbn [n_accounts ext with_ext bump Nat.eqb]. rewrite A. reflexivity.
Qed.

End Snapshot.

Lemma update_balances_one_snapshot_witness :
  exists s', update_balances Scenario.kcs_usdt Scenario.calm Scenario.initial = (Ret tt, s') /\
    available_quote (bal s') = 100 /\ available_base (bal s') = 1 # 10 /\
    n_accounts (ext s') = 1%nat.
Proof.
  destruct (update_balances_one_snapshot Scenario.kcs_usdt Scenario.calm Scenario.initial
              (Scenario.accounts 100 (1 # 10)) eq_refl eq_refl)
    as (s' & E & _ & _ & Hn & _).
  - vm_compute. discriminate.
  - exists s'. split; [exact E|].
    vm_compute in E. injection E as <-. repeat split.
Defined.

(* ------------------------------------------------------------------ *)
(** ** A bar that cannot close *)
(* ------------------------------------------------------------------ *)

Lemma deque_append_rev x l :
  l <> [] -> exists y r, rev (deque_append x l) = x :: y :: r.
Proof.
  intro N. unfold deque_append.
  destruct l as [|a l0]; [contradiction|].
  destruct (5 <? List.length ((a :: l0) ++ [x]))%nat eqn:E.
  - cbn [app tl]. rewrite rev_app_distr. cbn [rev app].
    destruct l0 as [|a1 l1]; [discriminate|].
    cbn [rev]. destruct (rev l1) as [|y r]; cbn [app]; eauto.
  - rewrite rev_app_distr. cbn [rev app].
    destruct (rev l0) as [|y r]; cbn [app]; eauto.
Qed.

Lemma deque_append_nonempty x l : deque_append x l <> [].
Proof.
  intro H. assert (R : rev (deque_append x l) = []) by (rewrite H; reflexivity).
  unfold deque_append in R.
  destruct (5 <? List.length (l ++ [x]))%nat eqn:E.
  - destruct l as [|a [|a1 l1]]; try discriminate.
    cbn [app tl] in R. change (a1 :: l1 ++ [x])%list with ((a1 :: l1) ++ [x])%list in R.
    rewrite rev_app_distr in R. discriminate.
  - rewrite rev_app_distr in R. discriminate.
Qed.

Section ZeroOpen.

Variable cfg : config.
Variable w : world.

(** The forecast divides by the open of the bar that has just closed. *)
Lemma predict_zero_open s x y r :
  models_ready s = true ->
  rev (minList s) = x :: y :: r ->
  open (snd x) == 0 ->
  predict w s = (Raise ZeroDivisionError, s).
Proof.
  intros Hm Hr Ho. unfold predict, bind, gets. rewrite Hm.
  assert (L : (2 <=? List.length (minList s))%nat = true).
  { rewrite <- length_rev, Hr. reflexivity. }
  rewrite L, Hr. cbn [andb]. destruct x as [m1 b1], y as [m2 b2]. cbn [snd] in Ho.
  assert (Z0 : Num.Qeqb (open b1) 0 = true).
  { unfold Num.Qeqb. apply Qeq_bool_iff. exact Ho. }
  unfold fdiv at 1. destruct (Num.Qeqb (open b2) 0); [reflexivity|].
  unfold ret at 1. unfold fdiv at 1. rewrite Z0. reflexivity.
Qed.

Lemma zero_open_frame b s s1 : frame s s1 -> zero_open b s -> zero_open b s1.
Proof.
  intros (F1 & F2 & F3 & F4 & F5 & F6 & F7 & F8 & F9) (Hm & Hl & Hb & Ho).
  unfold zero_open. rewrite F7, F3, F2. auto.
Qed.

Lemma aggregate_zero_open fuel d p ts s b :
  zero_open b s ->
  exists r s', aggregate cfg w fuel d p ts s = (r, s') /\
  (exists b', zero_open b' s' /\ minute b' = minute b) /\
  requests (ext s') = requests (ext s) /\ ledger s' = ledger s /\ pos s' = pos s /\
  sts s' = sts s.
Proof.
  intros (Hm & Hl & Hb & Ho).
  unfold aggregate. unfold bind at 1. unfold gets at 1. rewrite Hb.
  destruct (minute b <? minute_of ts)%Z.
  - unfold bind at 1. unfold modify at 1.
    set (s2 := with_minList (deque_append (minute b, b) (minList s)) s).
    destruct (deque_append_rev (minute b, b) (minList s) Hl) as (y & r & Hr).
    assert (E : evaluate cfg w fuel p ts s2 = (Raise ZeroDivisionError, s2)).
    { unfold evaluate, bind.
      rewrite (predict_zero_open s2 (minute b, b) y r Hm Hr Ho). reflexivity. }
    unfold bind at 1. rewrite E.
    eexists _, _. split; [reflexivity|].
    split; [|subst s2; cbn; auto].
    exists b. split; [|reflexivity].
    unfold zero_open. subst s2. cbn [models_ready minList current_bar with_minList].
    repeat split; auto. apply deque_append_nonempty.
  - unfold bind at 1. unfold modify at 1. unfold bind at 1. unfold lift at 1.
    assert (K : forall b1 s1, open b1 = open b -> minute b1 = minute b ->
              zero_open b1 (with_bar (Some b1) s1) <->
              (models_ready s1 = true /\ minList s1 <> [])).
    { intros b1 s1 O1 M1. unfold zero_open.
      cbn [models_ready minList current_bar with_bar]. rewrite O1. tauto. }
    destruct (float_field (p_size d) (Ret 0)) as [z|e|]; unfold modify;
      (eexists _, _; split; [reflexivity|]);
      (split; [|cbn; auto]).
    + exists (add_volume z (set_hlc p b)). split; [|reflexivity].
      apply K; cbn; auto.
    + exists (set_hlc p b). split; [|reflexivity]. apply K; cbn; auto.
    + exists (set_hlc p b). split; [|reflexivity]. apply K; cbn; auto.
Qed.

Lemma handle_zero_open fuel msg s b :
  zero_open b s ->
  let s' := snd (handle cfg w fuel msg s) in
  (exists b', zero_open b' s' /\ minute b' = minute b) /\
  requests (ext s') = requests (ext s) /\ ledger s' = ledger s /\ pos s' = pos s /\
  sts s' = sts s.
Proof.
  intros H. cbv zeta.
  assert (KEEP : forall s1, frame s s1 ->
    (exists b', zero_open b' s1 /\ minute b' = minute b) /\
    requests (ext s1) = requests (ext s) /\ ledger s1 = ledger s /\ pos s1 = pos s /\
    sts s1 = sts s).
  { intros s1 F. split; [exists b; split; [eapply zero_open_frame; eauto | reflexivity]|].
    destruct F as (F1 & F2 & F3 & F4 & F5 & F6 & F7 & F8 & F9). auto. }
  assert (LOG : forall l m s1, frame s s1 -> frame s (with_ext (add_log l m) s1)).
  { intros l m s1 F. eapply frame_trans; [exact F | apply frame_log]. }
  destruct (data msg) as [d|] eqn:Hd.
  2:{ unfold handle, try_except, handle_body. rewrite Hd. apply KEEP, frame_refl. }
  destruct (extract_price cfg (topic msg) d) as [[[p [ts|]]|]|e|] eqn:Hp.
  - destruct (handle_tick cfg w fuel msg d p ts s Hd Hp) as (s1 & F & E).
    rewrite E. unfold try_except.
    destruct (aggregate_zero_open fuel d p ts s1 b (zero_open_frame b s s1 F H))
      as (r & s2 & A & (b' & Hz & Hmin) & R & L & P & S).
    rewrite A. destruct r as [[]|e|]; cbn [snd].
    + destruct F as (F1 & F2 & F3 & F4 & F5 & F6 & F7 & F8 & F9).
      split; [exists b'; auto|]. repeat split; congruence.
    + destruct F as (F1 & F2 & F3 & F4 & F5 & F6 & F7 & F8 & F9).
      unfold logger, modify. cbn [snd].
      split; [exists b'; split; [|exact Hmin]|].
      * eapply zero_open_frame; [apply frame_log | exact Hz].
      * cbn. repeat split; congruence.
    + destruct F as (F1 & F2 & F3 & F4 & F5 & F6 & F7 & F8 & F9).
      split; [exists b'; auto|]. repeat split; congruence.
  - destruct (update_balances_frame cfg w s) as (s1 & E & F).
    unfold handle, try_except, handle_body. rewrite Hd.
    rewrite (bind_Ret _ _ _ _ _ E). unfold bind, lift. rewrite Hp.
    unfold raise, logger, modify. cbn [snd]. apply KEEP, LOG, F.
  - destruct (update_balances_frame cfg w s) as (s1 & E & F).
    unfold handle, try_except, handle_body. rewrite Hd.
    rewrite (bind_Ret _ _ _ _ _ E). unfold bind, lift. rewrite Hp.
    unfold ret. cbn [snd]. apply KEEP, F.
  - destruct (update_balances_frame cfg w s) as (s1 & E & F).
    unfold handle, try_except, handle_body. rewrite Hd.
    rewrite (bind_Ret _ _ _ _ _ E). unfold bind, lift. rewrite Hp.
    unfold logger, modify. cbn [snd]. apply KEEP, LOG, F.
  - destruct (update_balances_frame cfg w s) as (s1 & E & F).
    unfold handle, try_except, handle_body. rewrite Hd.
    rewrite (bind_Ret _ _ _ _ _ E). unfold bind, lift. rewrite Hp.
    cbn [snd]. apply KEEP, F.
Qed.

(** X23. A bar that opened at price 0 (a tick without price is read as price
    0) is never closed once the models are loaded and the window holds a
    bar.  Each tick of a later minute appends the bar to the window, the
    forecast then divides by its open, and [handle] swallows the
    ZeroDivisionError before the new bar is started.  From then on the
    minute of the bar in progress never advances, and the engine sends no
    order, writes no row and keeps its position and statistics, whatever
    messages arrive. *)
Theorem zero_open_bar_never_closes fuel msgs : forall s b,
  zero_open b s ->
  let s' := run_handle cfg w fuel msgs s in
  (exists b', zero_open b' s' /\ minute b' = minute b) /\
  requests (ext s') = requests (ext s) /\ ledger s' = ledger s /\ pos s' = pos s /\
  sts s' = sts s.
Proof.
  induction msgs as [|msg r IH]; intros s b H; cbv zeta.
  - cbn [run_handle]. split; [|auto]. exists b. auto.
  - cbn [run_handle].
    destruct (handle_zero_open fuel msg s b H) as ((b1 & H1 & M1) & R1 & L1 & P1 & S1).
    destruct (IH _ b1 H1) as ((b2 & H2 & M2) & R2 & L2 & P2 & S2).
    split; [exists b2; split; [exact H2 | congruence]|].
    repeat split; congruence.
Qed.

End ZeroOpen.

Lemma zero_open_bar_never_closes_witness :
  let s' := run_handle Scenario.kcs_usdt Scenario.calm 5 Scenario.three_minutes
              case_zero_open in
  (exists b', current_bar s' = Some b' /\ minute b' = 0%Z) /\
  requests (ext s') = [] /\ List.length (minList s') = 3%nat.
Proof.
  assert (Z0 : zero_open (new_bar 0 0 1) case_zero_open).
  { unfold zero_open. repeat split; discriminate. }
  destruct (zero_open_bar_never_closes Scenario.kcs_usdt Scenario.calm 5
              Scenario.three_minutes case_zero_open _ Z0)
    as ((b' & (_ & _ & Hb & _) & Hm) & Hr & _).
  cbv zeta. split; [exists b'; split; [exact Hb | exact Hm]|].
  split; [exact Hr | reflexivity].
Defined.

(* ------------------------------------------------------------------ *)
(** ** What the status endpoint makes of a booked SELL *)
(* ------------------------------------------------------------------ *)

Lemma filter_unstatus (f : Trade -> bool) :
  (forall t, f (unstatus t) = f t) ->
  forall l l', map unstatus l = map unstatus l' ->
    map unstatus (filter f l) = map unstatus (filter f l').
Proof.
  intros Hf. induction l as [|t r IH]; intros [|t' r'] E; try discriminate.
  - reflexivity.
  - assert (Et : unstatus t = unstatus t')
      by exact (f_equal (fun x => hd (unstatus t) x) E).
    assert (Er : map unstatus r = map unstatus r')
      by exact (f_equal (fun x => tl x) E).
    cbn [filter]. rewrite <- (Hf t), <- (Hf t'), Et.
    destruct (f (unstatus t')); cbn [map]; [f_equal; [exact Et|]|]; apply IH, Er.
Qed.

Lemma offset_limit_all {A} (l : list A) :
  (Z.of_nat (List.length l) <= 10000)%Z -> offset_limit 0 10000 l = l.
Proof.
  intro H. unfold offset_limit. cbn [Z.to_nat skipn Z.ltb Z.compare].
  apply firstn_all2. lia.
Qed.

Section Confirms.

Variable w : world.

Lemma fp_confirm_pass_only fp s0 oid start_time :
  (forall k, confirms k -> fp k) ->
  inv (moves fp s0) (confirm_pass w oid start_time).
Proof.
  intro H. unfold confirm_pass, kc_get_order, kc_cancel_order, logger, sleep.
  fp_walk H.
Qed.

Lemma fp_confirm_loop_only fp s0 oid start_time fuel :
  (forall k, confirms k -> fp k) ->
  inv (moves fp s0) (confirm_loop w fuel oid start_time).
Proof.
  intro H. induction fuel as [|f IH]; cbn [confirm_loop];
    fp_walk_with H ltac:(first [apply fp_confirm_pass_only; exact H | apply IH]).
Qed.

(** Confirmation adds no row: it rewrites statuses only. *)
Lemma confirm_loop_rows fuel oid start_time s :
  map unstatus (ledger (snd (confirm_loop w fuel oid start_time s)))
  = map unstatus (ledger s).
Proof.
  assert (Hm : moves confirms s (snd (confirm_loop w fuel oid start_time s))).
  { apply moves_of_inv. intro s0. apply fp_confirm_loop_only. auto. }
  apply (moves_inv confirms
           (fun x => map unstatus (ledger x) = map unstatus (ledger s)))
    with (s := s); [|exact Hm | reflexivity].
  intros k s1 s2 Hk Ht Hs. rewrite <- Hs.
  destruct Ht; cbn in *; try contradiction; try reflexivity.
  eapply update_first_unstatus. eassumption.
Qed.

End Confirms.

Section Booking.

Variable cfg : config.
Variable w : world.

Lemma pipeline_keeps_position side k s s' :
  pipeline side k -> touch k s s' -> pos s' = pos s /\ sts s' = sts s.
Proof.
  intros Hk Ht. destruct Ht; cbn in *; try contradiction; split; reflexivity.
Qed.

(** A confirmed order has added one row of its side, without profit, and
    the statuses of the rows may have changed. *)
Lemma place_and_confirm_rows fuel side pr size s :
  let r := place_and_confirm_order cfg w fuel side pr size s in
  pos (snd r) = pos s /\ sts (snd r) = sts s /\
  forall o, fst r = Ret o ->
    exists t, map unstatus (ledger (snd r)) = map unstatus (ledger s ++ [t]) /\
              type t = side /\ symbol t = SYMBOL cfg /\ pnl t = None.
Proof.
  cbv zeta.
  assert (Hm : moves (pipeline side) s
                 (snd (place_and_confirm_order cfg w fuel side pr size s))).
  { apply moves_of_inv. intro s0. apply fp_place_and_confirm_order. auto. }
  assert (K : pos (snd (place_and_confirm_order cfg w fuel side pr size s)) = pos s /\
              sts (snd (place_and_confirm_order cfg w fuel side pr size s)) = sts s).
  { apply (moves_inv (pipeline side) (fun x => pos x = pos s /\ sts x = sts s))
      with (s := s); [|exact Hm | auto].
    intros k s1 s2 Hk Ht [Hp Hs].
    destruct (pipeline_keeps_position side k s1 s2 Hk Ht). split; congruence. }
  destruct K as [Kp Ks]. split; [exact Kp|]. split; [exact Ks|].
  clear Hm Kp Ks. intros o.
  destruct (place_and_confirm_order cfg w fuel side pr size s) as [r s'] eqn:E.
  cbn [fst snd]. intros ->.
  unfold place_and_confirm_order, place_order_with_retry, bind in E.
  pose proof (place_order_attempts_row cfg w side pr size MAX_ORDER_RETRIES
                1%nat INITIAL_RETRY_DELAY s eq_refl) as Hrow.
  destruct (place_order_attempts cfg w MAX_ORDER_RETRIES 1 INITIAL_RETRY_DELAY
              side pr size s) as [[[ord|]|e|] s1]; try discriminate.
  destruct Hrow as (t & Hl & Hr); [unfold MAX_ORDER_RETRIES; lia|].
  unfold utcnow in E.
  match type of E with confirm_loop _ _ ?oid ?st ?sx = _ =>
    pose proof (confirm_loop_rows w fuel oid st sx) as R
  end.
  rewrite E in R. cbn [snd ledger with_ext] in R.
  exists t. rewrite R, Hl.
  destruct Hr as (_ & _ & _ & Ht & Hs & _ & _ & Hp). auto.
Qed.

(** The SELL rows the status endpoint reads for the symbol. *)
Lemma sells_unstatus l l' :
  map unstatus l = map unstatus l' ->
  map unstatus (filter is_sell (filter (fun t => String.eqb (symbol t) (SYMBOL cfg)) l))
  = map unstatus (filter is_sell (filter (fun t => String.eqb (symbol t) (SYMBOL cfg)) l')).
Proof.
  intro E. apply filter_unstatus; [reflexivity|].
  apply filter_unstatus; [reflexivity | exact E].
Qed.

Lemma count_unstatus (f : Trade -> bool) l l' :
  (forall t, f (unstatus t) = f t) ->
  map unstatus l = map unstatus l' ->
  List.length (filter f l) = List.length (filter f l').
Proof.
  intros Hf E.
  rewrite <- (length_map unstatus (filter f l)), <- (length_map unstatus (filter f l')).
  f_equal. apply filter_unstatus; assumption.
Qed.

(** What booking a SELL does to the ledger and to the statistics. *)
Lemma place_sell_booked fuel p qty ts s :
  sold_between s (snd (place_sell cfg w fuel p qty ts s)) ->
  exists t1 t2 pnl_,
    map unstatus (ledger (snd (place_sell cfg w fuel p qty ts s)))
    = map unstatus (ledger s ++ [t1; t2]) /\
    type t1 = "sell" /\ symbol t1 = SYMBOL cfg /\ pnl t1 = None /\
    type t2 = "sell" /\ symbol t2 = SYMBOL cfg /\ pnl t2 = Some pnl_ /\
    sts (snd (place_sell cfg w fuel p qty ts s)) = record_sell pnl_ (sts s).
Proof.
  intros [Hin Hout].
  destruct (place_sell cfg w fuel p qty ts s) as [r s'] eqn:E.
  cbn [snd] in *. revert E.
  unfold place_sell. unfold bind at 1. unfold logger at 1, modify at 1.
  set (s1 := with_ext (add_log INFO "SELL request") s).
  unfold bind at 1. unfold try_except at 1. unfold bind at 1.
  destruct (place_and_confirm_rows fuel "sell" (Some p) (Num.py_round qty 8) s1)
    as (Hp & Hs & Hrow).
  assert (STAY : forall s2 : state, pos s2 = pos s1 -> s2 = s' -> False).
  { intros s2 H2 <-. rewrite H2 in Hout. subst s1. cbn [pos with_ext] in Hout.
    congruence. }
  destruct (place_and_confirm_order cfg w fuel "sell" (Some p) (Num.py_round qty 8) s1)
    as [[filled|e|] s2]; cbn [fst snd] in *.
  2:{ unfold bind, logger, modify, ret. intro E. injection E as _ E.
      exfalso. eapply STAY; [|exact E]. cbn [pos with_ext]. exact Hp. }
  2:{ intro E. injection E as _ E. exfalso. eapply STAY; [|exact E]. exact Hp. }
  destruct (Hrow filled eq_refl) as (t1 & Hl & Ht & Hsym & Hpnl).
  unfold ret at 1. cbv beta iota.
  unfold deal_of. unfold bind at 1. unfold bind at 1. unfold lift at 1.
  destruct (float_field (o_dealPrice filled) (Raise KeyError)) as [fp|e|];
    [| intro E; injection E as _ E; exfalso; eapply STAY; [|exact E]; exact Hp ..].
  unfold bind at 1. unfold lift at 1.
  destruct (float_field (o_dealSize filled) (Raise KeyError)) as [fs|e|];
    [| intro E; injection E as _ E; exfalso; eapply STAY; [|exact E]; exact Hp ..].
  unfold ret at 1. cbv beta iota. cbn [fst snd].
  unfold bind at 1.
  destruct (get_available_frame w (QUOTE cfg) s2) as (dv & s3 & E3 & F3).
  rewrite E3. destruct F3 as (F1 & F2 & F3 & F4 & F5 & F6 & F7 & F8 & F9).
  unfold bind, gets, modify, logger, create_trade, ret.
  intro E. injection E as _ <-.
  eexists t1, _, (dv - DV_before_trade (pos s3)).
  cbn [ledger with_ledger with_ext with_sts with_pos sts].
  split; [|split; [exact Ht|]; split; [exact Hsym|]; split; [exact Hpnl|]].
  - rewrite F5. rewrite !map_app. rewrite map_app in Hl. rewrite Hl.
    subst s1. cbn [ledger with_ext map app]. rewrite <- app_assoc. reflexivity.
  - cbn [type symbol pnl]. repeat split.
    rewrite F4, Hs. subst s1. reflexivity.
Qed.

(** X24. A SELL that is booked is counted twice by [GET /algo/status]: the
    submission records one SELL row without profit and the booking a second
    one with the profit, and the endpoint counts every SELL row.  The row
    without profit counts as a win, so that a SELL booked at a loss is
    reported as one win and one loss. *)
Theorem booked_sell_is_counted_twice fuel p qty ts s running :
  sold_between s (snd (place_sell cfg w fuel p qty ts s)) ->
  (Z.of_nat (List.length (ledger s)) + 2 <= 10000)%Z ->
  let s' := snd (place_sell cfg w fuel p qty ts s) in
  let before := algo_status cfg running s in
  let after := algo_status cfg running s' in
  let won := Num.Qleb (total_PnL (sts s)) (total_PnL (sts s')) in
  r_trades_taken after = (r_trades_taken before + 2)%nat /\
  r_wins after = (r_wins before + (if won then 2 else 1))%nat /\
  r_losses after = (r_losses before + (if won then 0 else 1))%nat.
Proof.
  intros Hsold Hlen. cbv zeta.
  destruct (place_sell_booked fuel p qty ts s Hsold)
    as (t1 & t2 & pnl_ & Hl & Ht1 & Hs1 & Hp1 & Ht2 & Hs2 & Hp2 & Hsts).
  set (s' := snd (place_sell cfg w fuel p qty ts s)) in *.
  set (sym := fun t => String.eqb (symbol t) (SYMBOL cfg)).
  assert (Hlen' : List.length (ledger s') = (List.length (ledger s) + 2)%nat).
  { rewrite <- (length_map unstatus (ledger s')), Hl, length_map, length_app.
    reflexivity. }
  assert (A : forall l, (Z.of_nat (List.length l) <= 10000)%Z ->
            list_trades_by_symbol (SYMBOL cfg) 0 10000 l = filter sym l).
  { intros l H. unfold list_trades_by_symbol. apply offset_limit_all.
    pose proof (filter_length_le sym l). fold sym. lia. }
  unfold algo_status. cbn [r_trades_taken r_wins r_losses].
  rewrite (A (ledger s')) by (rewrite Hlen'; lia).
  rewrite (A (ledger s)) by lia.
  assert (S2 : is_sell t1 = true /\ is_sell t2 = true /\ sym t1 = true /\ sym t2 = true).
  { unfold is_sell, sym. rewrite Ht1, Ht2, Hs1, Hs2, !String.eqb_refl. auto. }
  destruct S2 as (I1 & I2 & Y1 & Y2).
  assert (W : Num.Qleb (total_PnL (sts s)) (total_PnL (sts s')) = Num.Qleb 0 pnl_).
  { rewrite Hsts. cbn [total_PnL record_sell]. unfold Num.Qleb.
    apply eq_true_iff_eq. rewrite !Qle_bool_iff. split; intro; lra. }
  assert (L : Num.Qltb pnl_ 0 = negb (Num.Qleb 0 pnl_)) by reflexivity.
  assert (C : forall f, (forall t, f (unstatus t) = f t) ->
            List.length (filter f (filter is_sell (filter sym (ledger s'))))
            = List.length (filter f (filter is_sell (filter sym (ledger s ++ [t1; t2]))))).
  { intros f Hf. apply count_unstatus; [exact Hf|].
    apply sells_unstatus, Hl. }
  assert (P1 : pnl_or_0 t1 = 0) by (unfold pnl_or_0; rewrite Hp1; reflexivity).
  assert (P2 : pnl_or_0 t2 = pnl_) by (unfold pnl_or_0; rewrite Hp2; reflexivity).
  rewrite W. split; [|split].
  - rewrite <- (length_map unstatus (filter is_sell (filter sym (ledger s')))).
    unfold sym. rewrite (sells_unstatus _ _ Hl), length_map. fold sym.
    rewrite !filter_app, !length_app. cbn [filter]. rewrite Y1, Y2. cbn [filter].
    rewrite I1, I2. cbn. lia.
  - rewrite (C (fun t => Num.Qleb 0 (pnl_or_0 t))) by reflexivity.
    rewrite !filter_app, !length_app. cbn [filter]. rewrite Y1, Y2. cbn [filter].
    rewrite I1, I2. cbn [filter]. rewrite P1, P2.
    change (Num.Qleb 0 0) with true. cbv iota.
    destruct (Num.Qleb 0 pnl_); cbn [List.length]; lia.
  - rewrite (C (fun t => Num.Qltb (pnl_or_0 t) 0)) by reflexivity.
    rewrite !filter_app, !length_app. cbn [filter]. rewrite Y1, Y2. cbn [filter].
    rewrite I1, I2. cbn [filter]. rewrite P1, P2.
    change (Num.Qltb 0 0) with false. cbv iota. rewrite L.
    destruct (Num.Qleb 0 pnl_); cbn [negb List.length]; lia.
Qed.

End Booking.

Lemma booked_sell_is_counted_twice_witness :
  let s' := snd (place_sell Scenario.kcs_usdt Scenario.calm 5 10 9
                   (2 * NS_PER_MINUTE) case_losing) in
  r_trades_taken (algo_status Scenario.kcs_usdt true s') = 2%nat /\
  r_wins (algo_status Scenario.kcs_usdt true s') = 1%nat /\
  r_losses (algo_status Scenario.kcs_usdt true s') = 1%nat /\
  total_PnL (sts s') == - (20).
Proof.
  assert (Hs : sold_between case_losing
                 (snd (place_sell Scenario.kcs_usdt Scenario.calm 5 10 9
                         (2 * NS_PER_MINUTE) case_losing))).
  { split; reflexivity. }
  assert (Hl : (Z.of_nat (List.length (ledger case_losing)) + 2 <= 10000)%Z).
  { cbn. lia. }
  destruct (booked_sell_is_counted_twice Scenario.kcs_usdt Scenario.calm 5 10 9
              (2 * NS_PER_MINUTE) case_losing true Hs Hl) as (H1 & H2 & H3).
  cbv zeta. split; [exact H1|]. split; [exact H2|]. split; [exact H3|].
  reflexivity.
Defined.

(* ------------------------------------------------------------------ *)
(** ** The open-position endpoint *)
(* ------------------------------------------------------------------ *)

Lemma latest_unstatus : forall l l' b b',
  map unstatus l = map unstatus l' ->
  option_map unstatus b = option_map unstatus b' ->
  option_map unstatus (latest l b) = option_map unstatus (latest l' b').
Proof.
  induction l as [|t r IH]; intros [|t' r'] b b' E Eb; try discriminate.
  - exact Eb.
  - assert (Et : unstatus t = unstatus t')
      by exact (f_equal (fun x => hd (unstatus t) x) E).
    assert (Er : map unstatus r = map unstatus r')
      by exact (f_equal (fun x => tl x) E).
    cbn [latest]. apply IH; [exact Er|].
    assert (Ts : timestamp t = timestamp t')
      by exact (f_equal timestamp Et).
    destruct b as [x|], b' as [x'|]; try discriminate.
    + assert (Ex : unstatus x = unstatus x').
      { cbn [option_map] in Eb. congruence. }
      assert (Tx : timestamp x = timestamp x') by exact (f_equal timestamp Ex).
      rewrite Ts, Tx. destruct (timestamp x' <? timestamp t')%Z; cbn [option_map];
        congruence.
    + cbn [option_map]. congruence.
Qed.

Lemma has_open_position_unstatus pair rows rows' :
  map unstatus rows = map unstatus rows' ->
  has_open_position pair rows = has_open_position pair rows'.
Proof.
  intro E. unfold has_open_position, get_last_trade_by_symbol.
  assert (L : option_map unstatus
                (latest (filter (fun t => String.eqb (symbol t) pair) rows) None)
              = option_map unstatus
                (latest (filter (fun t => String.eqb (symbol t) pair) rows') None)).
  { apply latest_unstatus; [|reflexivity].
    apply filter_unstatus; [reflexivity | exact E]. }
  destruct (latest (filter _ rows) None) as [t|],
           (latest (filter _ rows') None) as [t'|]; try discriminate.
  - cbn [option_map] in L.
    assert (Ty : type t = type t').
    { assert (Eu : unstatus t = unstatus t') by congruence.
      exact (f_equal type Eu). }
    rewrite Ty. reflexivity.
  - reflexivity.
Qed.

Lemma reconciles_unstatus k s s' :
  reconciles k -> touch k s s' -> map unstatus (ledger s') = map unstatus (ledger s).
Proof.
  intros Hk Ht. destruct Ht; cbn in *; try contradiction; try reflexivity.
  eapply update_first_unstatus. eassumption.
Qed.

(** X25. The answer of [GET /kc/orders/open_position] looks at the type of
    the latest row of the pair and not at its status.  Hence no status
    update changes the answer; reconciliation, which may restore the
    position of the engine, leaves the answer as it was; and a BUY row
    newer than every other row is reported as an open position also when
    its order was canceled. *)
Theorem open_position_answer_ignores_status cfg w pair :
  (forall rows rows', map unstatus rows = map unstatus rows' ->
     has_open_position pair rows = has_open_position pair rows') /\
  (forall oid st s,
     has_open_position pair (ledger (snd (update_trade_status oid st s)))
     = has_open_position pair (ledger s)) /\
  (forall s,
     has_open_position pair (ledger (snd (sync_open_trades cfg w s)))
     = has_open_position pair (ledger s)) /\
  (forall rows t st,
     Str.lower (type t) = "buy" -> symbol t = pair ->
     (forall r, In r rows -> (timestamp r < timestamp t)%Z) ->
     has_open_position pair (rows ++ [set_status st t]) = true).
Proof.
  split; [|split; [|split]].
  - intros rows rows'. apply has_open_position_unstatus.
  - intros oid st s. apply has_open_position_unstatus.
    unfold update_trade_status, bind, gets.
    destruct (match oid with Some o => update_first o st (ledger s) | None => None end)
      as [[u l']|] eqn:E; [|reflexivity].
    destruct oid as [o|]; [|discriminate].
    unfold modify, logger, ret. cbn [snd ledger with_ledger with_ext].
    eapply update_first_unstatus. exact E.
  - intro s. apply has_open_position_unstatus.
    apply (moves_inv reconciles
             (fun x => map unstatus (ledger x) = map unstatus (ledger s)))
      with (s := s); [| apply sync_open_trades_moves | reflexivity].
    intros k s1 s2 Hk Ht Hs. rewrite <- Hs. eapply reconciles_unstatus; eassumption.
  - intros rows t st Hty Hsym Hnew.
    unfold has_open_position, get_last_trade_by_symbol.
    set (f := fun r => String.eqb (symbol r) pair).
    pose proof (latest_spec (filter f (rows ++ [set_status st t])) None) as H.
    assert (Hlast : In (set_status st t) (filter f (rows ++ [set_status st t]))).
    { apply filter_In. split; [apply in_or_app; right; left; reflexivity|].
      unfold f. cbn [symbol set_status]. apply String.eqb_eq, Hsym. }
    destruct (latest (filter f (rows ++ [set_status st t])) None) as [x|].
    + destruct H as ([Hin | E] & Hmax & _); [|discriminate].
      apply filter_In in Hin. destruct Hin as [Hin _].
      apply in_app_or in Hin. destruct Hin as [Hin | [<- | []]].
      * specialize (Hmax _ Hlast). cbn [timestamp set_status] in Hmax.
        specialize (Hnew x Hin). lia.
      * cbn [type set_status]. rewrite Hty. reflexivity.
    + destruct H as (_ & Hnil). rewrite Hnil in Hlast. destruct Hlast.
Qed.

Lemma open_position_answer_ignores_status_witness :
  has_open_position "KCS-USDT" [set_status "canceled" Scenario.open_buy] = true /\
  has_open_position "KCS-USDT"
    (ledger (snd (sync_open_trades Scenario.kcs_usdt Scenario.calm Scenario.restarted)))
  = true.
Proof.
  destruct (open_position_answer_ignores_status Scenario.kcs_usdt Scenario.calm "KCS-USDT")
    as (H1 & _ & H3 & H4).
  split.
  - apply (H4 [] Scenario.open_buy "canceled"); [reflexivity | reflexivity |].
    intros r [].
  - rewrite H3. apply (H1 [Scenario.open_buy] [set_status "canceled" Scenario.open_buy]).
    + reflexivity.
Defined.

(* ------------------------------------------------------------------ *)
(** ** Start-up *)
(* ------------------------------------------------------------------ *)

Lemma returns_sync_open_trades cfg w : returns (sync_open_trades cfg w).
Proof.
  unfold sync_open_trades, logger.
  returns_walk ltac:(apply returns_sync_loop).
Qed.

Lemma reconciles_requests k s s' :
  reconciles k -> touch k s s' -> requests (ext s') = requests (ext s).
Proof.
  intros Hk Ht. destruct Ht; cbn in *; try contradiction; reflexivity.
Qed.

Lemma sync_open_trades_latest cfg w sym s :
  option_map unstatus
    (get_last_trade_by_symbol sym (ledger (snd (sync_open_trades cfg w s))))
  = option_map unstatus (get_last_trade_by_symbol sym (ledger s)).
Proof.
  unfold get_last_trade_by_symbol.
  apply latest_unstatus; [|reflexivity].
  apply filter_unstatus; [reflexivity|].
  apply (moves_inv reconciles
           (fun x => map unstatus (ledger x) = map unstatus (ledger s)))
    with (s := s); [| apply sync_open_trades_moves | reflexivity].
  intros k s1 s2 Hk Ht Hs. rewrite <- Hs. eapply reconciles_unstatus; eassumption.
Qed.

(** X26. Start-up always returns and sends nothing to the exchange.  After
    reconciliation it resumes a position exactly when the latest row of
    the symbol is a BUY that is marked filled by then: entry price and
    entry time are the row's, the high-water mark is the entry price.  The
    balance noted before the trade is not set by the resumption.  In every
    other case, also when the latest row is a SELL that was canceled, the
    position is the one reconciliation left. *)
Theorem start_up_position cfg w s :
  let s1 := snd (sync_open_trades cfg w
                   (with_ext (add_log INFO "Trying to sync-up any open order's in our db") s)) in
  let s' := snd (start_up cfg w s) in
  fst (start_up cfg w s) = Ret tt /\
  ledger s' = ledger s1 /\
  requests (ext s') = requests (ext s) /\
  DV_before_trade (pos s') = DV_before_trade (pos s1) /\
  match get_last_trade_by_symbol (SYMBOL cfg) (ledger s) with
  | None => pos s' = pos s1
  | Some last =>
      exists last',
        get_last_trade_by_symbol (SYMBOL cfg) (ledger s1) = Some last' /\
        unstatus last' = unstatus last /\
        pos s' =
          if andb (String.eqb (Str.lower (type last)) "buy")
                  (String.eqb (status last') "filled")
          then open_position (price last) (timestamp last)
                 (price last * PROFIT_TARGET_MULT cfg) (pos s1)
          else pos s1
  end.
Proof.
  cbv zeta.
  set (s0 := with_ext (add_log INFO "Trying to sync-up any open order's in our db") s).
  assert (E : start_up cfg w s =
              resume_last_buy cfg
                (with_ext (add_log INFO "Trying to sync-up any open order's in our db")
                   (snd (sync_open_trades cfg w s0)))).
  { unfold start_up. unfold bind at 1. unfold logger at 1, modify at 1.
    fold s0. unfold bind at 1.
    destruct (returns_sync_open_trades cfg w s0) as ([] & R).
    destruct (sync_open_trades cfg w s0) as [r s1]. cbn [fst snd] in *. subst r.
    reflexivity. }
  rewrite E.
  pose proof (sync_open_trades_latest cfg w (SYMBOL cfg) s0) as L.
  assert (Rq : requests (ext (snd (sync_open_trades cfg w s0))) = requests (ext s)).
  { apply (moves_inv reconciles (fun x => requests (ext x) = requests (ext s)))
      with (s := s0); [| apply sync_open_trades_moves | reflexivity].
    intros k x y Hk Ht Hx. rewrite <- Hx. eapply reconciles_requests; eassumption. }
  set (s1 := snd (sync_open_trades cfg w s0)) in *.
  change (ledger s0) with (ledger s) in L.
  unfold resume_last_buy, bind, gets. cbn [ledger with_ext].
  destruct (get_last_trade_by_symbol (SYMBOL cfg) (ledger s1)) as [last'|] eqn:E1;
    destruct (get_last_trade_by_symbol (SYMBOL cfg) (ledger s)) as [last|] eqn:E0;
    try discriminate.
  - assert (U : unstatus last' = unstatus last).
    { cbn [option_map] in L. congruence. }
    assert (Ty : type last' = type last) by exact (f_equal type U).
    assert (Pr : price last' = price last) by exact (f_equal price U).
    assert (Ts : timestamp last' = timestamp last) by exact (f_equal timestamp U).
    rewrite Ty, Pr, Ts.
    destruct (andb (String.eqb (Str.lower (type last)) "buy")
                   (String.eqb (status last') "filled")) eqn:C;
      cbn [andb] in C |- *; rewrite ?C.
    + unfold modify, logger, ret. cbn [fst snd].
      split; [reflexivity|]. split; [reflexivity|]. split; [exact Rq|].
      split; [reflexivity|].
      exists last'. rewrite C. split; [reflexivity|]. split; [exact U | reflexivity].
    + unfold ret. cbn [fst snd].
      split; [reflexivity|]. split; [reflexivity|]. split; [exact Rq|].
      split; [reflexivity|].
      exists last'. rewrite C. split; [reflexivity|]. split; [exact U | reflexivity].
  - unfold ret. cbn [fst snd].
    split; [reflexivity|]. split; [reflexivity|]. split; [exact Rq|].
    split; reflexivity.
Qed.

(** The engine restarts flat although the BUY of the ledger was filled and
    never sold: the latest row is the canceled SELL. *)
Lemma start_up_position_witness :
  pos (snd (start_up Scenario.kcs_usdt Scenario.calm case_unsold)) = Scenario.flat.
Proof.
  destruct (start_up_position Scenario.kcs_usdt Scenario.calm case_unsold)
    as (_ & _ & _ & _ & H).
  cbv zeta in H.
  change (get_last_trade_by_symbol (SYMBOL Scenario.kcs_usdt) (ledger case_unsold))
    with (nth_error (ledger case_unsold) 1) in H.
  cbn [nth_error ledger case_unsold with_ledger] in H.
  destruct H as (last' & _ & _ & H). rewrite H. reflexivity.
Defined.

(* ------------------------------------------------------------------ *)
(** ** Closing a bar *)
(* ------------------------------------------------------------------ *)

Lemma prefix_refl s : String.prefix s s = true.
Proof.
  induction s as [|a s IH]; [reflexivity|].
  cbn [String.prefix]. destruct (ascii_dec a a) as [_|N]; [exact IH | contradiction].
Qed.

Lemma touch_clock k s s' : touch k s s' -> (n_clock (ext s) <= n_clock (ext s'))%nat.
Proof.
  intro Ht. destruct Ht; cbn; try lia.
  destruct (Nat.eqb k 0); lia.
Qed.

Lemma moves_clock fp s s' : moves fp s s' -> (n_clock (ext s) <= n_clock (ext s'))%nat.
Proof.
  intro H. induction H as [|k s1 s2 _ IH _ Ht]; [lia|].
  pose proof (touch_clock k s1 s2 Ht). lia.
Qed.

Lemma reconciles_keep_bar k s s' :
  reconciles k -> touch k s s' ->
  current_bar s' = current_bar s /\ minList s' = minList s.
Proof.
  intros Hk Ht. destruct Ht; cbn in *; try contradiction; split; reflexivity.
Qed.

Lemma touch_sleeps k s s' :
  touch k s s' -> exists l, sleeps (ext s') = (sleeps (ext s) ++ l)%list.
Proof.
  intro Ht. destruct Ht; cbn; try (exists []; rewrite app_nil_r; reflexivity).
  eexists. reflexivity.
Qed.

Lemma moves_sleeps fp s s' :
  moves fp s s' -> exists l, sleeps (ext s') = (sleeps (ext s) ++ l)%list.
Proof.
  intro H. induction H as [|k s1 s2 _ [l IH] _ Ht].
  - exists []. rewrite app_nil_r. reflexivity.
  - destruct (touch_sleeps k s1 s2 Ht) as [l2 E].
    exists (l ++ l2)%list. rewrite E, IH, app_assoc. reflexivity.
Qed.

Section Rollover.

Variable cfg : config.
Variable w : world.

Lemma evaluate_keeps_bar fuel p ts s :
  current_bar (snd (evaluate cfg w fuel p ts s)) = current_bar s /\
  minList (snd (evaluate cfg w fuel p ts s)) = minList s.
Proof.
  assert (Hm : moves evaluates s (snd (evaluate cfg w fuel p ts s))).
  { apply moves_of_inv. intro s0. apply fp_evaluate. auto. }
  apply (moves_inv evaluates
           (fun x => current_bar x = current_bar s /\ minList x = minList s))
    with (s := s); [| exact Hm | auto].
  intros k s1 s2 Hk Ht [H1 H2].
  destruct (evaluates_keep_bar k s1 s2 Hk Ht). split; congruence.
Qed.

Lemma aggregate_rollover fuel d p ts z s b :
  current_bar s = Some b ->
  (minute b < minute_of ts)%Z ->
  float_field (p_size d) (Ret 0) = Ret z ->
  exists r s', aggregate cfg w fuel d p ts s = (r, s') /\
    minList s' = deque_append (minute b, b) (minList s) /\
    match r with
    | Ret _ => current_bar s' = Some (new_bar (minute_of ts) p z)
    | _ => current_bar s' = Some b
    end.
Proof.
  intros Hb Hlt Hz.
  unfold aggregate. unfold bind at 1. unfold gets at 1. rewrite Hb.
  apply Z.ltb_lt in Hlt. rewrite Hlt.
  unfold bind at 1. unfold modify at 1.
  set (s2 := with_minList (deque_append (minute b, b) (minList s)) s).
  destruct (evaluate_keeps_bar fuel p ts s2) as [Kb Kw].
  unfold bind at 1.
  destruct (evaluate cfg w fuel p ts s2) as [[[]|e|] s3]; cbn [snd] in Kb, Kw.
  - unfold bind, lift. rewrite Hz. unfold modify.
    eexists _, _. split; [reflexivity|].
    cbn [minList current_bar with_bar]. split; [rewrite Kw; reflexivity | reflexivity].
  - eexists _, _. split; [reflexivity|].
    split; [rewrite Kw; reflexivity|]. rewrite Kb. subst s2. cbn. exact Hb.
  - eexists _, _. split; [reflexivity|].
    split; [rewrite Kw; reflexivity|]. rewrite Kb. subst s2. cbn. exact Hb.
Qed.

Lemma handle_rollover fuel msg p z b s :
  current_bar s = Some b ->
  (exists m, (minute b < m)%Z /\ tick_in_minute cfg m msg p z) ->
  exists m, (minute b < m)%Z /\ tick_in_minute cfg m msg p z /\
    minList (snd (handle cfg w fuel msg s)) = deque_append (minute b, b) (minList s) /\
    match fst (handle cfg w fuel msg s) with
    | Diverge => current_bar (snd (handle cfg w fuel msg s)) = Some b
    | _ => current_bar (snd (handle cfg w fuel msg s)) = Some b \/
           current_bar (snd (handle cfg w fuel msg s)) = Some (new_bar m p z)
    end.
Proof.
  intros Hb (m & Hlt & Htick). exists m. split; [exact Hlt|]. split; [exact Htick|].
  destruct Htick as (d & ts & Hd & Hp & Hz & Hm).
  destruct (handle_tick cfg w fuel msg d p ts s Hd Hp) as (s1 & F & E).
  rewrite E. destruct F as (F1 & F2 & F3 & F4 & F5 & F6 & F7 & F8 & F9).
  destruct (aggregate_rollover fuel d p ts z s1 b) as (r & s2 & A & Hw & Hc).
  { rewrite F2. exact Hb. }
  { rewrite Hm. exact Hlt. }
  { exact Hz. }
  unfold try_except. rewrite A. rewrite F3 in Hw.
  destruct r as [[]|e|]; cbn [fst snd].
  - split; [exact Hw|]. right. rewrite Hc, Hm. reflexivity.
  - unfold logger, modify. cbn [fst snd minList current_bar with_ext].
    split; [exact Hw|]. left. exact Hc.
  - split; [exact Hw | exact Hc].
Qed.


Lemma timer_message_tick b t :
  tick_in_minute cfg (minute_of t) (timer_message cfg (Some b) t) (close b) 0.
Proof.
  unfold tick_in_minute, timer_message. cbn [data topic].
  eexists _, t. split; [reflexivity|].
  split; [|split; reflexivity].
  unfold extract_price.
  assert (P1 : String.prefix ("/market/match:" ++ SYMBOL cfg)
                 ("/market/ticker:" ++ SYMBOL cfg) = false) by reflexivity.
  rewrite P1, prefix_refl. reflexivity.
Qed.

Lemma timer_message_none t d :
  data (timer_message cfg None t) = Some d ->
  extract_price cfg (topic (timer_message cfg None t)) d = Raise ValueError.
Proof.
  unfold timer_message. cbn [data topic]. intro E. injection E as <-.
  unfold extract_price.
  assert (P1 : String.prefix ("/market/match:" ++ SYMBOL cfg)
                 ("/market/ticker:" ++ SYMBOL cfg) = false) by reflexivity.
  rewrite P1, prefix_refl. reflexivity.
Qed.

Lemma handle_timer_none fuel t s :
  frame s (snd (handle cfg w fuel (timer_message cfg None t) s)).
Proof.
  destruct (update_balances_frame cfg w s) as (s1 & E & F).
  unfold handle, try_except, handle_body.
  destruct (data (timer_message cfg None t)) as [d|] eqn:Hd; [|discriminate].
  rewrite (bind_Ret _ _ _ _ _ E). unfold bind, lift.
  rewrite (timer_message_none t d Hd).
  unfold logger, modify. cbn [snd].
  eapply frame_trans; [exact F | apply frame_log].
Qed.

Lemma ceil_minute_bounds now :
  (0 <= ceil_minute now - now < NS_PER_MINUTE)%Z.
Proof.
  unfold ceil_minute, NS_PER_MINUTE.
  pose proof (Z.div_mod (- now) 60000000000 ltac:(lia)).
  pose proof (Z.mod_pos_bound (- now) 60000000000 ltac:(lia)).
  lia.
Qed.


End Rollover.



(* ------------------------------------------------------------------ *)
(** ** Sell-only mode *)
(* ------------------------------------------------------------------ *)

Section SellOnly.

Variable cfg : config.
Variable w : world.

Lemma handle_keeps_flags fuel msg s :
  stop_requested (snd (handle cfg w fuel msg s)) = stop_requested s /\
  models_ready (snd (handle cfg w fuel msg s)) = models_ready s.
Proof.
  apply (moves_inv handles
           (fun x => stop_requested x = stop_requested s /\
                     models_ready x = models_ready s))
    with (s := s); [| apply handle_moves | split; reflexivity].
  intros k x y _ Ht [H1 H2]. destruct (touch_flags k x y Ht). split; congruence.
Qed.

Lemma handle_sell_only fuel msg s :
  stop_requested s = true ->
  sent_since (order_of "sell") s (snd (handle cfg w fuel msg s)).
Proof.
  intro Hs. destruct (in_position (pos s)) eqn:Hin.
  - pose proof (handle_sides cfg w fuel msg s) as H. rewrite Hin in H. exact H.
  - assert (Hi : idle s) by (right; split; assumption).
    destruct (handle_idle cfg w fuel msg s Hi) as (_ & _ & R & _).
    apply sent_since_same, R.
Qed.

Lemma step_sell_only fuel e s :
  stop_requested s = true ->
  fst (step cfg w fuel e true s) = true /\
  stop_requested (snd (step cfg w fuel e true s)) = true /\
  sent_since (order_of "sell") s (snd (step cfg w fuel e true s)).
Proof.
  intro Hs. destruct e as [msg| | |]; cbn [step].
  - cbn [fst snd]. split; [reflexivity|]. split.
    + destruct (handle_keeps_flags fuel msg s) as [H _]. congruence.
    + apply handle_sell_only, Hs.
  - unfold after_request, start_algo, bind, logger, modify, gets, ret.
    cbn [models_ready with_ext].
    destruct (models_ready s); cbn [negb fst snd stop_requested with_ext];
      (split; [reflexivity|]; split; [exact Hs|]; apply sent_since_same; reflexivity).
  - unfold after_request, stop_algo, bind, logger, modify, ret.
    cbn [negb fst snd stop_requested with_ext with_stop].
    split; [reflexivity|]. split; [reflexivity|]. apply sent_since_same. reflexivity.
  - unfold after_request, close_position, bind, logger, modify, ret.
    cbn [negb fst snd stop_requested with_ext with_stop].
    split; [reflexivity|]. split; [reflexivity|]. apply sent_since_same. reflexivity.
Qed.

(** X29. While the task of [run_algo] runs, sell-only mode cannot be left:
    [POST /algo/start] is refused (400, or 503 without models) and changes
    no flag, [POST /algo/stop] and [POST /algo/close] set the flag again.
    So from a state in sell-only mode, whatever feed messages and control
    requests arrive and in whatever order, the flag stays set and every
    request the engine sends to the exchange is a SELL order or a
    cancellation: no BUY is placed. *)
Theorem sell_only_is_kept fuel evs : forall s,
  stop_requested s = true ->
  let r := run_events cfg w fuel evs true s in
  fst r = true /\ stop_requested (snd r) = true /\
  sent_since (order_of "sell") s (snd r) /\
  exists code, fst (start_algo true (snd r)) = Ret (HTTPException code, true) /\
               (code = 400 \/ code = 503)%Z.
Proof.
  induction evs as [|e evs IH]; intros s Hs; cbv zeta.
  - cbn [run_events fst snd]. split; [reflexivity|]. split; [exact Hs|].
    split; [apply sent_since_refl|].
    unfold start_algo, bind, logger, modify, gets, ret. cbn [models_ready with_ext].
    destruct (models_ready s); cbn [negb fst]; eauto.
  - cbn [run_events].
    destruct (step_sell_only fuel e s Hs) as (H1 & H2 & H3).
    destruct (step cfg w fuel e true s) as [r1 s1]. cbn [fst snd] in H1, H2, H3.
    subst r1. destruct (IH s1 H2) as (K1 & K2 & K3 & K4).
    split; [exact K1|]. split; [exact K2|].
    split; [eapply sent_since_trans; eassumption | exact K4].
Qed.

End SellOnly.

Lemma sell_only_is_kept_witness :
  let r := run_events Scenario.kcs_usdt case_funded 4
             [PostStart; Feed (Scenario.match_tick 9 (2 * NS_PER_MINUTE) 1);
              PostStart; Feed (Scenario.match_tick 9 (3 * NS_PER_MINUTE) 1)]
             true case_stopping in
  stop_requested (snd r) = true /\
  in_position (pos (snd r)) = false /\
  sent_since (order_of "sell") case_stopping (snd r) /\
  List.length (requests (ext (snd r))) = 1%nat.
Proof.
  destruct (sell_only_is_kept Scenario.kcs_usdt case_funded 4
              [PostStart; Feed (Scenario.match_tick 9 (2 * NS_PER_MINUTE) 1);
               PostStart; Feed (Scenario.match_tick 9 (3 * NS_PER_MINUTE) 1)]
              case_stopping eq_refl) as (_ & H & S & _).
  cbv zeta. split; [exact H|]. split; [reflexivity|]. split; [exact S | reflexivity].
Defined.

(* ------------------------------------------------------------------ *)
(** ** The cost of reconciliation *)
(* ------------------------------------------------------------------ *)

Lemma spent_refl s : spent 0 0 0 s s.
Proof. unfold spent. lia. Qed.

Lemma spent_trans a b c a' b' c' s1 s2 s3 :
  spent a b c s1 s2 -> spent a' b' c' s2 s3 -> spent (a + a') (b + b') (c + c') s1 s3.
Proof. unfold spent. lia. Qed.

Lemma spent_le a b c a' b' c' s s' :
  (a <= a')%nat -> (b <= b')%nat -> (c <= c')%nat ->
  spent a b c s s' -> spent a' b' c' s s'.
Proof. unfold spent. lia. Qed.

Lemma costs_le {A} a b c a' b' c' (m : M A) :
  (a <= a')%nat -> (b <= b')%nat -> (c <= c')%nat ->
  costs a b c m -> costs a' b' c' m.
Proof. intros Ha Hb Hc H s. eapply spent_le; eauto. Qed.

Lemma costs_bind {A B} a b c a' b' c' (m : M A) (k : A -> M B) :
  costs a b c m -> (forall x, costs a' b' c' (k x)) ->
  costs (a + a') (b + b') (c + c') (bind m k).
Proof.
  intros Hm Hk s. unfold bind. specialize (Hm s).
  destruct (m s) as [[x|e|] s1]; cbn [snd] in *.
  - eapply spent_trans; [exact Hm | apply Hk].
  - eapply spent_le; [| | | exact Hm]; lia.
  - eapply spent_le; [| | | exact Hm]; lia.
Qed.

Lemma costs_try {A} a b c a' b' c' (m : M A) h :
  costs a b c m -> (forall e, costs a' b' c' (h e)) ->
  costs (a + a') (b + b') (c + c') (try_except m h).
Proof.
  intros Hm Hh s. unfold try_except. specialize (Hm s).
  destruct (m s) as [[x|e|] s1]; cbn [snd] in *.
  - eapply spent_le; [| | | exact Hm]; lia.
  - eapply spent_trans; [exact Hm | apply Hh].
  - eapply spent_le; [| | | exact Hm]; lia.
Qed.

Lemma costs_free {A} (m : M A) :
  (forall s, n_get_order (ext (snd (m s))) = n_get_order (ext s) /\
             n_accounts (ext (snd (m s))) = n_accounts (ext s) /\
             sleeps (ext (snd (m s))) = sleeps (ext s)) ->
  costs 0 0 0 m.
Proof. intros H s. destruct (H s) as (H1 & H2 & H3). unfold spent. rewrite H1, H2, H3. lia. Qed.

Lemma costs_ret {A} (x : A) : costs 0 0 0 (ret x).
Proof. apply costs_free. intro s. repeat split. Qed.

Lemma costs_raise {A} e : costs 0 0 0 (@raise A e).
Proof. apply costs_free. intro s. repeat split. Qed.

Lemma costs_logger l m : costs 0 0 0 (logger l m).
Proof. apply costs_free. intro s. repeat split. Qed.

Lemma costs_sleep d : costs 0 0 1 (sleep d).
Proof.
  intro s. unfold sleep, modify, spent. cbn. rewrite length_app. cbn. lia.
Qed.

Lemma costs_update_trade_status oid st : costs 0 0 0 (update_trade_status oid st).
Proof.
  apply costs_free. intro s. unfold update_trade_status, bind, gets.
  destruct (match oid with Some o => update_first o st (ledger s) | None => None end)
    as [[u l']|]; unfold modify, logger, ret; cbn; repeat split.
Qed.

Section Cost.

Variable cfg : config.
Variable w : world.

Lemma reads_balance_counts k s s' :
  reads_balance k -> touch k s s' ->
  n_get_order (ext s') = n_get_order (ext s) /\
  (n_accounts (ext s) <= n_accounts (ext s'))%nat /\
  sleeps (ext s') = sleeps (ext s).
Proof.
  intros Hk Ht. destruct Ht; cbn in *; try contradiction; repeat split; try lia.
  - destruct Hk as [<- | [<- | []]]; reflexivity.
  - destruct (Nat.eqb k 1); lia.
Qed.

Lemma costs_get_available currency : costs 0 1 0 (get_available w currency).
Proof.
  intro s.
  assert (Hm : moves reads_balance s (snd (get_available w currency s))).
  { apply moves_of_inv. intro s0. apply fp_get_available. auto. }
  assert (K : n_get_order (ext (snd (get_available w currency s))) = n_get_order (ext s) /\
              sleeps (ext (snd (get_available w currency s))) = sleeps (ext s)).
  { apply (moves_inv reads_balance
             (fun x => n_get_order (ext x) = n_get_order (ext s) /\
                       sleeps (ext x) = sleeps (ext s)))
      with (s := s); [| exact Hm | split; reflexivity].
    intros k x y Hk Ht [H1 H2].
    destruct (reads_balance_counts k x y Hk Ht) as (E1 & _ & E3). split; congruence. }
  destruct K as [K1 K2]. unfold spent. rewrite K1, K2.
  split; [lia|]. split; [|lia].
  unfold get_available, bind, utcnow, gets. cbn [bal with_ext].
  destruct (match _last_balance_fetch (bal s) with
            | Some l => _ | None => true end).
  - unfold try_except, bind, kc_get_accounts, ask.
    cbn [ext with_ext bump Nat.eqb n_accounts].
    destruct (get_accounts w (n_accounts (ext s))) as [accts|e].
    + match goal with |- context [build_cache accts [] ?s0] =>
        destruct (build_cache_overwrites accts [] s0)
          as (c' & s1 & E & B & P & L & R & C & A & G); rewrite E
      end.
      unfold modify. cbn [snd ext with_bal]. rewrite A. cbn. lia.
    + unfold logger, modify. cbn. lia.
  - unfold ret. cbn. lia.
Qed.

Lemma costs_kc_get_order oid : costs 1 0 0 (kc_get_order w oid).
Proof.
  intro s. unfold kc_get_order, ask.
  destruct (get_order w (n_get_order (ext s))); unfold spent; cbn; lia.
Qed.

(** The [attempt]-th of [max_retries] attempts, with [remaining] left. *)
Lemma costs_fetch_order_attempts max_retries base_delay oid remaining :
  forall attempt,
    (attempt + remaining = S max_retries)%nat -> (1 <= remaining)%nat ->
    costs remaining 0 (remaining - 1)
      (fetch_order_attempts w remaining attempt max_retries base_delay oid).
Proof.
  induction remaining as [|r IH]; intros attempt Hsum Hrem; [lia|].
  cbn [fetch_order_attempts].
  apply (costs_le (1 + r) (0 + 0) (0 + r)); try lia.
  apply costs_try.
  - apply (costs_le (1 + 0) (0 + 0) (0 + 0)); try lia.
    apply costs_bind; [apply costs_kc_get_order | intro; apply costs_ret].
  - intros [msg| | | | | | | | |]; try (apply (costs_le 0 0 0); try lia; apply costs_raise).
    apply (costs_le (0 + r) (0 + 0) (0 + r)); try lia.
    apply costs_bind; [apply costs_logger | intros _].
    destruct (Nat.eqb attempt max_retries) eqn:E.
    + apply (costs_le (0 + 0) (0 + 0) (0 + 0)); try lia.
      apply costs_bind; [apply costs_logger | intros _; apply costs_raise].
    + apply Nat.eqb_neq in E.
      apply (costs_le (0 + r) (0 + 0) (1 + (r - 1))); try lia.
      apply costs_bind; [apply costs_sleep | intros _].
      apply IH; lia.
Qed.

Lemma costs_restore_position t : costs 0 1 0 (restore_position cfg w t).
Proof.
  unfold restore_position.
  apply (costs_le (0 + (0 + (0 + 0))) (0 + (1 + (0 + 0))) (0 + (0 + (0 + 0)))); try lia.
  apply costs_bind; [apply costs_free; intro s; repeat split | intros _].
  apply costs_bind; [apply costs_get_available | intros dv].
  apply costs_bind; [apply costs_free; intro s; repeat split | intros _].
  apply costs_logger.
Qed.

Lemma costs_sync_one t : costs 3 1 2 (sync_one cfg w t).
Proof.
  unfold sync_one.
  apply (costs_le (3 + 0) (0 + 1) (2 + 0)); try lia.
  apply costs_bind.
  - apply (costs_le (3 + 0) (0 + 0) (2 + 0)); try lia.
    apply costs_try.
    + apply (costs_le (3 + 0) (0 + 0) (2 + 0)); try lia.
      apply costs_bind.
      * unfold fetch_order_with_retry.
        apply (costs_fetch_order_attempts 3 (1 # 2) (order_id t) 3 1); lia.
      * intros [d|]; [|apply costs_raise].
        apply (costs_le (0 + 0) (0 + 0) (0 + 0)); try lia.
        apply costs_bind; [apply costs_logger | intros _; apply costs_ret].
    + intros e. apply (costs_le (0 + 0) (0 + 0) (0 + 0)); try lia.
      apply costs_bind; [apply costs_logger | intros _; apply costs_ret].
  - intros [[op_type is_active]|]; [|apply (costs_le 0 0 0); try lia; apply costs_ret].
    destruct is_active; [apply (costs_le 0 0 0); try lia; apply costs_ret|].
    destruct (negb _); [|apply (costs_le 0 0 0); try lia; apply costs_ret].
    apply (costs_le (0 + (0 + (0 + 0))) (0 + (0 + (1 + 0))) (0 + (0 + (0 + 0)))); try lia.
    apply costs_bind; [apply costs_logger | intros _].
    apply costs_bind; [apply costs_update_trade_status | intros _].
    apply costs_bind; [|intros _; apply costs_ret].
    destruct (andb _ _); [apply costs_restore_position|].
    apply (costs_le 0 0 0); try lia; apply costs_ret.
Qed.

Lemma costs_sync_loop pending : forall updated,
  costs (3 * List.length pending) (List.length pending) (2 * List.length pending)
    (sync_loop cfg w pending updated).
Proof.
  induction pending as [|t r IH]; intro updated; cbn [sync_loop List.length].
  - apply costs_ret.
  - apply (costs_le (3 + 3 * List.length r) (1 + List.length r) (2 + 2 * List.length r));
      try lia.
    apply costs_bind; [apply costs_sync_one | intro u; apply IH].
Qed.

(** X30. A run of reconciliation costs at most three order queries, one
    accounts query and two sleeps for each row of the ledger that is
    neither filled nor canceled, whatever the exchange answers. *)
Theorem reconciliation_cost s :
  let n := List.length (pending_trades (ledger s)) in
  let s' := snd (sync_open_trades cfg w s) in
  (n_get_order (ext s') <= n_get_order (ext s) + 3 * n)%nat /\
  (n_accounts (ext s') <= n_accounts (ext s) + n)%nat /\
  (List.length (sleeps (ext s')) <= List.length (sleeps (ext s)) + 2 * n)%nat.
Proof.
  cbv zeta.
  assert (C : spent (3 * List.length (pending_trades (ledger s)))
                    (List.length (pending_trades (ledger s)))
                    (2 * List.length (pending_trades (ledger s)))
                    s (snd (sync_open_trades cfg w s))).
  { unfold sync_open_trades. unfold bind at 1. unfold gets at 1.
    set (p := pending_trades (ledger s)).
    pose proof (costs_bind 0 0 0 _ _ _ _ _
                  (costs_logger INFO "sync_open_trades: found trade(s) to sync")
                  (fun _ : unit =>
                     costs_bind _ _ _ 0 0 0 _ _ (costs_sync_loop p 0%nat)
                       (fun _ => costs_logger INFO "sync_open_trades complete")) s) as H.
    eapply spent_le; [| | | exact H]; lia. }
  exact C.
Qed.

End Cost.

(** The bound is reached when the exchange does not know the order. *)
Lemma reconciliation_cost_reached :
  let s' := snd (sync_open_trades Scenario.kcs_usdt case_unindexed Scenario.mixed) in
  n_get_order (ext s') = 3%nat /\ List.length (sleeps (ext s')) = 2%nat /\
  List.length (pending_trades (ledger Scenario.mixed)) = 1%nat.
Proof. cbv zeta. repeat split. Qed.
